(** * A Ray of Hope: donation management backend

    A shallow embedding of the REST backend (zod schemas, Prisma store with
    the foreign keys of the SQL migration, JWT middleware, the controllers of
    [backend/controllers/index.js] and the handlers of the standalone server
    file) together with the properties of its specification.

    Modelling conventions.
    - A request body is a parsed JSON value ([json]); a missing key plays the
      role of JavaScript's [undefined].
    - A JavaScript number and a DOUBLE PRECISION column hold an IEEE 754
      binary64 value ([number], the library's [spec_float] at precision 53
      and maximal exponent 1024): finite values, signed zeros, the two
      infinities and NaN.  A body holds the numbers the JSON parser made of
      its literals, among them Infinity for a literal beyond the largest
      double.
    - The store is a record of five tables, each a list of rows in insertion
      order.  Identifier generation, the clock and the order in which the
      store hands out the rows of a table to a query without ORDER BY are
      inputs of a request ([env]); the primary and foreign keys of the
      migration are enforced by the [*_create] and [*_delete] operations.
    - A thrown JavaScript exception is a value of type [exn]; [try]/[catch]
      is a [match] on [result].  The only read of the store that throws is
      SUM, when finite amounts add up beyond the largest double; the four
      reads of the dashboard see one and the same store.
    - Identifiers are never updated, so the ON UPDATE CASCADE clauses of the
      migration have no counterpart. *)

From Stdlib Require Import List String Ascii ZArith QArith Bool Lia Permutation Sorted.
From Stdlib Require Import SpecFloat.
Import ListNotations.
Local Open Scope string_scope.
Local Open Scope Z_scope.

Set Implicit Arguments.
Set Warnings "-register-all".

(** ** JavaScript values *)

(** A JavaScript number: an IEEE 754 binary64 value. *)
Definition number := spec_float.

Definition zero : number := S754_zero false.

(** [Number.isNaN(x)] and C's [isinf(x)] *)
Definition isNaN (x : number) : bool :=
  match x with S754_nan => true | _ => false end.

Definition isinf (x : number) : bool :=
  match x with S754_infinity _ => true | _ => false end.

(** The double of an integer literal, and of the decimal literal
    [m / 10^k] for an integer [m] and [10^k] that are doubles themselves
    (a correctly rounded quotient of two doubles). *)
Definition number_of_Z (z : Z) : number := binary_normalize 53 1024 z 0 false.

Definition decimal (m : Z) (k : nat) : number :=
  SFdiv 53 1024 (number_of_Z m) (number_of_Z (10 ^ Z.of_nat k)).

Inductive json : Type :=
| JNull
| JBool (b : bool)
| JNum (x : number)
| JStr (s : string)
| JArr (l : list json)
| JObj (fields : list (string * json)).

(** [obj[k]]: the first binding of [k]; [None] is [undefined]. *)
Fixpoint lookup (A : Type) (k : string) (fs : list (string * A)) : option A :=
  match fs with
  | [] => None
  | (k', v) :: fs' => if String.eqb k k' then Some v else lookup k fs'
  end.

(** [s.split(sep)] for a one-character separator. *)
Fixpoint split (sep : ascii) (s : string) : list string :=
  match s with
  | EmptyString => [EmptyString]
  | String c s' =>
      if Ascii.eqb c sep then EmptyString :: split sep s'
      else match split sep s' with
           | seg :: segs => String c seg :: segs
           | [] => [String c EmptyString]
           end
  end.

(** Truthiness of an optional string ([undefined] and [""] are falsy). *)
Definition truthy_str (v : option string) : bool :=
  match v with
  | Some s => negb (String.eqb s "")
  | None => false
  end.

(** ** Exceptions *)

Inductive issue_code := invalid_type | too_small | invalid_string | invalid_enum_value.

Record ZodIssue := { code : issue_code; path : list string }.

Inductive prisma_code :=
| P2002  (* unique constraint failed *)
| P2003  (* foreign key constraint failed *)
| P2020. (* value out of range for the type *)

Inductive exn :=
| ZodError (errors : list ZodIssue)
| PrismaError (c : prisma_code).

Inductive result (A : Type) :=
| Ok (a : A)
| Throw (e : exn).
Arguments Ok {A} a.
Arguments Throw {A} e.

(** Sequencing of computations that may throw. *)
Definition bind (A B : Type) (r : result A) (f : A -> result B) : result B :=
  match r with
  | Ok a => f a
  | Throw e => Throw e
  end.

Notation "x <- c ;; k" := (bind c (fun x => k))
  (at level 61, c at next level, right associativity).

(** [error instanceof z.ZodError] *)
Definition instanceof_ZodError (e : exn) : bool :=
  match e with ZodError _ => true | PrismaError _ => false end.

(** [error.errors]: defined on a ZodError only. *)
Definition exn_errors (e : exn) : option (list ZodIssue) :=
  match e with ZodError l => Some l | PrismaError _ => None end.

(** ** zod field schemas

    A field schema maps the value found under a key (or [None] when the key
    is missing) to a parsed value or to the issues it raises. *)

Definition parsed (A : Type) := (A + list ZodIssue)%type.

Definition issues (A : Type) (r : parsed A) : list ZodIssue :=
  match r with inl _ => [] | inr l => l end.

Definition mk_issue (c : issue_code) (k : string) : ZodIssue :=
  {| code := c; path := [k] |}.

(** [z.string()] *)
Definition z_string (k : string) (v : option json) : parsed string :=
  match v with
  | Some (JStr s) => inl s
  | _ => inr [mk_issue invalid_type k]
  end.

(** [z.string().min(1)] *)
Definition z_string_min1 (k : string) (v : option json) : parsed string :=
  match z_string k v with
  | inl s => if String.eqb s "" then inr [mk_issue too_small k] else inl s
  | inr l => inr l
  end.

(** [z.number().positive()]: NaN is not of type number; a number is too
    small when [data <= 0]. *)
Definition z_number_positive (k : string) (v : option json) : parsed number :=
  match v with
  | Some (JNum data) =>
      if isNaN data then inr [mk_issue invalid_type k]
      else if SFleb data zero then inr [mk_issue too_small k]
      else inl data
  | _ => inr [mk_issue invalid_type k]
  end.

(** [schema.optional()] *)
Definition z_optional (A : Type) (f : string -> option json -> parsed A)
    (k : string) (v : option json) : parsed (option A) :=
  match v with
  | None => inl None
  | Some _ => match f k v with
              | inl a => inl (Some a)
              | inr l => inr l
              end
  end.

Inductive CampaignStatus := ACTIVE | COMPLETED | PAUSED.

(** [z.enum(["ACTIVE", "COMPLETED", "PAUSED"]).default("ACTIVE")] *)
Definition z_status_default (k : string) (v : option json) : parsed CampaignStatus :=
  match v with
  | None => inl ACTIVE
  | Some (JStr s) =>
      if String.eqb s "ACTIVE" then inl ACTIVE
      else if String.eqb s "COMPLETED" then inl COMPLETED
      else if String.eqb s "PAUSED" then inl PAUSED
      else inr [mk_issue invalid_enum_value k]
  | Some _ => inr [mk_issue invalid_type k]
  end.

(** The issue raised when the body itself is not an object. *)
Definition not_an_object : exn :=
  ZodError [{| code := invalid_type; path := [] |}].

(** ** Entity schemas (backend/schemas/index.js) *)

Record AuthInput := { au_username : string; au_accessKey : string }.

Definition authSchema_parse (body : json) : result AuthInput :=
  match body with
  | JObj fs =>
      let u := z_string_min1 "username" (lookup "username" fs) in
      let k := z_string_min1 "accessKey" (lookup "accessKey" fs) in
      match u, k with
      | inl u', inl k' => Ok {| au_username := u'; au_accessKey := k' |}
      | _, _ => Throw (ZodError (issues u ++ issues k))
      end
  | _ => Throw not_an_object
  end.

Record ExpenseInput := {
  ei_description : string;
  ei_amount : number;
  ei_category : string;
  ei_campaignId : option string }.

Definition expenseSchema_parse (body : json) : result ExpenseInput :=
  match body with
  | JObj fs =>
      let d := z_string_min1 "description" (lookup "description" fs) in
      let a := z_number_positive "amount" (lookup "amount" fs) in
      let c := z_string_min1 "category" (lookup "category" fs) in
      let g := z_optional z_string "campaignId" (lookup "campaignId" fs) in
      match d, a, c, g with
      | inl d', inl a', inl c', inl g' =>
          Ok {| ei_description := d'; ei_amount := a';
                ei_category := c'; ei_campaignId := g' |}
      | _, _, _, _ => Throw (ZodError (issues d ++ issues a ++ issues c ++ issues g))
      end
  | _ => Throw not_an_object
  end.

Record DonationInput := {
  di_amount : number;
  di_donorId : string;
  di_campaignId : option string }.

Definition donationSchema_parse (body : json) : result DonationInput :=
  match body with
  | JObj fs =>
      let a := z_number_positive "amount" (lookup "amount" fs) in
      let d := z_string "donorId" (lookup "donorId" fs) in
      let g := z_optional z_string "campaignId" (lookup "campaignId" fs) in
      match a, d, g with
      | inl a', inl d', inl g' =>
          Ok {| di_amount := a'; di_donorId := d'; di_campaignId := g' |}
      | _, _, _ => Throw (ZodError (issues a ++ issues d ++ issues g))
      end
  | _ => Throw not_an_object
  end.

Record CampaignInput := {
  ci_name : string;
  ci_description : option string;
  ci_targetAmount : option number;
  ci_status : CampaignStatus }.

Definition campaignSchema_parse (body : json) : result CampaignInput :=
  match body with
  | JObj fs =>
      let n := z_string_min1 "name" (lookup "name" fs) in
      let d := z_optional z_string "description" (lookup "description" fs) in
      let t := z_optional z_number_positive "targetAmount" (lookup "targetAmount" fs) in
      let s := z_status_default "status" (lookup "status" fs) in
      match n, d, t, s with
      | inl n', inl d', inl t', inl s' =>
          Ok {| ci_name := n'; ci_description := d';
                ci_targetAmount := t'; ci_status := s' |}
      | _, _, _, _ => Throw (ZodError (issues n ++ issues d ++ issues t ++ issues s))
      end
  | _ => Throw not_an_object
  end.

Record DonorInput := {
  ni_name : string;
  ni_email : option string;
  ni_phone : option string;
  ni_address : option string }.

Record BeneficiaryInput := {
  bi_name : string;
  bi_description : option string;
  bi_contactInfo : option string }.

Definition beneficiarySchema_parse (body : json) : result BeneficiaryInput :=
  match body with
  | JObj fs =>
      let n := z_string_min1 "name" (lookup "name" fs) in
      let d := z_optional z_string "description" (lookup "description" fs) in
      let c := z_optional z_string "contactInfo" (lookup "contactInfo" fs) in
      match n, d, c with
      | inl n', inl d', inl c' =>
          Ok {| bi_name := n'; bi_description := d'; bi_contactInfo := c' |}
      | _, _, _ => Throw (ZodError (issues n ++ issues d ++ issues c))
      end
  | _ => Throw not_an_object
  end.

(** ** Rows of the five tables (columns of the SQL migration) *)

Record Campaign := {
  cam_id : string;
  cam_name : string;
  cam_description : option string;
  cam_targetAmount : option number;
  cam_status : CampaignStatus;
  cam_createdAt : Z;
  cam_updatedAt : Z }.

Record Donor := {
  dnr_id : string;
  dnr_name : string;
  dnr_email : option string;
  dnr_phone : option string;
  dnr_address : option string;
  dnr_createdAt : Z;
  dnr_updatedAt : Z }.

Record Beneficiary := {
  ben_id : string;
  ben_name : string;
  ben_description : option string;
  ben_contactInfo : option string;
  ben_createdAt : Z;
  ben_updatedAt : Z }.

Record Donation := {
  don_id : string;
  don_amount : number;
  don_donorId : string;
  don_campaignId : option string;
  don_createdAt : Z;
  don_updatedAt : Z }.

Record Expense := {
  exp_id : string;
  exp_description : string;
  exp_amount : number;
  exp_category : string;
  exp_campaignId : option string;
  exp_createdAt : Z;
  exp_updatedAt : Z }.

(** The persisted state. *)
Record db := {
  campaigns : list Campaign;
  donors : list Donor;
  beneficiaries : list Beneficiary;
  donations : list Donation;
  expenses : list Expense }.

Definition empty_db : db :=
  {| campaigns := []; donors := []; beneficiaries := [];
     donations := []; expenses := [] |}.

(** What a request reads from its surroundings: the identifier the Prisma
    client generates for a new row, the clock in milliseconds and, for each
    table, the order in which the store hands out its rows to a query
    without ORDER BY, as the positions at which it picks them. *)
Record env := { newid : string; now : Z; scan : string -> list nat }.

(** ** Store operations *)

Definition has_id (A : Type) (id_of : A -> string) (i : string) (l : list A) : bool :=
  existsb (fun r => String.eqb (id_of r) i) l.

Definition find_id (A : Type) (id_of : A -> string) (i : string) (l : list A) : option A :=
  find (fun r => String.eqb (id_of r) i) l.

(** A nullable reference is satisfied when it is null or names a row. *)
Definition ref_ok (A : Type) (id_of : A -> string) (r : option string) (l : list A) : bool :=
  match r with
  | None => true
  | Some i => has_id id_of i l
  end.

(** The row an insert stores: the validated data, the generated identifier
    and the clock for both timestamps ([@default(now())], [@updatedAt]). *)
Definition expense_row (e : env) (data : ExpenseInput) : Expense :=
  {| exp_id := newid e; exp_description := ei_description data;
     exp_amount := ei_amount data; exp_category := ei_category data;
     exp_campaignId := ei_campaignId data;
     exp_createdAt := now e; exp_updatedAt := now e |}.

Definition donation_row (e : env) (data : DonationInput) : Donation :=
  {| don_id := newid e; don_amount := di_amount data;
     don_donorId := di_donorId data; don_campaignId := di_campaignId data;
     don_createdAt := now e; don_updatedAt := now e |}.

Definition campaign_row (e : env) (data : CampaignInput) : Campaign :=
  {| cam_id := newid e; cam_name := ci_name data;
     cam_description := ci_description data;
     cam_targetAmount := ci_targetAmount data; cam_status := ci_status data;
     cam_createdAt := now e; cam_updatedAt := now e |}.

Definition donor_row (e : env) (data : DonorInput) : Donor :=
  {| dnr_id := newid e; dnr_name := ni_name data; dnr_email := ni_email data;
     dnr_phone := ni_phone data; dnr_address := ni_address data;
     dnr_createdAt := now e; dnr_updatedAt := now e |}.

Definition beneficiary_row (e : env) (data : BeneficiaryInput) : Beneficiary :=
  {| ben_id := newid e; ben_name := bi_name data;
     ben_description := bi_description data;
     ben_contactInfo := bi_contactInfo data;
     ben_createdAt := now e; ben_updatedAt := now e |}.

Definition campaign_create (e : env) (data : CampaignInput) (st : db)
  : result (db * Campaign) :=
  if has_id cam_id (newid e) (campaigns st) then Throw (PrismaError P2002)
  else
    let row := campaign_row e data in
    Ok ({| campaigns := campaigns st ++ [row]; donors := donors st;
           beneficiaries := beneficiaries st; donations := donations st;
           expenses := expenses st |}, row).

Definition donor_create (e : env) (data : DonorInput) (st : db)
  : result (db * Donor) :=
  if has_id dnr_id (newid e) (donors st) then Throw (PrismaError P2002)
  else
    let row := donor_row e data in
    Ok ({| campaigns := campaigns st; donors := donors st ++ [row];
           beneficiaries := beneficiaries st; donations := donations st;
           expenses := expenses st |}, row).

Definition beneficiary_create (e : env) (data : BeneficiaryInput) (st : db)
  : result (db * Beneficiary) :=
  if has_id ben_id (newid e) (beneficiaries st) then Throw (PrismaError P2002)
  else
    let row := beneficiary_row e data in
    Ok ({| campaigns := campaigns st; donors := donors st;
           beneficiaries := beneficiaries st ++ [row]; donations := donations st;
           expenses := expenses st |}, row).

(** donations_donorId_fkey and donations_campaignId_fkey are checked on insert. *)
Definition donation_create (e : env) (data : DonationInput) (st : db)
  : result (db * Donation) :=
  if has_id don_id (newid e) (donations st) then Throw (PrismaError P2002)
  else if negb (has_id dnr_id (di_donorId data) (donors st)) then Throw (PrismaError P2003)
  else if negb (ref_ok cam_id (di_campaignId data) (campaigns st)) then Throw (PrismaError P2003)
  else
    let row := donation_row e data in
    Ok ({| campaigns := campaigns st; donors := donors st;
           beneficiaries := beneficiaries st; donations := donations st ++ [row];
           expenses := expenses st |}, row).

(** expenses_campaignId_fkey is checked on insert. *)
Definition expense_create (e : env) (data : ExpenseInput) (st : db)
  : result (db * Expense) :=
  if has_id exp_id (newid e) (expenses st) then Throw (PrismaError P2002)
  else if negb (ref_ok cam_id (ei_campaignId data) (campaigns st)) then Throw (PrismaError P2003)
  else
    let row := expense_row e data in
    Ok ({| campaigns := campaigns st; donors := donors st;
           beneficiaries := beneficiaries st; donations := donations st;
           expenses := expenses st ++ [row] |}, row).

(** [orderBy: { createdAt: "desc" }]: a stable insertion sort on the key. *)
Fixpoint insert_desc (A : Type) (key : A -> Z) (x : A) (l : list A) : list A :=
  match l with
  | [] => [x]
  | y :: l' => if key y <=? key x then x :: y :: l' else y :: insert_desc key x l'
  end.

Definition orderBy_desc (A : Type) (key : A -> Z) (l : list A) : list A :=
  fold_right (insert_desc key) [] l.

(** The order of a list sorted by [orderBy_desc]: later elements are not newer. *)
Definition desc (A : Type) (key : A -> Z) (a b : A) : Prop := key b <= key a.

(** [include: { campaign: true }] *)
Record ExpenseWithCampaign := {
  ewc_expense : Expense;
  ewc_campaign : option Campaign }.

Definition campaign_of (st : db) (r : option string) : option Campaign :=
  match r with
  | None => None
  | Some i => find_id cam_id i (campaigns st)
  end.

Definition include_campaign (st : db) (x : Expense) : ExpenseWithCampaign :=
  {| ewc_expense := x; ewc_campaign := campaign_of st (exp_campaignId x) |}.

(** [include: { donor: true, campaign: true }] *)
Record DonationWithRelations := {
  dwr_donation : Donation;
  dwr_donor : option Donor;
  dwr_campaign : option Campaign }.

Definition include_donor_campaign (st : db) (d : Donation) : DonationWithRelations :=
  {| dwr_donation := d;
     dwr_donor := find_id dnr_id (don_donorId d) (donors st);
     dwr_campaign := campaign_of st (don_campaignId d) |}.

(** [include: { _count: { select: { donations: true, expenses: true } } }] *)
Record CampaignWithCount := {
  cwc_campaign : Campaign;
  cwc_donations : nat;
  cwc_expenses : nat }.

Definition refers (r : option string) (i : string) : bool :=
  match r with
  | Some j => String.eqb j i
  | None => false
  end.

Definition include_campaign_count (st : db) (c : Campaign) : CampaignWithCount :=
  {| cwc_campaign := c;
     cwc_donations :=
       List.length (filter (fun d => refers (don_campaignId d) (cam_id c)) (donations st));
     cwc_expenses :=
       List.length (filter (fun x => refers (exp_campaignId x) (cam_id c)) (expenses st)) |}.

(** [include: { _count: { select: { donations: true } } }] *)
Record DonorWithCount := {
  dwc_donor : Donor;
  dwc_donations : nat }.

Definition include_donor_count (st : db) (d : Donor) : DonorWithCount :=
  {| dwc_donor := d;
     dwc_donations :=
       List.length (filter (fun x => String.eqb (don_donorId x) (dnr_id d)) (donations st)) |}.

(** The rows of a table as a query without ORDER BY receives them: the
    store picks the row at the first position of [order] out of the table,
    then the row at the second position out of what is left, and so on (a
    position past the end picks nothing); what is left when [order] is
    used up follows as it is stored. *)
Fixpoint heap_scan (A : Type) (order : list nat) (l : list A) : list A :=
  match order with
  | [] => l
  | n :: order' =>
      match skipn n l with
      | x :: rest => x :: heap_scan order' (firstn n l ++ rest)
      | [] => heap_scan order' l
      end
  end.

(** The addition of two DOUBLE PRECISION values in PostgreSQL ([float8pl],
    the transition function of SUM over such a column): the IEEE sum, and
    the error "value out of range: overflow" when the sum of two values
    that are not infinite is.  The Prisma client throws on that error. *)
Definition float8pl (val1 val2 : number) : result number :=
  let sum := SFadd 53 1024 val1 val2 in
  if isinf sum && negb (isinf val1) && negb (isinf val2)
  then Throw (PrismaError P2020)
  else Ok sum.

(** SUM over the rows as they are read: the first value, to which the
    others are added one by one. *)
Fixpoint float8_sum (state : number) (l : list number) : result number :=
  match l with
  | [] => Ok state
  | x :: l' => s <- float8pl state x ;; float8_sum s l'
  end.

(** [aggregate({ _sum: { amount: true } })] over the amounts in the order
    the rows are read: SQL SUM is NULL over no rows. *)
Definition aggregate_sum (l : list number) : result (option number) :=
  match l with
  | [] => Ok None
  | x :: l' => s <- float8_sum x l' ;; Ok (Some s)
  end.

(** [x || 0] on a nullable number: [null], [0], [-0] and [NaN] are falsy. *)
Definition or_zero (x : option number) : number :=
  match x with
  | Some (S754_zero _) | Some S754_nan | None => zero
  | Some q => q
  end.

Definition status_eqb (a b : CampaignStatus) : bool :=
  match a, b with
  | ACTIVE, ACTIVE | COMPLETED, COMPLETED | PAUSED, PAUSED => true
  | _, _ => false
  end.

(** [campaign.count({ where: { status: "ACTIVE" } })] *)
Definition count_active (st : db) : nat :=
  List.length (filter (fun c => status_eqb (cam_status c) ACTIVE) (campaigns st)).

(** ** Referential actions of the migration

    [donations_campaignId_fkey] and [expenses_campaignId_fkey] are
    ON DELETE SET NULL; [donations_donorId_fkey] is ON DELETE CASCADE. *)

Definition detach_donation (i : string) (d : Donation) : Donation :=
  if refers (don_campaignId d) i then
    {| don_id := don_id d; don_amount := don_amount d; don_donorId := don_donorId d;
       don_campaignId := None;
       don_createdAt := don_createdAt d; don_updatedAt := don_updatedAt d |}
  else d.

Definition detach_expense (i : string) (x : Expense) : Expense :=
  if refers (exp_campaignId x) i then
    {| exp_id := exp_id x; exp_description := exp_description x;
       exp_amount := exp_amount x; exp_category := exp_category x;
       exp_campaignId := None;
       exp_createdAt := exp_createdAt x; exp_updatedAt := exp_updatedAt x |}
  else x.

(** DELETE FROM campaigns WHERE id = i *)
Definition campaign_delete (i : string) (st : db) : db :=
  {| campaigns := filter (fun c => negb (String.eqb (cam_id c) i)) (campaigns st);
     donors := donors st;
     beneficiaries := beneficiaries st;
     donations := map (detach_donation i) (donations st);
     expenses := map (detach_expense i) (expenses st) |}.

(** DELETE FROM donors WHERE id = i *)
Definition donor_delete (i : string) (st : db) : db :=
  {| campaigns := campaigns st;
     donors := filter (fun d => negb (String.eqb (dnr_id d) i)) (donors st);
     beneficiaries := beneficiaries st;
     donations := filter (fun d => negb (String.eqb (don_donorId d) i)) (donations st);
     expenses := expenses st |}.

(** ** Date.prototype.toISOString

    The timestamp is a count of milliseconds since the epoch (TIMESTAMP(3)).
    The civil date is computed from the day count in the proleptic Gregorian
    calendar; years outside 0..9999 use the signed six-digit form. *)

Definition digit (d : Z) : ascii :=
  match d with
  | 0 => "0" | 1 => "1" | 2 => "2" | 3 => "3" | 4 => "4"
  | 5 => "5" | 6 => "6" | 7 => "7" | 8 => "8" | _ => "9"
  end%char.

Definition pad2 (n : Z) : string :=
  String (digit (n / 10 mod 10)) (String (digit (n mod 10)) "").

Definition pad3 (n : Z) : string :=
  String (digit (n / 100 mod 10)) (pad2 n).

Definition pad4 (n : Z) : string :=
  String (digit (n / 1000 mod 10)) (pad3 n).

Definition pad6 (n : Z) : string :=
  String (digit (n / 100000 mod 10)) (String (digit (n / 10000 mod 10)) (pad4 n)).

Definition civil_from_days (days : Z) : Z * Z * Z :=
  let z := days + 719468 in
  let era := z / 146097 in
  let doe := z mod 146097 in
  let yoe := (doe - doe / 1460 + doe / 36524 - doe / 146096) / 365 in
  let doy := doe - (365 * yoe + yoe / 4 - yoe / 100) in
  let mp := (5 * doy + 2) / 153 in
  let d := doy - (153 * mp + 2) / 5 + 1 in
  let m := if mp <? 10 then mp + 3 else mp - 9 in
  let y := yoe + era * 400 in
  (if m <=? 2 then y + 1 else y, m, d).

Definition iso_year (y : Z) : string :=
  if (0 <=? y) && (y <=? 9999) then pad4 y
  else if y <? 0 then String "-"%char (pad6 (- y))
  else String "+"%char (pad6 y).

(** The calendar date [YYYY-MM-DD] (UTC) of a timestamp. *)
Definition iso_date (ms : Z) : string :=
  let '(y, m, d) := civil_from_days (ms / 86400000) in
  iso_year y ++ "-" ++ pad2 m ++ "-" ++ pad2 d.

Definition iso_time (ms : Z) : string :=
  let t := ms mod 86400000 in
  pad2 (t / 3600000) ++ ":" ++ pad2 (t / 60000 mod 60) ++ ":"
    ++ pad2 (t / 1000 mod 60) ++ "." ++ pad3 (t mod 1000).

Definition toISOString (ms : Z) : string :=
  iso_date ms ++ "T" ++ iso_time ms ++ "Z".

(** ** HTTP messages *)

Inductive method := GET | POST | PUT | DELETE.

Definition method_eqb (a b : method) : bool :=
  match a, b with
  | GET, GET | POST, POST | PUT, PUT | DELETE, DELETE => true
  | _, _ => false
  end.

(** The payload of a verified token: [{ username, iat, exp }], times in seconds. *)
Record claims := { cl_username : string; cl_iat : Z; cl_exp : Z }.

Record request := {
  req_method : method;
  req_path : string;
  req_headers : list (string * string);
  req_body : json;
  req_user : option claims }.

Record column := { header : string; key : string; width : Z }.

Record row := {
  row_date : string;
  row_description : string;
  row_amount : number;
  row_category : string;
  row_campaign : string }.

Record worksheet := {
  ws_name : string;
  ws_columns : list column;
  ws_rows : list row }.

Inductive payload :=
| PError (error : string) (details : option (list ZodIssue))
| PLogin (token username : string)
| PStats (totalDonations totalExpenses : number) (activeCampaigns : nat)
         (recentDonors : list DonationWithRelations)
| PExpenses (l : list ExpenseWithCampaign)
| PExpense (x : Expense)
| PDonations (l : list DonationWithRelations)
| PDonation (d : Donation)
| PCampaigns (l : list CampaignWithCount)
| PCampaign (c : Campaign)
| PDonors (l : list DonorWithCount)
| PDonor (d : Donor)
| PBeneficiaries (l : list Beneficiary)
| PBeneficiary (b : Beneficiary)
| PWorkbook (w : worksheet)
| PNoRoute.

Record response := {
  status : Z;
  res_headers : list (string * string);
  body : payload }.

(** [res.status(n).json(p)] and [res.json(p)]; [p] is the value handed to
    [res.json]. *)
Definition json_response (n : Z) (p : payload) : response :=
  {| status := n; res_headers := []; body := p |}.

(** What [JSON.stringify] writes for a number of the value handed to
    [res.json], as the client reads it: [null] for an infinity and for NaN,
    0 for either zero. *)
Definition JSON_stringify_number (x : number) : json :=
  match x with
  | S754_infinity _ | S754_nan => JNull
  | S754_zero _ => JNum zero
  | S754_finite _ _ _ => JNum x
  end.

(** A handler reads its surroundings and the request, and maps the store to
    a new store and a response. *)
Definition handler := env -> request -> db -> db * response.

(** What Express answers when no route matches. *)
Definition no_route : response := json_response 404 PNoRoute.

Definition validCredentials : list (string * string) :=
  [("admin", "ray-hope-2024"); ("staff", "staff-access-2024")].

Definition expiresIn_24h : Z := 24 * 60 * 60.

(** [error.message], read by the login controller for an error that is not
    a ZodError; the schema throws nothing else, so login never reads it. *)
Definition exn_message (e : exn) : string :=
  match e with
  | ZodError _ => "Validation failed"
  | PrismaError P2002 => "Unique constraint failed"
  | PrismaError P2003 => "Foreign key constraint failed"
  | PrismaError P2020 => "Value out of range for the type"
  end.

Definition worksheet_columns : list column :=
  [ {| header := "Date"; key := "date"; width := 15 |};
    {| header := "Description"; key := "description"; width := 30 |};
    {| header := "Amount"; key := "amount"; width := 15 |};
    {| header := "Category"; key := "category"; width := 20 |};
    {| header := "Campaign"; key := "campaign"; width := 25 |} ].

(** [expense.campaign?.name || "N/A"] *)
Definition campaign_name_or_NA (c : option Campaign) : string :=
  match c with
  | Some c' => if String.eqb (cam_name c') "" then "N/A" else cam_name c'
  | None => "N/A"
  end.

(** [worksheet.addRow({ ... })] for one expense of the export. *)
Definition addRow (w : worksheet) (r : row) : worksheet :=
  {| ws_name := ws_name w; ws_columns := ws_columns w; ws_rows := ws_rows w ++ [r] |}.

Definition export_row (x : ExpenseWithCampaign) : row :=
  {| row_date := hd "" (split "T" (toISOString (exp_createdAt (ewc_expense x))));
     row_description := exp_description (ewc_expense x);
     row_amount := exp_amount (ewc_expense x);
     row_category := exp_category (ewc_expense x);
     row_campaign := campaign_name_or_NA (ewc_campaign x) |}.

(** The parts of the runtime the backend consumes as black boxes: the e-mail
    pattern of zod, the environment variable holding the signing secret, the
    compact serialisation of a signed token under a secret and its inverse
    (which fails on a malformed token or a signature made with another
    secret), and the path matching of the Express router. *)
Record runtime := {
  is_email : string -> bool;
  process_env_JWT_SECRET : option string;
  jwt_encode : claims -> string -> string;
  jwt_decode : string -> string -> option claims;
  path_match : string -> string -> bool }.

Section Backend.

Variable rt : runtime.

(** [z.string().email()] *)
Definition z_string_email (k : string) (v : option json) : parsed string :=
  match z_string k v with
  | inl s => if is_email rt s then inl s else inr [mk_issue invalid_string k]
  | inr l => inr l
  end.

Definition donorSchema_parse (body : json) : result DonorInput :=
  match body with
  | JObj fs =>
      let n := z_string_min1 "name" (lookup "name" fs) in
      let m := z_optional z_string_email "email" (lookup "email" fs) in
      let p := z_optional z_string "phone" (lookup "phone" fs) in
      let a := z_optional z_string "address" (lookup "address" fs) in
      match n, m, p, a with
      | inl n', inl m', inl p', inl a' =>
          Ok {| ni_name := n'; ni_email := m'; ni_phone := p'; ni_address := a' |}
      | _, _, _, _ => Throw (ZodError (issues n ++ issues m ++ issues p ++ issues a))
      end
  | _ => Throw not_an_object
  end.

(** [process.env.JWT_SECRET || "ray-of-hope-secret-key"] *)
Definition JWT_SECRET : string :=
  if truthy_str (process_env_JWT_SECRET rt) then
    match process_env_JWT_SECRET rt with Some s => s | None => "" end
  else "ray-of-hope-secret-key".

(** [jwt.sign({ username }, secret, { expiresIn: "24h" })] at clock [ms]:
    the issue time is the clock in whole seconds. *)
Definition jwt_sign (username secret : string) (ms : Z) : string :=
  let iat := ms / 1000 in
  jwt_encode rt {| cl_username := username; cl_iat := iat; cl_exp := iat + expiresIn_24h |}
             secret.

(** [jwt.verify(token, secret)] at clock [ms]: [None] is the error of a
    token that does not decode under the secret or whose [exp] is reached. *)
Definition jwt_verify (token secret : string) (ms : Z) : option claims :=
  match jwt_decode rt token secret with
  | None => None
  | Some c => if cl_exp c <=? ms / 1000 then None else Some c
  end.

(** *** Middleware (standalone server file; imported by the router) *)

Definition middleware := handler -> handler.

Definition set_user (req : request) (u : claims) : request :=
  {| req_method := req_method req; req_path := req_path req;
     req_headers := req_headers req; req_body := req_body req;
     req_user := Some u |}.

(** [authHeader && authHeader.split(" ")[1]]; header names are lower-cased
    by the HTTP layer. *)
Definition header_token (req : request) : option string :=
  match lookup "authorization" (req_headers req) with
  | None => None
  | Some authHeader =>
      if String.eqb authHeader "" then Some authHeader
      else nth_error (split " " authHeader) 1
  end.

Definition authenticateToken : middleware := fun next e req st =>
  match header_token req with
  | Some token =>
      if String.eqb token "" then
        (st, json_response 401 (PError "Access token required" None))
      else
        match jwt_verify token JWT_SECRET (now e) with
        | None => (st, json_response 403 (PError "Invalid token" None))
        | Some user => next e (set_user req user) st
        end
  | None => (st, json_response 401 (PError "Access token required" None))
  end.

(** *** Controllers (backend/controllers/index.js) *)

Definition login : handler := fun e req st =>
  match authSchema_parse (req_body req) with
  | Ok a =>
      let username := au_username a in
      let accessKey := au_accessKey a in
      match find (fun u => String.eqb (fst u) username && String.eqb (snd u) accessKey)
                 validCredentials with
      | None => (st, json_response 401 (PError "Invalid credentials" None))
      | Some _ =>
          (st, json_response 200 (PLogin (jwt_sign username JWT_SECRET (now e)) username))
      end
  | Throw error =>
      if instanceof_ZodError error then
        (st, json_response 400 (PError "Invalid login data" (exn_errors error)))
      else (st, json_response 400 (PError (exn_message error) None))
  end.

Definition findMany_donations (st : db) : list DonationWithRelations :=
  map (include_donor_campaign st) (orderBy_desc don_createdAt (donations st)).

Definition getDashboardStats : handler := fun e req st =>
  let activeCampaigns := count_active st in
  let recentDonors :=
    map (include_donor_campaign st) (firstn 5 (orderBy_desc don_createdAt (donations st))) in
  match totalDonations <-
          aggregate_sum (map don_amount (heap_scan (scan e "donations") (donations st))) ;;
        totalExpenses <-
          aggregate_sum (map exp_amount (heap_scan (scan e "expenses") (expenses st))) ;;
        Ok (totalDonations, totalExpenses) with
  | Ok (totalDonations, totalExpenses) =>
      (st, json_response 200
             (PStats (or_zero totalDonations) (or_zero totalExpenses)
                     activeCampaigns recentDonors))
  | Throw error =>
      (st, json_response 500 (PError "Failed to fetch dashboard statistics" None))
  end.

Definition getExpenses : handler := fun e req st =>
  (st, json_response 200
         (PExpenses (map (include_campaign st) (orderBy_desc exp_createdAt (expenses st))))).

Definition createExpense : handler := fun e req st =>
  match data <- expenseSchema_parse (req_body req) ;; expense_create e data st with
  | Ok (st', expense) => (st', json_response 201 (PExpense expense))
  | Throw error =>
      (st, json_response 400 (PError "Invalid expense data" (exn_errors error)))
  end.

Definition getDonations : handler := fun e req st =>
  (st, json_response 200 (PDonations (findMany_donations st))).

Definition createDonation : handler := fun e req st =>
  match data <- donationSchema_parse (req_body req) ;; donation_create e data st with
  | Ok (st', donation) => (st', json_response 201 (PDonation donation))
  | Throw error =>
      (st, json_response 400 (PError "Invalid donation data" (exn_errors error)))
  end.

Definition getCampaigns : handler := fun e req st =>
  (st, json_response 200
         (PCampaigns (map (include_campaign_count st)
                          (orderBy_desc cam_createdAt (campaigns st))))).

Definition createCampaign : handler := fun e req st =>
  match data <- campaignSchema_parse (req_body req) ;; campaign_create e data st with
  | Ok (st', campaign) => (st', json_response 201 (PCampaign campaign))
  | Throw error =>
      (st, json_response 400 (PError "Invalid campaign data" (exn_errors error)))
  end.

Definition getDonors : handler := fun e req st =>
  (st, json_response 200
         (PDonors (map (include_donor_count st) (orderBy_desc dnr_createdAt (donors st))))).

Definition createDonor : handler := fun e req st =>
  match data <- donorSchema_parse (req_body req) ;; donor_create e data st with
  | Ok (st', donor) => (st', json_response 201 (PDonor donor))
  | Throw error =>
      (st, json_response 400 (PError "Invalid donor data" (exn_errors error)))
  end.

Definition getBeneficiaries : handler := fun e req st =>
  (st, json_response 200 (PBeneficiaries (orderBy_desc ben_createdAt (beneficiaries st)))).

Definition createBeneficiary : handler := fun e req st =>
  match data <- beneficiarySchema_parse (req_body req) ;; beneficiary_create e data st with
  | Ok (st', beneficiary) => (st', json_response 201 (PBeneficiary beneficiary))
  | Throw error =>
      (st, json_response 400 (PError "Invalid beneficiary data" (exn_errors error)))
  end.

Definition exportExpenses : handler := fun e req st =>
  let worksheet := {| ws_name := "Expenses"; ws_columns := []; ws_rows := [] |} in
  let expenses := map (include_campaign st) (heap_scan (scan e "expenses") (expenses st)) in
  let worksheet :=
    {| ws_name := ws_name worksheet; ws_columns := worksheet_columns;
       ws_rows := ws_rows worksheet |} in
  let worksheet :=
    fold_left (fun w expense => addRow w (export_row expense)) expenses worksheet in
  (st, {| status := 200;
          res_headers :=
            [("Content-Type",
              "application/vnd.openxmlformats-officedocument.spreadsheetml.sheet");
             ("Content-Disposition", "attachment; filename=expenses.xlsx")];
          body := PWorkbook worksheet |}).

(** *** Create handlers of the standalone server file

    They differ from the controllers in their [catch]: only a ZodError is
    answered with 400, any other error with 500.  The reading handlers and
    the login handler of that file are those of the controllers. *)

Definition catch_create (invalid failed : string) (st : db) (error : exn) : db * response :=
  if instanceof_ZodError error then
    (st, json_response 400 (PError invalid (exn_errors error)))
  else (st, json_response 500 (PError failed None)).

Definition post_api_expenses : handler := fun e req st =>
  match data <- expenseSchema_parse (req_body req) ;; expense_create e data st with
  | Ok (st', expense) => (st', json_response 201 (PExpense expense))
  | Throw error => catch_create "Invalid expense data" "Failed to create expense" st error
  end.

Definition post_api_donations : handler := fun e req st =>
  match data <- donationSchema_parse (req_body req) ;; donation_create e data st with
  | Ok (st', donation) => (st', json_response 201 (PDonation donation))
  | Throw error => catch_create "Invalid donation data" "Failed to create donation" st error
  end.

Definition post_api_campaigns : handler := fun e req st =>
  match data <- campaignSchema_parse (req_body req) ;; campaign_create e data st with
  | Ok (st', campaign) => (st', json_response 201 (PCampaign campaign))
  | Throw error => catch_create "Invalid campaign data" "Failed to create campaign" st error
  end.

Definition post_api_donors : handler := fun e req st =>
  match data <- donorSchema_parse (req_body req) ;; donor_create e data st with
  | Ok (st', donor) => (st', json_response 201 (PDonor donor))
  | Throw error => catch_create "Invalid donor data" "Failed to create donor" st error
  end.

Definition post_api_beneficiaries : handler := fun e req st =>
  match data <- beneficiarySchema_parse (req_body req) ;; beneficiary_create e data st with
  | Ok (st', beneficiary) => (st', json_response 201 (PBeneficiary beneficiary))
  | Throw error =>
      catch_create "Invalid beneficiary data" "Failed to create beneficiary" st error
  end.

(** *** Routing *)

Record route := {
  r_method : method;
  r_path : string;
  r_stack : list middleware;
  r_handler : handler }.

Definition run_route (r : route) : handler :=
  fold_right (fun (m : middleware) h => m h) (r_handler r) (r_stack r).

Definition dispatch (routes : list route) : handler := fun e req st =>
  match find (fun r => method_eqb (r_method r) (req_method req)
                       && path_match rt (r_path r) (req_path req)) routes with
  | Some r => run_route r e req st
  | None => (st, no_route)
  end.

(** backend/routes/index.js *)
Definition router : list route :=
  [ {| r_method := POST; r_path := "/auth/login"; r_stack := []; r_handler := login |};
    {| r_method := GET; r_path := "/dashboard/stats";
       r_stack := [authenticateToken]; r_handler := getDashboardStats |};
    {| r_method := GET; r_path := "/expenses";
       r_stack := [authenticateToken]; r_handler := getExpenses |};
    {| r_method := POST; r_path := "/expenses";
       r_stack := [authenticateToken]; r_handler := createExpense |};
    {| r_method := GET; r_path := "/donations";
       r_stack := [authenticateToken]; r_handler := getDonations |};
    {| r_method := POST; r_path := "/donations";
       r_stack := [authenticateToken]; r_handler := createDonation |};
    {| r_method := GET; r_path := "/campaigns";
       r_stack := [authenticateToken]; r_handler := getCampaigns |};
    {| r_method := POST; r_path := "/campaigns";
       r_stack := [authenticateToken]; r_handler := createCampaign |};
    {| r_method := GET; r_path := "/donors";
       r_stack := [authenticateToken]; r_handler := getDonors |};
    {| r_method := POST; r_path := "/donors";
       r_stack := [authenticateToken]; r_handler := createDonor |};
    {| r_method := GET; r_path := "/beneficiaries";
       r_stack := [authenticateToken]; r_handler := getBeneficiaries |};
    {| r_method := POST; r_path := "/beneficiaries";
       r_stack := [authenticateToken]; r_handler := createBeneficiary |};
    {| r_method := GET; r_path := "/export/expenses";
       r_stack := [authenticateToken]; r_handler := exportExpenses |} ].

(** The route table of the standalone server file. *)
Definition app : list route :=
  [ {| r_method := POST; r_path := "/api/auth/login"; r_stack := []; r_handler := login |};
    {| r_method := GET; r_path := "/api/dashboard/stats";
       r_stack := [authenticateToken]; r_handler := getDashboardStats |};
    {| r_method := GET; r_path := "/api/expenses";
       r_stack := [authenticateToken]; r_handler := getExpenses |};
    {| r_method := POST; r_path := "/api/expenses";
       r_stack := [authenticateToken]; r_handler := post_api_expenses |};
    {| r_method := GET; r_path := "/api/donations";
       r_stack := [authenticateToken]; r_handler := getDonations |};
    {| r_method := POST; r_path := "/api/donations";
       r_stack := [authenticateToken]; r_handler := post_api_donations |};
    {| r_method := GET; r_path := "/api/campaigns";
       r_stack := [authenticateToken]; r_handler := getCampaigns |};
    {| r_method := POST; r_path := "/api/campaigns";
       r_stack := [authenticateToken]; r_handler := post_api_campaigns |};
    {| r_method := GET; r_path := "/api/donors";
       r_stack := [authenticateToken]; r_handler := getDonors |};
    {| r_method := POST; r_path := "/api/donors";
       r_stack := [authenticateToken]; r_handler := post_api_donors |};
    {| r_method := GET; r_path := "/api/beneficiaries";
       r_stack := [authenticateToken]; r_handler := getBeneficiaries |};
    {| r_method := POST; r_path := "/api/beneficiaries";
       r_stack := [authenticateToken]; r_handler := post_api_beneficiaries |};
    {| r_method := GET; r_path := "/api/export/expenses";
       r_stack := [authenticateToken]; r_handler := exportExpenses |} ].

(** *** Evolution of the persisted state

    The store changes through requests served by either route table and
    through deletions of campaigns and donors, which no endpoint issues but
    whose effect the migration fixes. *)
Inductive step : db -> db -> Prop :=
| step_router (e : env) (req : request) (st : db) :
    step st (fst (dispatch router e req st))
| step_app (e : env) (req : request) (st : db) :
    step st (fst (dispatch app e req st))
| step_campaign_delete (i : string) (st : db) :
    step st (campaign_delete i st)
| step_donor_delete (i : string) (st : db) :
    step st (donor_delete i st).

Inductive reachable : db -> Prop :=
| reachable_empty : reachable empty_db
| reachable_step (st st' : db) : reachable st -> step st st' -> reachable st'.

End Backend.

(** Integrity of a persisted state. *)
Record consistent (st : db) : Prop := {
  donation_donor :
    Forall (fun d => has_id dnr_id (don_donorId d) (donors st) = true) (donations st);
  donation_campaign :
    Forall (fun d => ref_ok cam_id (don_campaignId d) (campaigns st) = true) (donations st);
  expense_campaign :
    Forall (fun x => ref_ok cam_id (exp_campaignId x) (campaigns st) = true) (expenses st);
  donation_positive : Forall (fun d => SFltb zero (don_amount d) = true) (donations st);
  expense_positive : Forall (fun x => SFltb zero (exp_amount x) = true) (expenses st);
  campaign_named : Forall (fun c => cam_name c <> "") (campaigns st) }.

(** A handler keeps integrity when every store it returns is consistent
    whenever the store it started from was. *)
Definition preserves (h : handler) : Prop :=
  forall e req st, consistent st -> consistent (fst (h e req st)).


Fixpoint contains (c : ascii) (s : string) : bool :=
  match s with
  | EmptyString => false
  | String c' s' => Ascii.eqb c' c || contains c s'
  end.

(** What the backend relies on from the token library: a token decodes,
    under the secret it was signed with, to the claims it was made from, and
    its compact form is non-empty and free of spaces. *)
Definition jwt_lawful (rt : runtime) : Prop :=
  (forall c k, jwt_decode rt (jwt_encode rt c k) k = Some c) /\
  (forall c k, jwt_encode rt c k <> "" /\ contains " " (jwt_encode rt c k) = false).

(** ** A reference runtime

    An instance of [runtime] on which the statements below can be evaluated.
    Its token codec writes the two times in binary and the user name and the
    secret bit by bit, over an alphabet without spaces. *)

Fixpoint enc_pos (p : positive) : string :=
  match p with
  | xH => "h"
  | xO q => String "o" (enc_pos q)
  | xI q => String "i" (enc_pos q)
  end.

Fixpoint dec_pos (s : string) : option (positive * string) :=
  match s with
  | EmptyString => None
  | String c r =>
      if Ascii.eqb c "h" then Some (xH, r)
      else if Ascii.eqb c "o" then
        match dec_pos r with Some (q, r') => Some (xO q, r') | None => None end
      else if Ascii.eqb c "i" then
        match dec_pos r with Some (q, r') => Some (xI q, r') | None => None end
      else None
  end.

Definition enc_Z (z : Z) : string :=
  match z with
  | Z0 => "z"
  | Zpos p => String "p" (enc_pos p)
  | Zneg p => String "n" (enc_pos p)
  end.

Definition dec_Z (s : string) : option (Z * string) :=
  match s with
  | EmptyString => None
  | String c r =>
      if Ascii.eqb c "z" then Some (Z0, r)
      else if Ascii.eqb c "p" then
        match dec_pos r with Some (q, r') => Some (Zpos q, r') | None => None end
      else if Ascii.eqb c "n" then
        match dec_pos r with Some (q, r') => Some (Zneg q, r') | None => None end
      else None
  end.

Definition bit (b : bool) : ascii := if b then "1"%char else "0"%char.

Definition is_one (c : ascii) : bool := Ascii.eqb c "1".

Definition enc_char (c : ascii) (r : string) : string :=
  let '(Ascii b0 b1 b2 b3 b4 b5 b6 b7) := c in
  String "c" (String (bit b0) (String (bit b1) (String (bit b2) (String (bit b3)
    (String (bit b4) (String (bit b5) (String (bit b6) (String (bit b7) r)))))))).

Fixpoint enc_str (s : string) : string :=
  match s with
  | EmptyString => "e"
  | String c r => enc_char c (enc_str r)
  end.

Fixpoint dec_str (s : string) : option (string * string) :=
  match s with
  | EmptyString => None
  | String t r0 =>
      if Ascii.eqb t "e" then Some (EmptyString, r0)
      else if Ascii.eqb t "c" then
        match r0 with
        | String b0 (String b1 (String b2 (String b3
            (String b4 (String b5 (String b6 (String b7 r))))))) =>
            match dec_str r with
            | Some (u, r') =>
                Some (String (Ascii (is_one b0) (is_one b1) (is_one b2) (is_one b3)
                                    (is_one b4) (is_one b5) (is_one b6) (is_one b7)) u, r')
            | None => None
            end
        | _ => None
        end
      else None
  end.

Definition ref_encode (c : claims) (k : string) : string :=
  enc_Z (cl_iat c) ++ enc_Z (cl_exp c) ++ enc_str (cl_username c) ++ enc_str k.

Definition ref_decode (t k : string) : option claims :=
  match dec_Z t with
  | Some (iat, r1) =>
      match dec_Z r1 with
      | Some (exp, r2) =>
          match dec_str r2 with
          | Some (u, r3) =>
              match dec_str r3 with
              | Some (k', r4) =>
                  if String.eqb r4 "" && String.eqb k' k then
                    Some {| cl_username := u; cl_iat := iat; cl_exp := exp |}
                  else None
              | None => None
              end
          | None => None
          end
      | None => None
      end
  | None => None
  end.

Definition ref_runtime : runtime :=
  {| is_email := contains "@";
     process_env_JWT_SECRET := None;
     jwt_encode := ref_encode;
     jwt_decode := ref_decode;
     path_match := String.eqb |}.

(** ** A sample session on the reference runtime

    An administrator logs in at [demo_t0] and, with the issued token, creates
    a campaign, a donor, a donation and an expense through the standalone
    server's routes. *)

Definition demo_t0 : Z := 1705276800000.

Definition demo_token : string :=
  jwt_sign ref_runtime "admin" (JWT_SECRET ref_runtime) demo_t0.

Definition demo_request (m : method) (p : string) (b : json) : request :=
  {| req_method := m; req_path := p;
     req_headers := [("authorization", "Bearer " ++ demo_token)];
     req_body := b; req_user := None |}.

Definition anonymous_request (m : method) (p : string) (b : json) : request :=
  {| req_method := m; req_path := p; req_headers := []; req_body := b; req_user := None |}.

Definition demo_env (i : string) (seconds_later : Z) : env :=
  {| newid := i; now := demo_t0 + 1000 * seconds_later; scan := fun _ => [] |}.

Definition demo_campaign : json := JObj [("name", JStr "Winter relief")].

Definition demo_donor : json := JObj [("name", JStr "Asha")].

Definition demo_donation : json :=
  JObj [("amount", JNum (number_of_Z 250)); ("donorId", JStr "d1"); ("campaignId", JStr "c1")].

Definition demo_expense : json :=
  JObj [("description", JStr "Food"); ("amount", JNum (number_of_Z 500)); ("category", JStr "Food")].

Definition demo_db1 : db :=
  fst (dispatch ref_runtime (app ref_runtime) (demo_env "c1" 10)
         (demo_request POST "/api/campaigns" demo_campaign) empty_db).

Definition demo_db2 : db :=
  fst (dispatch ref_runtime (app ref_runtime) (demo_env "d1" 20)
         (demo_request POST "/api/donors" demo_donor) demo_db1).

Definition demo_db3 : db :=
  fst (dispatch ref_runtime (app ref_runtime) (demo_env "g1" 30)
         (demo_request POST "/api/donations" demo_donation) demo_db2).

Definition demo_db : db :=
  fst (dispatch ref_runtime (app ref_runtime) (demo_env "x1" 40)
         (demo_request POST "/api/expenses" demo_expense) demo_db3).

(** Further requests of the sample session. *)

Definition demo_credentials : json :=
  JObj [("username", JStr "admin"); ("accessKey", JStr "ray-hope-2024")].

Definition demo_empty_username : json :=
  JObj [("username", JStr ""); ("accessKey", JStr "ray-hope-2024")].

Definition demo_orphan_donation : json :=
  JObj [("amount", JNum (number_of_Z 10)); ("donorId", JStr "nobody")].

Definition demo_free_expense : json :=
  JObj [("description", JStr "Leaflets"); ("amount", JNum (number_of_Z 0)); ("category", JStr "Print")].

Definition demo_forged_request : request :=
  {| req_method := GET; req_path := "/api/expenses";
     req_headers := [("authorization", "Token forged")];
     req_body := JNull; req_user := None |}.

Definition demo_route : route :=
  {| r_method := POST; r_path := "/api/expenses";
     r_stack := [authenticateToken ref_runtime]; r_handler := post_api_expenses |}.

(** ** How a request can change the store

    A request adds a row when its body passes the schema of one of the five
    entities and the insert of the validated data succeeds. *)
Definition inserts (rt : runtime) (e : env) (req : request) (st st' : db) : Prop :=
  (exists data, expenseSchema_parse (req_body req) = Ok data /\
                expense_create e data st = Ok (st', expense_row e data)) \/
  (exists data, donationSchema_parse (req_body req) = Ok data /\
                donation_create e data st = Ok (st', donation_row e data)) \/
  (exists data, campaignSchema_parse (req_body req) = Ok data /\
                campaign_create e data st = Ok (st', campaign_row e data)) \/
  (exists data, donorSchema_parse rt (req_body req) = Ok data /\
                donor_create e data st = Ok (st', donor_row e data)) \/
  (exists data, beneficiarySchema_parse (req_body req) = Ok data /\
                beneficiary_create e data st = Ok (st', beneficiary_row e data)).

(** A handler either leaves the store as it was, answering something else
    than 201, or answers 201 and has added a row. *)
Definition outcome (rt : runtime) (h : handler) : Prop :=
  forall e req st,
    (fst (h e req st) = st /\ status (snd (h e req st)) <> 201) \/
    (status (snd (h e req st)) = 201 /\ inserts rt e req st (fst (h e req st))).

(** The primary keys of the migration: no identifier occurs twice in a table. *)
Record unique_ids (st : db) : Prop := {
  unique_campaigns : NoDup (map cam_id (campaigns st));
  unique_donors : NoDup (map dnr_id (donors st));
  unique_beneficiaries : NoDup (map ben_id (beneficiaries st));
  unique_donations : NoDup (map don_id (donations st));
  unique_expenses : NoDup (map exp_id (expenses st)) }.

(** What the schemas let into the tables. *)
Definition positive_if_present (t : option number) : Prop :=
  match t with
  | Some q => SFltb zero q = true
  | None => True
  end.

Record validated (rt : runtime) (st : db) : Prop := {
  valid_campaigns :
    Forall (fun c => cam_name c <> "" /\ positive_if_present (cam_targetAmount c))
           (campaigns st);
  valid_donors :
    Forall (fun d => dnr_name d <> "" /\
                     match dnr_email d with
                     | Some m => is_email rt m = true
                     | None => True
                     end) (donors st);
  valid_beneficiaries : Forall (fun b => ben_name b <> "") (beneficiaries st);
  valid_donations : Forall (fun d => SFltb zero (don_amount d) = true) (donations st);
  valid_expenses :
    Forall (fun x => exp_description x <> "" /\ exp_category x <> "" /\
                     SFltb zero (exp_amount x) = true) (expenses st) }.

(** Whether a nullable campaign reference is set. *)
Definition has_campaign (r : option string) : bool :=
  match r with Some _ => true | None => false end.

(** ** Validity of a field's value, as the field schemas decide it *)

Definition is_nonempty_string (v : option json) : bool :=
  match v with
  | Some (JStr s) => negb (String.eqb s "")
  | _ => false
  end.

Definition is_positive_number (v : option json) : bool :=
  match v with
  | Some (JNum x) => SFltb zero x
  | _ => false
  end.

Definition is_optional_string (v : option json) : bool :=
  match v with
  | None | Some (JStr _) => true
  | _ => false
  end.

(** The paths of the fields whose value is not valid, in the order given. *)
Definition invalid_paths (fields : list (string * bool)) : list (list string) :=
  flat_map (fun f : string * bool => if snd f then [] else [[fst f]]) fields.

(** ** The browser client (lib/api, App, AuthGate and the form handlers)

    The client talks to the standalone server: its base address ends in
    [/api], the prefix of that server's routes.  A call hands the request to
    the server, which is a parameter of the client's operations, and reads
    the answer.  Header names are written in lower case, as the server
    receives them; a body is the JSON value that JSON.stringify and the
    server's JSON parser carry across, in which a key whose value is
    [undefined] is left out; a request sent without body arrives with the
    empty object as its body. *)

Definition storage := list (string * string).

Definition getItem (k : string) (ls : storage) : option string := lookup k ls.

Definition removeItem (k : string) (ls : storage) : storage :=
  filter (fun kv => negb (String.eqb (fst kv) k)) ls.

Definition setItem (k v : string) (ls : storage) : storage :=
  (k, v) :: removeItem k ls.

(** A string where JavaScript may hold [null] or [undefined], written into
    a template literal or into the local storage. *)
Definition js_string (absent : string) (o : option string) : string :=
  match o with
  | Some s => s
  | None => absent
  end.

Record ApiClient := { this_token : option string }.

(** What the page holds besides its components: the client object and the
    local storage. *)
Record browser := { api : ApiClient; localStorage : storage }.

(** [constructor()] *)
Definition new_ApiClient (ls : storage) : ApiClient :=
  {| this_token := getItem "auth_token" ls |}.

(** [setToken(token)]; the argument is [undefined] when the answer has no token. *)
Definition setToken (t : option string) (b : browser) : browser :=
  {| api := {| this_token := t |};
     localStorage := setItem "auth_token" (js_string "undefined" t) (localStorage b) |}.

Definition clearToken (b : browser) : browser :=
  {| api := {| this_token := None |};
     localStorage := removeItem "auth_token" (localStorage b) |}.

(** What a call gives back: the parsed answer, or a thrown [Error]. *)
Inductive reply :=
| Returned (data : payload)
| Raised (message : string).

(** The headers of [request]: the content type and, when the token is
    truthy, the bearer token. *)
Definition request_headers (c : ApiClient) : list (string * string) :=
  ("content-type", "application/json") ::
  (if truthy_str (this_token c)
   then [("authorization", "Bearer " ++ js_string "" (this_token c))]
   else []).

(** [response.ok] *)
Definition response_ok (r : response) : bool :=
  (200 <=? status r) && (status r <=? 299).

(** [error.error || 'Request failed'], where [error] is the answer's JSON
    body, or [{ error: 'Network error' }] when the body is not JSON (the
    page the router sends when no route matches, a workbook). *)
Definition error_message (p : payload) : string :=
  match p with
  | PError error _ => if String.eqb error "" then "Request failed" else error
  | PNoRoute | PWorkbook _ => "Network error"
  | _ => "Request failed"
  end.

(** [request(endpoint, options)].  An answer in the 2xx range is returned as
    parsed by [response.json()]: every such answer of the routes the client
    reaches through [request] is JSON (the workbook is fetched by
    [exportExpenses], which does not go through [request]).  The reply holds
    the value the server handed to [res.json]; where that value has an
    infinite number, the client reads [null] ([JSON_stringify_number]). *)
Definition ApiClient_request (server : handler) (c : ApiClient) (endpoint : string)
    (m : method) (b : json) (e : env) (st : db) : db * reply :=
  let (st', response) :=
    server e {| req_method := m; req_path := "/api" ++ endpoint;
                req_headers := request_headers c; req_body := b; req_user := None |} st in
  if response_ok response then (st', Returned (body response))
  else (st', Raised (error_message (body response))).

(** [response.token] and [response.username] *)
Definition response_token (p : payload) : option string :=
  match p with PLogin token _ => Some token | _ => None end.

Definition response_username (p : payload) : option string :=
  match p with PLogin _ username => Some username | _ => None end.

Definition ApiClient_login (server : handler) (username accessKey : string) (e : env)
    (b : browser) (st : db) : db * browser * reply :=
  match ApiClient_request server (api b) "/auth/login" POST
          (JObj [("username", JStr username); ("accessKey", JStr accessKey)]) e st with
  | (st', Returned response) => (st', setToken (response_token response) b, Returned response)
  | (st', Raised message) => (st', b, Raised message)
  end.

Definition ApiClient_getDashboardStats (server : handler) (c : ApiClient) :=
  ApiClient_request server c "/dashboard/stats" GET (JObj []).

Definition ApiClient_getMonthlyAnalytics (server : handler) (c : ApiClient) :=
  ApiClient_request server c "/analytics/monthly" GET (JObj []).

Definition ApiClient_getExpenses (server : handler) (c : ApiClient) :=
  ApiClient_request server c "/expenses" GET (JObj []).

Definition ApiClient_createExpense (server : handler) (c : ApiClient) (data : json) :=
  ApiClient_request server c "/expenses" POST data.

Definition ApiClient_updateExpense (server : handler) (c : ApiClient) (id : string)
    (data : json) :=
  ApiClient_request server c ("/expenses/" ++ id) PUT data.

Definition ApiClient_deleteExpense (server : handler) (c : ApiClient) (id : string) :=
  ApiClient_request server c ("/expenses/" ++ id) DELETE (JObj []).

Definition ApiClient_getDonations (server : handler) (c : ApiClient) :=
  ApiClient_request server c "/donations" GET (JObj []).

Definition ApiClient_createDonation (server : handler) (c : ApiClient) (data : json) :=
  ApiClient_request server c "/donations" POST data.

Definition ApiClient_getCampaigns (server : handler) (c : ApiClient) :=
  ApiClient_request server c "/campaigns" GET (JObj []).

Definition ApiClient_createCampaign (server : handler) (c : ApiClient) (data : json) :=
  ApiClient_request server c "/campaigns" POST data.

Definition ApiClient_getDonors (server : handler) (c : ApiClient) :=
  ApiClient_request server c "/donors" GET (JObj []).

Definition ApiClient_createDonor (server : handler) (c : ApiClient) (data : json) :=
  ApiClient_request server c "/donors" POST data.

Definition ApiClient_getBeneficiaries (server : handler) (c : ApiClient) :=
  ApiClient_request server c "/beneficiaries" GET (JObj []).

Definition ApiClient_createBeneficiary (server : handler) (c : ApiClient) (data : json) :=
  ApiClient_request server c "/beneficiaries" POST data.

(** [exportExpenses()]: its own fetch, whose Authorization header is written
    from the token whether there is one or not. *)
Definition ApiClient_exportExpenses (server : handler) (c : ApiClient) (e : env)
    (st : db) : db * reply :=
  let (st', response) :=
    server e {| req_method := GET; req_path := "/api/export/expenses";
                req_headers :=
                  [("authorization", "Bearer " ++ js_string "null" (this_token c))];
                req_body := JObj []; req_user := None |} st in
  if response_ok response then (st', Returned (body response))
  else (st', Raised "Export failed").

(** The state of the App component; [username] is [undefined] when the
    login answer carried none. *)
Record App := { isAuthenticated : bool; app_username : option string }.

(** The effect run when App mounts. *)
Definition App_mount (ls : storage) : App :=
  if truthy_str (getItem "auth_token" ls) && truthy_str (getItem "username" ls)
  then {| isAuthenticated := true; app_username := getItem "username" ls |}
  else {| isAuthenticated := false; app_username := Some "" |}.

Definition handleAuthenticated (user : option string) (b : browser) : App * browser :=
  ({| isAuthenticated := true; app_username := user |},
   {| api := api b;
      localStorage := setItem "username" (js_string "undefined" user) (localStorage b) |}).

Definition handleLogout (b : browser) : App * browser :=
  ({| isAuthenticated := false; app_username := Some "" |},
   clearToken {| api := api b;
                 localStorage := removeItem "username" (localStorage b) |}).

(** [handleSubmit] of AuthGate: the App state, the browser and the error
    text shown after a login attempt. *)
Definition AuthGate_handleSubmit (server : handler) (username accessKey : string)
    (e : env) (a : App) (b : browser) (st : db) : db * App * browser * string :=
  match ApiClient_login server username accessKey e b st with
  | (st', b', Returned response) =>
      let (a', b'') := handleAuthenticated (response_username response) b' in
      (st', a', b'', "")
  | (st', b', Raised message) => (st', a, b', message)
  end.

(** [value || undefined] as the value of a key of a body. *)
Definition optional_field (k value : string) : list (string * json) :=
  if String.eqb value "" then [] else [(k, JStr value)].

(** The body BeneficiaryManager's [handleSubmit] sends. *)
Definition beneficiary_form_data (name description contactInfo : string) : json :=
  JObj ([("name", JStr name)] ++ optional_field "description" description
        ++ optional_field "contactInfo" contactInfo).

(** The body DonorManager's [handleAddDonorSubmit] sends. *)
Definition donor_form_data (name email phone address : string) : json :=
  JObj ([("name", JStr name)] ++ optional_field "email" email
        ++ optional_field "phone" phone ++ optional_field "address" address).

(** The router matches a path as the literal it is. *)
Definition routes_literally (rt : runtime) (q : string) : Prop :=
  forall r, In r (app rt) -> path_match rt (r_path r) q = String.eqb (r_path r) q.

(** What a form field becomes in the stored record: NULL when left empty. *)
Definition filled (value : string) : option string :=
  if String.eqb value "" then None else Some value.

(** More of the sample session: a second user, and requests that differ
    from the ones above in what the properties below turn on. *)

Definition demo_staff_request (m : method) (p : string) (b : json) : request :=
  {| req_method := m; req_path := p;
     req_headers :=
       [("authorization",
         "Token " ++ jwt_sign ref_runtime "staff" (JWT_SECRET ref_runtime) demo_t0)];
     req_body := b; req_user := None |}.

Definition demo_bare_token_request : request :=
  {| req_method := GET; req_path := "/api/expenses";
     req_headers := [("authorization", demo_token)];
     req_body := JNull; req_user := None |}.

Definition demo_outsider : claims :=
  {| cl_username := "mallory"; cl_iat := 0; cl_exp := 4102444800 |}.

Definition demo_outsider_request : request :=
  {| req_method := GET; req_path := "/api/expenses";
     req_headers :=
       [("authorization",
         "Bearer " ++ jwt_encode ref_runtime demo_outsider "ray-of-hope-secret-key")];
     req_body := JNull; req_user := None |}.

Definition demo_expense_with_id : json :=
  JObj [("id", JStr "chosen"); ("description", JStr "Food"); ("amount", JNum (number_of_Z 500));
        ("category", JStr "Food"); ("createdAt", JStr "1999-01-01")].

Definition demo_browser : browser :=
  {| api := {| this_token := None |}; localStorage := [("theme", "dark")] |}.

Definition demo_app : App := {| isAuthenticated := false; app_username := Some "" |}.

(** ** Totals and dates: the vocabulary of the statements

    The sum of a list of doubles as IEEE 754 defines it, taken from left to
    right and rounded to the nearest double after every addition (0 over no
    summand); what [x || 0] makes of such a sum; and the rational a finite
    double stands for. *)

Definition binary64_sum (l : list number) : number :=
  match l with
  | [] => S754_zero false
  | x :: l' => fold_left (SFadd 53 1024) l' x
  end.

Definition sum_or_0 (l : list number) : number :=
  match binary64_sum l with
  | S754_zero _ | S754_nan => S754_zero false
  | s => s
  end.

Definition exact_value (x : number) : option Q :=
  match x with
  | S754_zero _ => Some (0#1)
  | S754_finite s m e =>
      let v := match e with
               | Z0 => Zpos m # 1
               | Zpos p => (Zpos m * 2 ^ e) # 1
               | Zneg p => Zpos m # (2 ^ p)
               end in
      Some (if s then Qopp v else v)
  | S754_infinity _ | S754_nan => None
  end.

(** The sum of the rationals a list of finite doubles stands for, and whether
    a total stands for that sum (which is asked of finite numbers only). *)
Fixpoint exact_sum (l : list number) : option Q :=
  match l with
  | [] => Some (0#1)
  | x :: l' =>
      match exact_value x, exact_sum l' with
      | Some a, Some b => Some (a + b)%Q
      | _, _ => None
      end
  end.

Definition sums_exactly (total : number) (amounts : list number) : bool :=
  match exact_value total, exact_sum amounts with
  | Some t, Some s => Qeq_bool t s
  | _, _ => true
  end.

(** Neither a negative number nor minus infinity. *)
Definition not_negative (x : number) : Prop :=
  match x with
  | S754_finite true _ _ | S754_infinity true => False
  | _ => True
  end.

(** The proleptic Gregorian calendar: leap years, lengths of months, and the
    number of days from 1 January 1970 to a date, counted year by year and
    month by month. *)

Definition is_leap (y : Z) : bool :=
  (y mod 4 =? 0) && (negb (y mod 100 =? 0) || (y mod 400 =? 0)).

Definition days_in_month (y m : Z) : Z :=
  if m =? 2 then (if is_leap y then 29 else 28)
  else if (m =? 4) || (m =? 6) || (m =? 9) || (m =? 11) then 30
  else 31.

Definition days_before_month (y m : Z) : Z :=
  fold_right Z.add 0
    (map (days_in_month y)
         (filter (fun k => k <? m) [1; 2; 3; 4; 5; 6; 7; 8; 9; 10; 11; 12])).

(** The leap years among the years 1 to [y - 1] (and, for [y < 1], minus
    those from [y] to 0). *)
Definition leap_years_before (y : Z) : Z :=
  (y - 1) / 4 - (y - 1) / 100 + (y - 1) / 400.

Definition days_before_year (y : Z) : Z :=
  365 * (y - 1970) + (leap_years_before y - leap_years_before 1970).

Definition days_from_civil (y m d : Z) : Z :=
  days_before_year y + days_before_month y m + (d - 1).

Definition valid_date (y m d : Z) : Prop :=
  1 <= m <= 12 /\ 1 <= d <= days_in_month y m.

(** The year, month and day written in a text [YYYY-MM-DD], or
    [+YYYYYY-MM-DD] and [-YYYYYY-MM-DD] for a year outside 0..9999. *)

Definition digit_value (c : ascii) : option Z :=
  let n := Z.of_N (N_of_ascii c) in
  if (48 <=? n) && (n <=? 57) then Some (n - 48) else None.

Fixpoint read_digits (n : nat) (acc : Z) (s : string) : option (Z * string) :=
  match n with
  | O => Some (acc, s)
  | S n' =>
      match s with
      | String c r =>
          match digit_value c with
          | Some v => read_digits n' (10 * acc + v) r
          | None => None
          end
      | EmptyString => None
      end
  end.

Definition expect (c : ascii) (s : string) : option string :=
  match s with
  | String c' r => if Ascii.eqb c' c then Some r else None
  | EmptyString => None
  end.

Definition read_year (s : string) : option (Z * string) :=
  match s with
  | String c r =>
      if Ascii.eqb c "+" then read_digits 6 0 r
      else if Ascii.eqb c "-" then
        match read_digits 6 0 r with
        | Some (y, r') => Some (- y, r')
        | None => None
        end
      else read_digits 4 0 s
  | EmptyString => None
  end.

Definition read_date (s : string) : option (Z * Z * Z) :=
  match read_year s with
  | Some (y, r1) =>
      match expect "-" r1 with
      | Some r2 =>
          match read_digits 2 0 r2 with
          | Some (m, r3) =>
              match expect "-" r3 with
              | Some r4 =>
                  match read_digits 2 0 r4 with
                  | Some (d, r5) => if String.eqb r5 "" then Some (y, m, d) else None
                  | None => None
                  end
              | None => None
              end
          | None => None
          end
      | None => None
      end
  | None => None
  end.

(** Devices of the proof that [civil_from_days] computes the calendar: the
    year within a 400-year era, the first day of a year that starts on
    1 March, the days from 1 March to the first of a month, and a check of
    a predicate on an interval. *)

Definition year_of_era (doe : Z) : Z :=
  (doe - doe / 1460 + doe / 36524 - doe / 146096) / 365.

Definition year_start (y : Z) : Z := 365 * y + y / 4 - y / 100 + y / 400.

Definition march_offset (m : Z) : Z :=
  if m =? 3 then 0 else if m =? 4 then 31 else if m =? 5 then 61
  else if m =? 6 then 92 else if m =? 7 then 122 else if m =? 8 then 153
  else if m =? 9 then 184 else if m =? 10 then 214 else if m =? 11 then 245
  else if m =? 12 then 275 else if m =? 1 then 306 else 337.

Definition month_day (doy : Z) : Z * Z :=
  let mp := (5 * doy + 2) / 153 in
  (if mp <? 10 then mp + 3 else mp - 9, doy - (153 * mp + 2) / 5 + 1).

Fixpoint all_from (n : nat) (f : Z -> bool) (z : Z) : bool :=
  match n with
  | O => true
  | S n' => f z && all_from n' f (z + 1)
  end.

Definition year_bounds (y : Z) : bool :=
  (year_of_era (year_start y) =? y) && (year_of_era (year_start (y + 1) - 1) =? y).

Definition month_day_ok (doy : Z) : bool :=
  let '(m, d) := month_day doy in
  (1 <=? m) && (m <=? 12) && (1 <=? d) && (doy =? march_offset m + d - 1)
  && (if m =? 2 then d <=? 29 else d <=? days_in_month 1 m).

(** ** A second sample session: small change and large sums

    A donor gives 0.1 and then 0.2; in another run of the session the donor
    gives 1e308 twice. *)

Definition demo_gift (amount : number) : json :=
  JObj [("amount", JNum amount); ("donorId", JStr "d1")].

Definition demo_cents_db1 : db :=
  fst (dispatch ref_runtime (app ref_runtime) (demo_env "d1" 10)
         (demo_request POST "/api/donors" demo_donor) empty_db).

Definition demo_cents_db2 : db :=
  fst (dispatch ref_runtime (app ref_runtime) (demo_env "g1" 20)
         (demo_request POST "/api/donations" (demo_gift (decimal 1 1))) demo_cents_db1).

Definition demo_cents_db : db :=
  fst (dispatch ref_runtime (app ref_runtime) (demo_env "g2" 30)
         (demo_request POST "/api/donations" (demo_gift (decimal 2 1))) demo_cents_db2).

Definition demo_huge_db1 : db :=
  fst (dispatch ref_runtime (app ref_runtime) (demo_env "g1" 20)
         (demo_request POST "/api/donations" (demo_gift (number_of_Z (10 ^ 308))))
         demo_cents_db1).

Definition demo_huge_db : db :=
  fst (dispatch ref_runtime (app ref_runtime) (demo_env "g2" 30)
         (demo_request POST "/api/donations" (demo_gift (number_of_Z (10 ^ 308))))
         demo_huge_db1).

(** * Properties *)

(** ** Strings and lists *)

Lemma split_not_nil (sep : ascii) (s : string) : split sep s <> [].
Proof.
  destruct s as [|c s]; simpl; [discriminate|].
  destruct (Ascii.eqb c sep); [discriminate|].
  destruct (split sep s); discriminate.
Qed.

Lemma split_no_sep (sep : ascii) (s : string) :
  contains sep s = false -> split sep s = [s].
Proof.
  induction s as [|c s IH]; simpl; intros H; [reflexivity|].
  apply orb_false_iff in H. destruct H as [Hc Hs].
  rewrite Hc, (IH Hs). reflexivity.
Qed.

Lemma split_app_sep (sep : ascii) (a b : string) :
  contains sep a = false ->
  split sep (a ++ String sep b) = a :: split sep b.
Proof.
  induction a as [|c a IH]; simpl; intros H.
  - rewrite Ascii.eqb_refl. reflexivity.
  - apply orb_false_iff in H. destruct H as [Hc Ha].
    rewrite Hc, (IH Ha). reflexivity.
Qed.

Lemma contains_app (c : ascii) (a b : string) :
  contains c (a ++ b) = contains c a || contains c b.
Proof.
  induction a as [|x a IH]; simpl; [reflexivity|].
  rewrite IH. apply orb_assoc.
Qed.

Lemma has_id_true (A : Type) (id_of : A -> string) (i : string) (l : list A) :
  has_id id_of i l = true <-> exists r, In r l /\ id_of r = i.
Proof.
  unfold has_id. rewrite existsb_exists. split.
  - intros [r [Hin Heq]]. exists r. split; [assumption|]. now apply String.eqb_eq.
  - intros [r [Hin Heq]]. exists r. split; [assumption|]. now apply String.eqb_eq.
Qed.

Lemma has_id_find (A : Type) (id_of : A -> string) (i : string) (l : list A) :
  has_id id_of i l = true -> exists r, find_id id_of i l = Some r /\ In r l /\ id_of r = i.
Proof.
  unfold has_id, find_id. induction l as [|x l IH]; simpl; [discriminate|].
  destruct (String.eqb (id_of x) i) eqn:E.
  - intros _. exists x. split; [reflexivity|]. split; [now left|]. now apply String.eqb_eq.
  - simpl. intros H. destruct (IH H) as [r [Hf [Hin Hid]]].
    exists r. split; [assumption|]. split; [now right|assumption].
Qed.

Lemma has_id_app (A : Type) (id_of : A -> string) (i : string) (l l' : list A) :
  has_id id_of i (l ++ l') = has_id id_of i l || has_id id_of i l'.
Proof. unfold has_id. apply existsb_app. Qed.

(** ** Ordering by creation time *)

Lemma insert_desc_perm (A : Type) (key : A -> Z) (x : A) (l : list A) :
  Permutation (insert_desc key x l) (x :: l).
Proof.
  induction l as [|y l IH]; simpl; [reflexivity|].
  destruct (key y <=? key x); [reflexivity|].
  rewrite IH. apply perm_swap.
Qed.

Lemma orderBy_desc_perm (A : Type) (key : A -> Z) (l : list A) :
  Permutation (orderBy_desc key l) l.
Proof.
  induction l as [|x l IH]; simpl; [reflexivity|].
  rewrite insert_desc_perm. now constructor.
Qed.

Lemma insert_desc_sorted (A : Type) (key : A -> Z) (x : A) (l : list A) :
  StronglySorted (desc key) l -> StronglySorted (desc key) (insert_desc key x l).
Proof.
  induction l as [|y l IH]; simpl; intros H.
  - constructor; constructor.
  - inversion H as [|? ? Hl Hy]; subst.
    destruct (key y <=? key x) eqn:E.
    + apply Z.leb_le in E. constructor; [assumption|].
      constructor; [exact E|].
      eapply Forall_impl; [|exact Hy]. unfold desc. intros a Ha. lia.
    + apply Z.leb_gt in E. constructor; [now apply IH|].
      eapply Permutation_Forall; [symmetry; apply insert_desc_perm|].
      constructor; [unfold desc; lia|assumption].
Qed.

Lemma orderBy_desc_sorted (A : Type) (key : A -> Z) (l : list A) :
  StronglySorted (desc key) (orderBy_desc key l).
Proof.
  induction l as [|x l IH]; simpl; [constructor|].
  now apply insert_desc_sorted.
Qed.

Lemma sorted_map (A B : Type) (key : B -> Z) (f : A -> B) (l : list A) :
  StronglySorted (desc (fun a => key (f a))) l -> StronglySorted (desc key) (map f l).
Proof.
  induction 1 as [|a l Hl IH Ha]; simpl; constructor; [assumption|].
  apply Forall_map. exact Ha.
Qed.



(** ** What a schema guarantees of the record it returns *)

(** [0 < x] holds of the numbers that are not NaN and not [<= 0]. *)
Lemma number_positive_iff (x : number) :
  SFltb zero x = true <-> isNaN x = false /\ SFleb x zero = false.
Proof.
  destruct x as [s|s| |s m e]; try destruct s; cbv; intuition discriminate.
Qed.

(** A positive number is a positive finite number or plus infinity. *)
Lemma number_positive_cases (x : number) :
  SFltb zero x = true ->
  (exists m e, x = S754_finite false m e) \/ x = S754_infinity false.
Proof.
  destruct x as [s|s| |s m e]; try destruct s; cbv; try discriminate; eauto.
Qed.

Lemma z_number_positive_inl (k : string) (v : option json) (q : number) :
  z_number_positive k v = inl q -> v = Some (JNum q) /\ SFltb zero q = true.
Proof.
  unfold z_number_positive. destruct v as [[| |q'| | |]|]; try discriminate.
  destruct (isNaN q') eqn:En; [discriminate|].
  destruct (SFleb q' zero) eqn:E; [discriminate|].
  intros H. injection H as <-. split; [reflexivity|].
  now apply number_positive_iff.
Qed.

Lemma z_number_nonpositive (k : string) (q : number) :
  SFleb q zero = true -> z_number_positive k (Some (JNum q)) = inr [mk_issue too_small k].
Proof.
  intros H. unfold z_number_positive. rewrite H.
  destruct q; try reflexivity. discriminate H.
Qed.

Lemma z_string_inl (k : string) (v : option json) (s : string) :
  z_string k v = inl s -> v = Some (JStr s).
Proof.
  unfold z_string. destruct v as [[| | |s'| |]|]; try discriminate.
  intros H. now injection H as <-.
Qed.

Lemma z_string_min1_inl (k : string) (v : option json) (s : string) :
  z_string_min1 k v = inl s -> v = Some (JStr s) /\ s <> "".
Proof.
  unfold z_string_min1. destruct (z_string k v) as [s'|l] eqn:E; [|discriminate].
  destruct (String.eqb s' "") eqn:E'; [discriminate|].
  intros H. injection H as <-. split; [now apply z_string_inl in E|].
  now apply String.eqb_neq.
Qed.

Lemma z_optional_inl (A : Type) (f : string -> option json -> parsed A)
    (k : string) (v : option json) (o : option A) :
  z_optional f k v = inl o ->
  (v = None /\ o = None) \/ (exists a, o = Some a /\ f k v = inl a).
Proof.
  unfold z_optional. destruct v as [j|].
  - destruct (f k (Some j)) as [a|l]; [|discriminate].
    intros H. injection H as <-. right. now exists a.
  - intros H. injection H as <-. now left.
Qed.

Ltac parse_cases H :=
  repeat match type of H with
         | context [match ?x with inl _ => _ | inr _ => _ end] =>
             let E := fresh "E" in destruct x eqn:E; try discriminate H
         end.

Lemma expenseSchema_parse_ok (body : json) (data : ExpenseInput) :
  expenseSchema_parse body = Ok data ->
  exists fs, body = JObj fs /\
    lookup "description" fs = Some (JStr (ei_description data)) /\
    ei_description data <> "" /\
    lookup "amount" fs = Some (JNum (ei_amount data)) /\ SFltb zero (ei_amount data) = true /\
    lookup "category" fs = Some (JStr (ei_category data)) /\ ei_category data <> "" /\
    match ei_campaignId data with
    | Some c => lookup "campaignId" fs = Some (JStr c)
    | None => lookup "campaignId" fs = None
    end.
Proof.
  unfold expenseSchema_parse. destruct body as [| | | | |fs]; try discriminate.
  intros H. parse_cases H. injection H as <-. simpl.
  exists fs. split; [reflexivity|].
  apply z_string_min1_inl in E. apply z_number_positive_inl in E0.
  apply z_string_min1_inl in E1. apply z_optional_inl in E2.
  destruct E as [-> ?], E0 as [-> ?], E1 as [-> ?].
  repeat (split; [first [reflexivity | assumption]|]).
  destruct E2 as [[-> ->]|[a [-> Ha]]]; [reflexivity|]. now apply z_string_inl in Ha.
Qed.

Lemma donationSchema_parse_ok (body : json) (data : DonationInput) :
  donationSchema_parse body = Ok data ->
  exists fs, body = JObj fs /\
    lookup "amount" fs = Some (JNum (di_amount data)) /\ SFltb zero (di_amount data) = true /\
    lookup "donorId" fs = Some (JStr (di_donorId data)) /\
    match di_campaignId data with
    | Some c => lookup "campaignId" fs = Some (JStr c)
    | None => lookup "campaignId" fs = None
    end.
Proof.
  unfold donationSchema_parse. destruct body as [| | | | |fs]; try discriminate.
  intros H. parse_cases H. injection H as <-. simpl.
  exists fs. split; [reflexivity|].
  apply z_number_positive_inl in E. apply z_string_inl in E0. apply z_optional_inl in E1.
  destruct E as [-> ?]. rewrite E0.
  repeat (split; [first [reflexivity | assumption]|]).
  destruct E1 as [[-> ->]|[a [-> Ha]]]; [reflexivity|]. now apply z_string_inl in Ha.
Qed.

Lemma z_status_default_inl (k : string) (v : option json) (s : CampaignStatus) :
  z_status_default k v = inl s ->
  (v = None /\ s = ACTIVE) \/
  (v = Some (JStr "ACTIVE") /\ s = ACTIVE) \/
  (v = Some (JStr "COMPLETED") /\ s = COMPLETED) \/
  (v = Some (JStr "PAUSED") /\ s = PAUSED).
Proof.
  unfold z_status_default. destruct v as [[| | |x| |]|]; try discriminate.
  - destruct (String.eqb x "ACTIVE") eqn:E1.
    { apply String.eqb_eq in E1. subst. intros H. injection H as <-. auto. }
    destruct (String.eqb x "COMPLETED") eqn:E2.
    { apply String.eqb_eq in E2. subst. intros H. injection H as <-. auto. }
    destruct (String.eqb x "PAUSED") eqn:E3; [|discriminate].
    apply String.eqb_eq in E3. subst. intros H. injection H as <-. auto 6.
  - intros H. injection H as <-. auto.
Qed.

Lemma campaignSchema_parse_ok (body : json) (data : CampaignInput) :
  campaignSchema_parse body = Ok data ->
  exists fs, body = JObj fs /\
    lookup "name" fs = Some (JStr (ci_name data)) /\ ci_name data <> "" /\
    match ci_description data with
    | Some d => lookup "description" fs = Some (JStr d)
    | None => lookup "description" fs = None
    end /\
    match ci_targetAmount data with
    | Some t => lookup "targetAmount" fs = Some (JNum t) /\ SFltb zero t = true
    | None => lookup "targetAmount" fs = None
    end /\
    z_status_default "status" (lookup "status" fs) = inl (ci_status data).
Proof.
  unfold campaignSchema_parse. destruct body as [| | | | |fs]; try discriminate.
  intros H. parse_cases H. injection H as <-. simpl.
  exists fs. split; [reflexivity|].
  apply z_string_min1_inl in E. apply z_optional_inl in E0. apply z_optional_inl in E1.
  destruct E as [-> ?].
  repeat (split; [first [reflexivity | assumption]|]).
  split; [|split; [|assumption]].
  - destruct E0 as [[-> ->]|[a [-> Ha]]]; [reflexivity|]. now apply z_string_inl in Ha.
  - destruct E1 as [[-> ->]|[a [-> Ha]]]; [reflexivity|].
    now apply z_number_positive_inl in Ha.
Qed.

Lemma beneficiarySchema_parse_ok (body : json) (data : BeneficiaryInput) :
  beneficiarySchema_parse body = Ok data ->
  exists fs, body = JObj fs /\
    lookup "name" fs = Some (JStr (bi_name data)) /\ bi_name data <> "" /\
    match bi_description data with
    | Some d => lookup "description" fs = Some (JStr d)
    | None => lookup "description" fs = None
    end /\
    match bi_contactInfo data with
    | Some d => lookup "contactInfo" fs = Some (JStr d)
    | None => lookup "contactInfo" fs = None
    end.
Proof.
  unfold beneficiarySchema_parse. destruct body as [| | | | |fs]; try discriminate.
  intros H. parse_cases H. injection H as <-. simpl.
  exists fs. split; [reflexivity|].
  apply z_string_min1_inl in E. apply z_optional_inl in E0. apply z_optional_inl in E1.
  destruct E as [-> ?].
  repeat (split; [first [reflexivity | assumption]|]).
  split.
  - destruct E0 as [[-> ->]|[a [-> Ha]]]; [reflexivity|]. now apply z_string_inl in Ha.
  - destruct E1 as [[-> ->]|[a [-> Ha]]]; [reflexivity|]. now apply z_string_inl in Ha.
Qed.

Lemma z_string_email_inl (rt : runtime) (k : string) (v : option json) (s : string) :
  z_string_email rt k v = inl s -> v = Some (JStr s) /\ is_email rt s = true.
Proof.
  unfold z_string_email. destruct (z_string k v) as [s'|l] eqn:E; [|discriminate].
  destruct (is_email rt s') eqn:E'; [|discriminate].
  intros H. injection H as <-. split; [now apply z_string_inl in E|assumption].
Qed.

Lemma donorSchema_parse_ok (rt : runtime) (body : json) (data : DonorInput) :
  donorSchema_parse rt body = Ok data ->
  exists fs, body = JObj fs /\
    lookup "name" fs = Some (JStr (ni_name data)) /\ ni_name data <> "" /\
    match ni_email data with
    | Some m => lookup "email" fs = Some (JStr m) /\ is_email rt m = true
    | None => lookup "email" fs = None
    end /\
    match ni_phone data with
    | Some d => lookup "phone" fs = Some (JStr d)
    | None => lookup "phone" fs = None
    end /\
    match ni_address data with
    | Some d => lookup "address" fs = Some (JStr d)
    | None => lookup "address" fs = None
    end.
Proof.
  unfold donorSchema_parse. destruct body as [| | | | |fs]; try discriminate.
  intros H. parse_cases H. injection H as <-. simpl.
  exists fs. split; [reflexivity|].
  apply z_string_min1_inl in E. apply z_optional_inl in E0.
  apply z_optional_inl in E1. apply z_optional_inl in E2.
  destruct E as [-> ?].
  repeat (split; [first [reflexivity | assumption]|]).
  split; [|split].
  - destruct E0 as [[-> ->]|[a [-> Ha]]]; [reflexivity|].
    now apply z_string_email_inl in Ha.
  - destruct E1 as [[-> ->]|[a [-> Ha]]]; [reflexivity|]. now apply z_string_inl in Ha.
  - destruct E2 as [[-> ->]|[a [-> Ha]]]; [reflexivity|]. now apply z_string_inl in Ha.
Qed.

(** ** Inserts: when they succeed and what they store *)

Lemma expense_create_spec (e : env) (data : ExpenseInput) (st : db) :
  (has_id exp_id (newid e) (expenses st) = false /\
   ref_ok cam_id (ei_campaignId data) (campaigns st) = true /\
   expense_create e data st =
     Ok ({| campaigns := campaigns st; donors := donors st;
            beneficiaries := beneficiaries st; donations := donations st;
            expenses := expenses st ++ [expense_row e data] |}, expense_row e data))
  \/ (exists c, expense_create e data st = Throw (PrismaError c)).
Proof.
  unfold expense_create.
  destruct (has_id exp_id (newid e) (expenses st)); [right; eauto|].
  destruct (ref_ok cam_id (ei_campaignId data) (campaigns st)); simpl; [|right; eauto].
  left. auto.
Qed.

Lemma donation_create_spec (e : env) (data : DonationInput) (st : db) :
  (has_id don_id (newid e) (donations st) = false /\
   has_id dnr_id (di_donorId data) (donors st) = true /\
   ref_ok cam_id (di_campaignId data) (campaigns st) = true /\
   donation_create e data st =
     Ok ({| campaigns := campaigns st; donors := donors st;
            beneficiaries := beneficiaries st;
            donations := donations st ++ [donation_row e data];
            expenses := expenses st |}, donation_row e data))
  \/ (exists c, donation_create e data st = Throw (PrismaError c)).
Proof.
  unfold donation_create.
  destruct (has_id don_id (newid e) (donations st)); [right; eauto|].
  destruct (has_id dnr_id (di_donorId data) (donors st)); simpl; [|right; eauto].
  destruct (ref_ok cam_id (di_campaignId data) (campaigns st)); simpl; [|right; eauto].
  left. auto.
Qed.

Lemma campaign_create_spec (e : env) (data : CampaignInput) (st : db) :
  (has_id cam_id (newid e) (campaigns st) = false /\
   campaign_create e data st =
     Ok ({| campaigns := campaigns st ++ [campaign_row e data]; donors := donors st;
            beneficiaries := beneficiaries st; donations := donations st;
            expenses := expenses st |}, campaign_row e data))
  \/ (exists c, campaign_create e data st = Throw (PrismaError c)).
Proof.
  unfold campaign_create.
  destruct (has_id cam_id (newid e) (campaigns st)); [right; eauto|]. left. auto.
Qed.

Lemma donor_create_spec (e : env) (data : DonorInput) (st : db) :
  (has_id dnr_id (newid e) (donors st) = false /\
   donor_create e data st =
     Ok ({| campaigns := campaigns st; donors := donors st ++ [donor_row e data];
            beneficiaries := beneficiaries st; donations := donations st;
            expenses := expenses st |}, donor_row e data))
  \/ (exists c, donor_create e data st = Throw (PrismaError c)).
Proof.
  unfold donor_create.
  destruct (has_id dnr_id (newid e) (donors st)); [right; eauto|]. left. auto.
Qed.

Lemma beneficiary_create_spec (e : env) (data : BeneficiaryInput) (st : db) :
  (has_id ben_id (newid e) (beneficiaries st) = false /\
   beneficiary_create e data st =
     Ok ({| campaigns := campaigns st; donors := donors st;
            beneficiaries := beneficiaries st ++ [beneficiary_row e data];
            donations := donations st; expenses := expenses st |},
         beneficiary_row e data))
  \/ (exists c, beneficiary_create e data st = Throw (PrismaError c)).
Proof.
  unfold beneficiary_create.
  destruct (has_id ben_id (newid e) (beneficiaries st)); [right; eauto|]. left. auto.
Qed.

(** ** Integrity is kept by every change of the store *)

Lemma consistent_empty : consistent empty_db.
Proof. constructor; simpl; constructor. Qed.

Lemma ref_ok_app (A : Type) (id_of : A -> string) (r : option string) (l l' : list A) :
  ref_ok id_of r l = true -> ref_ok id_of r (l ++ l') = true.
Proof.
  destruct r as [i|]; simpl; [|reflexivity].
  rewrite has_id_app. intros ->. reflexivity.
Qed.

Lemma has_id_filter_ne (A : Type) (id_of : A -> string) (i j : string) (l : list A) :
  j <> i ->
  has_id id_of j (filter (fun r => negb (String.eqb (id_of r) i)) l) = has_id id_of j l.
Proof.
  intros Hne. unfold has_id. induction l as [|x l IH]; simpl; [reflexivity|].
  destruct (String.eqb (id_of x) i) eqn:E; simpl.
  - rewrite IH. apply String.eqb_eq in E.
    destruct (String.eqb (id_of x) j) eqn:E'; [|reflexivity].
    apply String.eqb_eq in E'. congruence.
  - now rewrite IH.
Qed.

Lemma refers_false_ne (r : option string) (i : string) :
  refers r i = false -> forall j, r = Some j -> j <> i.
Proof.
  intros H j ->. simpl in H. now apply String.eqb_neq.
Qed.

Lemma ref_ok_filter (A : Type) (id_of : A -> string) (r : option string) (i : string)
    (l : list A) :
  refers r i = false -> ref_ok id_of r l = true ->
  ref_ok id_of r (filter (fun x => negb (String.eqb (id_of x) i)) l) = true.
Proof.
  destruct r as [j|]; simpl; [|reflexivity].
  intros H Hok. rewrite has_id_filter_ne; [assumption|]. now apply String.eqb_neq.
Qed.

Lemma expense_create_consistent (e : env) (data : ExpenseInput) (st st' : db) (x : Expense) :
  SFltb zero (ei_amount data) = true ->
  expense_create e data st = Ok (st', x) -> consistent st -> consistent st'.
Proof.
  intros Hpos H [H1 H2 H3 H4 H5 H6].
  destruct (expense_create_spec e data st) as [[_ [Hok Heq]]|[c Heq]];
    rewrite Heq in H; [|discriminate].
  injection H as <- <-. constructor; simpl; try assumption.
  - apply Forall_app. split; [assumption|]. now repeat constructor.
  - apply Forall_app. split; [assumption|]. now repeat constructor.
Qed.

Lemma donation_create_consistent (e : env) (data : DonationInput) (st st' : db)
    (d : Donation) :
  SFltb zero (di_amount data) = true ->
  donation_create e data st = Ok (st', d) -> consistent st -> consistent st'.
Proof.
  intros Hpos H [H1 H2 H3 H4 H5 H6].
  destruct (donation_create_spec e data st) as [[_ [Hd [Hok Heq]]]|[c Heq]];
    rewrite Heq in H; [|discriminate].
  injection H as <- <-. constructor; simpl; try assumption.
  - apply Forall_app. split; [assumption|]. now repeat constructor.
  - apply Forall_app. split; [assumption|]. now repeat constructor.
  - apply Forall_app. split; [assumption|]. now repeat constructor.
Qed.

Lemma campaign_create_consistent (e : env) (data : CampaignInput) (st st' : db)
    (c : Campaign) :
  ci_name data <> "" ->
  campaign_create e data st = Ok (st', c) -> consistent st -> consistent st'.
Proof.
  intros Hname H [H1 H2 H3 H4 H5 H6].
  destruct (campaign_create_spec e data st) as [[_ Heq]|[c' Heq]];
    rewrite Heq in H; [|discriminate].
  injection H as <- <-. constructor; simpl; try assumption.
  - eapply Forall_impl; [|exact H2]. intros a. apply ref_ok_app.
  - eapply Forall_impl; [|exact H3]. intros a. apply ref_ok_app.
  - apply Forall_app. split; [assumption|]. now repeat constructor.
Qed.

Lemma donor_create_consistent (e : env) (data : DonorInput) (st st' : db) (d : Donor) :
  donor_create e data st = Ok (st', d) -> consistent st -> consistent st'.
Proof.
  intros H [H1 H2 H3 H4 H5 H6].
  destruct (donor_create_spec e data st) as [[_ Heq]|[c' Heq]];
    rewrite Heq in H; [|discriminate].
  injection H as <- <-. constructor; simpl; try assumption.
  eapply Forall_impl; [|exact H1]. intros a Ha. rewrite has_id_app, Ha. reflexivity.
Qed.

Lemma beneficiary_create_consistent (e : env) (data : BeneficiaryInput) (st st' : db)
    (b : Beneficiary) :
  beneficiary_create e data st = Ok (st', b) -> consistent st -> consistent st'.
Proof.
  intros H [H1 H2 H3 H4 H5 H6].
  destruct (beneficiary_create_spec e data st) as [[_ Heq]|[c' Heq]];
    rewrite Heq in H; [|discriminate].
  injection H as <- <-. constructor; simpl; assumption.
Qed.

Lemma campaign_delete_consistent (i : string) (st : db) :
  consistent st -> consistent (campaign_delete i st).
Proof.
  intros [H1 H2 H3 H4 H5 H6]. constructor; simpl.
  - apply Forall_map. eapply Forall_impl; [|exact H1].
    intros d Hd. unfold detach_donation. now destruct (refers (don_campaignId d) i).
  - apply Forall_map. eapply Forall_impl; [|exact H2].
    intros d Hd. unfold detach_donation.
    destruct (refers (don_campaignId d) i) eqn:E; [reflexivity|]. now apply ref_ok_filter.
  - apply Forall_map. eapply Forall_impl; [|exact H3].
    intros x Hx. unfold detach_expense.
    destruct (refers (exp_campaignId x) i) eqn:E; [reflexivity|]. now apply ref_ok_filter.
  - apply Forall_map. eapply Forall_impl; [|exact H4].
    intros d Hd. unfold detach_donation. now destruct (refers (don_campaignId d) i).
  - apply Forall_map. eapply Forall_impl; [|exact H5].
    intros x Hx. unfold detach_expense. now destruct (refers (exp_campaignId x) i).
  - rewrite Forall_forall in H6 |- *. intros c Hc. apply filter_In in Hc. now apply H6.
Qed.

Lemma Forall_filter (A : Type) (P : A -> Prop) (f : A -> bool) (l : list A) :
  Forall P l -> Forall P (filter f l).
Proof.
  rewrite !Forall_forall. intros H x Hx. apply filter_In in Hx. now apply H.
Qed.

Lemma donor_delete_consistent (i : string) (st : db) :
  consistent st -> consistent (donor_delete i st).
Proof.
  intros [H1 H2 H3 H4 H5 H6]. constructor; simpl; try assumption;
    try (now apply Forall_filter).
  rewrite Forall_forall in H1 |- *. intros d Hd.
  apply filter_In in Hd. destruct Hd as [Hin Hne].
  rewrite has_id_filter_ne; [now apply H1|].
  apply negb_true_iff in Hne. now apply String.eqb_neq.
Qed.

Section Invariants.

Variable rt : runtime.

Lemma authenticateToken_preserves (next : handler) :
  preserves next -> preserves (authenticateToken rt next).
Proof.
  intros Hn e req st Hst. unfold authenticateToken.
  destruct (header_token req) as [token|]; [|assumption].
  destruct (String.eqb token ""); [assumption|].
  destruct (jwt_verify rt token (JWT_SECRET rt) (now e)); [|assumption].
  now apply Hn.
Qed.

Lemma login_unchanged (e : env) (req : request) (st : db) :
  fst (login rt e req st) = st.
Proof.
  unfold login. destruct (authSchema_parse (req_body req)) as [a|err].
  - now destruct (find _ validCredentials).
  - now destruct (instanceof_ZodError err).
Qed.

Lemma catch_create_unchanged (a b : string) (st : db) (err : exn) :
  fst (catch_create a b st err) = st.
Proof. unfold catch_create. now destruct (instanceof_ZodError err). Qed.

Ltac create_preserves parse_ok create_consistent :=
  let Hp := fresh "Hp" in
  let Hc := fresh "Hc" in
  intros e req st Hst; cbv beta delta [createExpense createDonation createCampaign
    createDonor createBeneficiary post_api_expenses post_api_donations
    post_api_campaigns post_api_donors post_api_beneficiaries];
  match goal with
  | |- context [bind ?p _] => destruct p as [data|err] eqn:Hp
  end; cbv beta iota delta [bind];
  [ match goal with
    | |- context [match ?c with Ok _ => _ | Throw _ => _ end] =>
        destruct c as [[st' x]|err] eqn:Hc
    end;
    [ simpl; first [ apply parse_ok in Hp;
                     destruct Hp as [fs Hp]; decompose [and] Hp;
                     eapply create_consistent; eassumption
                   | eapply create_consistent; eassumption ]
    | first [ assumption | now rewrite catch_create_unchanged ] ]
  | first [ assumption | now rewrite catch_create_unchanged ] ].

Lemma createExpense_preserves : preserves createExpense.
Proof. create_preserves expenseSchema_parse_ok expense_create_consistent. Qed.

Lemma createDonation_preserves : preserves createDonation.
Proof. create_preserves donationSchema_parse_ok donation_create_consistent. Qed.

Lemma createCampaign_preserves : preserves createCampaign.
Proof. create_preserves campaignSchema_parse_ok campaign_create_consistent. Qed.

Lemma createDonor_preserves : preserves (createDonor rt).
Proof. create_preserves (@donorSchema_parse_ok rt) donor_create_consistent. Qed.

Lemma createBeneficiary_preserves : preserves createBeneficiary.
Proof. create_preserves beneficiarySchema_parse_ok beneficiary_create_consistent. Qed.

Lemma post_api_expenses_preserves : preserves post_api_expenses.
Proof. create_preserves expenseSchema_parse_ok expense_create_consistent. Qed.

Lemma post_api_donations_preserves : preserves post_api_donations.
Proof. create_preserves donationSchema_parse_ok donation_create_consistent. Qed.

Lemma post_api_campaigns_preserves : preserves post_api_campaigns.
Proof. create_preserves campaignSchema_parse_ok campaign_create_consistent. Qed.

Lemma post_api_donors_preserves : preserves (post_api_donors rt).
Proof. create_preserves (@donorSchema_parse_ok rt) donor_create_consistent. Qed.

Lemma post_api_beneficiaries_preserves : preserves post_api_beneficiaries.
Proof. create_preserves beneficiarySchema_parse_ok beneficiary_create_consistent. Qed.

Lemma reading_preserves (h : handler) :
  (forall e req st, fst (h e req st) = st) -> preserves h.
Proof. intros H e req st Hst. now rewrite H. Qed.

Lemma getDashboardStats_unchanged (e : env) (req : request) (st : db) :
  fst (getDashboardStats e req st) = st /\
  status (snd (getDashboardStats e req st)) <> 201.
Proof.
  unfold getDashboardStats.
  match goal with
  | |- context [match ?c with Ok _ => _ | Throw _ => _ end] => destruct c as [[? ?]|?]
  end; (split; [reflexivity|discriminate]).
Qed.

Create HintDb handlers.

#[local] Hint Resolve authenticateToken_preserves createExpense_preserves
  createDonation_preserves createCampaign_preserves createDonor_preserves
  createBeneficiary_preserves post_api_expenses_preserves
  post_api_donations_preserves post_api_campaigns_preserves
  post_api_donors_preserves post_api_beneficiaries_preserves : handlers.

Lemma route_preserves (r : route) :
  In r (router rt) \/ In r (app rt) -> preserves (run_route r).
Proof.
  intros [H|H]; simpl in H;
    repeat (destruct H as [<-|H]; [unfold run_route; simpl|]); try contradiction;
    auto with handlers;
    try (apply authenticateToken_preserves); apply reading_preserves;
    first [ apply login_unchanged | apply getDashboardStats_unchanged | reflexivity ].
Qed.

Lemma dispatch_preserves (routes : list route) :
  (forall r, In r routes -> preserves (run_route r)) -> preserves (dispatch rt routes).
Proof.
  intros H e req st Hst. unfold dispatch.
  destruct (find _ routes) as [r|] eqn:E; [|assumption].
  apply find_some in E. now apply (H r (proj1 E)).
Qed.

Lemma step_consistent (st st' : db) : step rt st st' -> consistent st -> consistent st'.
Proof.
  intros [e req s|e req s|i s|i s] Hst.
  - apply dispatch_preserves; [|assumption]. intros r Hr. apply route_preserves. now left.
  - apply dispatch_preserves; [|assumption]. intros r Hr. apply route_preserves. now right.
  - now apply campaign_delete_consistent.
  - now apply donor_delete_consistent.
Qed.

Lemma reachable_consistent (st : db) : reachable rt st -> consistent st.
Proof.
  induction 1 as [|st st' _ IH Hs]; [apply consistent_empty|].
  eapply step_consistent; eassumption.
Qed.

End Invariants.

(** ** Dashboard *)

(** What a query without ORDER BY receives is the table in some order,
    and every order is one it may receive. *)
Lemma heap_scan_perm (A : Type) (order : list nat) (l : list A) :
  Permutation (heap_scan order l) l.
Proof.
  revert l. induction order as [|n order IH]; intros l; cbn [heap_scan]; [reflexivity|].
  destruct (skipn n l) as [|x rest] eqn:E; [apply IH|].
  rewrite <- (firstn_skipn n l) at 2. rewrite E.
  etransitivity; [apply perm_skip, IH|]. apply Permutation_middle.
Qed.

Lemma heap_scan_any (A : Type) (l l' : list A) :
  Permutation l' l -> exists order, heap_scan order l = l'.
Proof.
  revert l. induction l' as [|x l' IH]; intros l Hp.
  - apply Permutation_nil in Hp. subst. now exists [].
  - assert (Hin : In x l) by (eapply Permutation_in; [exact Hp|now left]).
    apply in_split in Hin. destruct Hin as [l1 [l2 ->]].
    apply Permutation_cons_app_inv in Hp.
    destruct (IH _ Hp) as [order Ho].
    exists (List.length l1 :: order). cbn [heap_scan].
    rewrite skipn_app, skipn_all, Nat.sub_diag. cbn [skipn Datatypes.app].
    rewrite firstn_app, firstn_all, Nat.sub_diag. cbn [firstn].
    rewrite app_nil_r. now rewrite Ho.
Qed.

(** *** Sums of doubles *)

Lemma isinf_infinity (x : number) :
  not_negative x -> (isinf x = true <-> x = S754_infinity false).
Proof.
  destruct x as [s|s| |s m e]; try destruct s; cbn; intuition congruence.
Qed.

Lemma positive_not_infinity (x : number) :
  SFltb zero x = true -> x <> S754_infinity false -> isinf x = false.
Proof.
  intros Hp Hn. destruct (number_positive_cases x Hp) as [[m [e ->]]| ->];
    [reflexivity|congruence].
Qed.

Lemma positive_not_negative (x : number) : SFltb zero x = true -> not_negative x.
Proof.
  intros Hp. destruct (number_positive_cases x Hp) as [[m [e ->]]| ->]; exact I.
Qed.

(** Rounding a positive mantissa gives a number that is not negative. *)
Lemma binary_round_not_negative (m : positive) (e : Z) :
  not_negative (binary_round 53 1024 false m e).
Proof.
  unfold binary_round.
  destruct (shl_align m e (fexp 53 1024 (Z.pos (digits2_pos m) + e))) as [mz ez].
  unfold binary_round_aux.
  destruct (shr_fexp 53 1024 (Z.pos mz) ez loc_Exact) as [mrs' e'].
  destruct (shr_fexp 53 1024
              (round_nearest_even (shr_m mrs') (loc_of_shr_record mrs')) e' loc_Exact)
    as [mrs'' e''].
  destruct (shr_m mrs''); [exact I| |exact I].
  destruct (e'' <=? 1024 - 53); exact I.
Qed.

Lemma SFadd_not_negative (a x : number) :
  not_negative a -> SFltb zero x = true -> not_negative (SFadd 53 1024 a x).
Proof.
  intros Ha Hx.
  destruct (number_positive_cases x Hx) as [[m [e ->]]| ->];
    destruct a as [s|s| |s ma ea]; try destruct s; try exact I; try contradiction.
  cbn [SFadd cond_Zopp Z.add binary_normalize]. apply binary_round_not_negative.
Qed.

Lemma SFadd_infinity (x : number) :
  SFltb zero x = true -> SFadd 53 1024 (S754_infinity false) x = S754_infinity false.
Proof.
  intros Hx. destruct (number_positive_cases x Hx) as [[m [e ->]]| ->]; reflexivity.
Qed.

Lemma fold_infinity (l : list number) :
  Forall (fun x => SFltb zero x = true) l ->
  fold_left (SFadd 53 1024) l (S754_infinity false) = S754_infinity false.
Proof.
  induction 1 as [|x l Hx _ IH]; [reflexivity|].
  cbn [fold_left]. now rewrite SFadd_infinity.
Qed.

Lemma fold_not_negative (l : list number) (acc : number) :
  not_negative acc -> Forall (fun x => SFltb zero x = true) l ->
  not_negative (fold_left (SFadd 53 1024) l acc).
Proof.
  intros Ha Hl. revert acc Ha. induction Hl as [|x l Hx _ IH]; intros acc Ha; [exact Ha|].
  cbn [fold_left]. apply IH. now apply SFadd_not_negative.
Qed.

(** The store's addition is the IEEE addition, unless two numbers that are
    not infinite have an infinite sum. *)
Lemma float8pl_cases (a x : number) :
  (float8pl a x = Ok (SFadd 53 1024 a x) /\
   (isinf (SFadd 53 1024 a x) = true -> isinf a = true \/ isinf x = true)) \/
  (float8pl a x = Throw (PrismaError P2020) /\
   isinf (SFadd 53 1024 a x) = true /\ isinf a = false /\ isinf x = false).
Proof.
  unfold float8pl.
  destruct (isinf (SFadd 53 1024 a x)), (isinf a), (isinf x); cbn; auto; left;
    (split; [reflexivity|discriminate]).
Qed.

Lemma float8_sum_ok (l : list number) (acc s : number) :
  float8_sum acc l = Ok s -> s = fold_left (SFadd 53 1024) l acc.
Proof.
  revert acc. induction l as [|x l IH]; intros acc; cbn [float8_sum fold_left].
  - intros H. now injection H as <-.
  - destruct (float8pl_cases acc x) as [[-> _]|[-> _]]; cbn [bind]; [apply IH|discriminate].
Qed.

Lemma float8_sum_throw (l : list number) (acc : number) (error : exn) :
  not_negative acc -> Forall (fun x => SFltb zero x = true) l ->
  float8_sum acc l = Throw error ->
  error = PrismaError P2020 /\
  fold_left (SFadd 53 1024) l acc = S754_infinity false.
Proof.
  intros Ha Hl. revert acc Ha.
  induction Hl as [|x l Hx Hl IH]; intros acc Ha; cbn [float8_sum fold_left];
    [discriminate|].
  pose proof (SFadd_not_negative acc x Ha Hx) as Hs.
  destruct (float8pl_cases acc x) as [[-> _]|[-> [Hi _]]]; cbn [bind]; [now apply IH|].
  intros H. injection H as <-. split; [reflexivity|].
  apply isinf_infinity in Hi; [|assumption]. rewrite Hi. now apply fold_infinity.
Qed.

Lemma float8_sum_overflow (l : list number) (acc : number) :
  isinf acc = false -> Forall (fun x => isinf x = false) l ->
  isinf (fold_left (SFadd 53 1024) l acc) = true ->
  float8_sum acc l = Throw (PrismaError P2020).
Proof.
  intros Ha Hl. revert acc Ha.
  induction Hl as [|x l Hx Hl IH]; intros acc Ha; cbn [float8_sum fold_left].
  - congruence.
  - intros Hi. destruct (float8pl_cases acc x) as [[-> Hs]|[-> _]]; cbn [bind];
      [|reflexivity].
    apply IH; [|assumption].
    destruct (isinf (SFadd 53 1024 acc x)); [|reflexivity].
    destruct Hs as [Hs|Hs]; [reflexivity| |]; congruence.
Qed.

(** SUM over positive amounts: it yields the IEEE sum taken in the order of
    the rows, which [|| 0] leaves as it is unless it is 0 or NaN; it fails
    only when that sum is infinite, and it does fail when the sum is
    infinite although no amount is. *)
Lemma aggregate_sum_spec (l : list number) :
  Forall (fun x => SFltb zero x = true) l ->
  not_negative (binary64_sum l) /\
  ((exists t, aggregate_sum l = Ok t /\ or_zero t = sum_or_0 l) \/
   (aggregate_sum l = Throw (PrismaError P2020) /\ binary64_sum l = S754_infinity false)) /\
  (Forall (fun x => x <> S754_infinity false) l ->
   binary64_sum l = S754_infinity false -> aggregate_sum l = Throw (PrismaError P2020)).
Proof.
  intros Hl. destruct Hl as [|x l Hx Hl].
  - split; [exact I|]. split; [left; now exists None|]. discriminate.
  - cbn [binary64_sum aggregate_sum]. unfold sum_or_0. cbn [binary64_sum].
    pose proof (positive_not_negative x Hx) as Hn.
    pose proof (fold_not_negative x Hn Hl) as Hf.
    split; [exact Hf|]. split.
    + destruct (float8_sum x l) as [s|error] eqn:E; cbn [bind].
      * left. exists (Some s). split; [reflexivity|].
        apply float8_sum_ok in E. subst s. unfold or_zero.
        now destruct (fold_left (SFadd 53 1024) l x) as [[|]|[|]| |[|] ? ?].
      * right. destruct (float8_sum_throw x Hn Hl E) as [-> Hi]. now split.
    + intros Hfin Hinf. inversion Hfin as [|? ? Hx' Hl']; subst.
      rewrite float8_sum_overflow; [reflexivity| | |].
      * now apply positive_not_infinity.
      * rewrite Forall_forall in *. intros y Hy.
        apply positive_not_infinity; auto.
      * now rewrite Hinf.
Qed.

Lemma map_include_donation (st : db) (l : list Donation) :
  map dwr_donation (map (include_donor_campaign st) l) = l.
Proof. rewrite map_map. simpl. apply map_id. Qed.

Lemma campaign_of_consistent (st : db) (r : option string) :
  ref_ok cam_id r (campaigns st) = true ->
  match r with
  | Some i => exists c, campaign_of st r = Some c /\ In c (campaigns st) /\ cam_id c = i
  | None => campaign_of st r = None
  end.
Proof.
  destruct r as [i|]; simpl; [|reflexivity]. apply has_id_find.
Qed.

(** The dashboard answers with the four figures when both sums succeed, and
    with 500 when one of them fails. *)
Lemma getDashboardStats_cases (e : env) (req : request) (st : db) :
  match aggregate_sum (map don_amount (heap_scan (scan e "donations") (donations st))),
        aggregate_sum (map exp_amount (heap_scan (scan e "expenses") (expenses st))) with
  | Ok td, Ok te =>
      getDashboardStats e req st =
        (st, json_response 200
               (PStats (or_zero td) (or_zero te) (count_active st)
                       (map (include_donor_campaign st)
                            (firstn 5 (orderBy_desc don_createdAt (donations st))))))
  | _, _ =>
      getDashboardStats e req st =
        (st, json_response 500 (PError "Failed to fetch dashboard statistics" None))
  end.
Proof.
  unfold getDashboardStats.
  destruct (aggregate_sum (map don_amount _)) as [td|?]; cbn [bind]; [|reflexivity].
  destruct (aggregate_sum (map exp_amount _)) as [te|?]; reflexivity.
Qed.

Lemma positive_amounts (A : Type) (amount : A -> number) (l l' : list A) :
  Forall (fun a => SFltb zero (amount a) = true) l -> Permutation l' l ->
  Forall (fun x => SFltb zero x = true) (map amount l').
Proof.
  intros H Hp. apply Forall_map. eapply Permutation_Forall; [|exact H].
  now symmetry.
Qed.

Section Dashboard.

Variable rt : runtime.

(** The answers of the dashboard in a reachable state, against the IEEE
    sums of the amounts in the order the two tables are read. *)
Lemma getDashboardStats_outcome (e : env) (req : request) (st : db) :
  reachable rt st ->
  exists ds xs,
    Permutation ds (map don_amount (donations st)) /\
    Permutation xs (map exp_amount (expenses st)) /\
    ((getDashboardStats e req st =
        (st, json_response 200
               (PStats (sum_or_0 ds) (sum_or_0 xs) (count_active st)
                       (map (include_donor_campaign st)
                            (firstn 5 (orderBy_desc don_createdAt (donations st))))))) \/
     (getDashboardStats e req st =
        (st, json_response 500 (PError "Failed to fetch dashboard statistics" None)) /\
      (binary64_sum ds = S754_infinity false \/ binary64_sum xs = S754_infinity false))) /\
    ((Forall (fun x => x <> S754_infinity false) ds /\
      binary64_sum ds = S754_infinity false) \/
     (Forall (fun x => x <> S754_infinity false) xs /\
      binary64_sum xs = S754_infinity false) ->
     getDashboardStats e req st =
       (st, json_response 500 (PError "Failed to fetch dashboard statistics" None))) /\
    not_negative (binary64_sum ds) /\ not_negative (binary64_sum xs).
Proof.
  intros Hreach. apply reachable_consistent in Hreach.
  destruct Hreach as [_ _ _ Hd Hx _].
  set (ds := map don_amount (heap_scan (scan e "donations") (donations st))).
  set (xs := map exp_amount (heap_scan (scan e "expenses") (expenses st))).
  assert (Pd : Forall (fun x => SFltb zero x = true) ds)
    by (eapply positive_amounts; [exact Hd|apply heap_scan_perm]).
  assert (Px : Forall (fun x => SFltb zero x = true) xs)
    by (eapply positive_amounts; [exact Hx|apply heap_scan_perm]).
  destruct (aggregate_sum_spec Pd) as (Nd & Cd & Od).
  destruct (aggregate_sum_spec Px) as (Nx & Cx & Ox).
  pose proof (getDashboardStats_cases e req st) as Hc. fold ds xs in Hc.
  exists ds, xs.
  split; [apply Permutation_map, heap_scan_perm|].
  split; [apply Permutation_map, heap_scan_perm|].
  split; [|split; [|now split]].
  - destruct Cd as [[td [Etd Htd]]|[Etd Hi]]; rewrite Etd in Hc.
    + destruct Cx as [[te [Ete Hte]]|[Ete Hi]]; rewrite Ete in Hc.
      * left. now rewrite <- Htd, <- Hte.
      * right. auto.
    + right. auto.
  - intros [[Hf Hi]|[Hf Hi]].
    + now rewrite (Od Hf Hi) in Hc.
    + rewrite (Ox Hf Hi) in Hc. now destruct (aggregate_sum ds).
Qed.

(** C5 (amended): in every reachable state the dashboard adds the donation
    amounts, and likewise the expense amounts, as doubles in the order in
    which the table is read, rounding after every addition.  It answers 200
    with these two sums passed through [|| 0] (so with 0 for a table without
    rows) or, when a sum is infinite, possibly 500; it does answer 200 when
    neither sum is infinite, and 500 when a sum is infinite although none of
    its amounts is.  An infinite total is written to the JSON answer as
    null. *)
Theorem getDashboardStats_totals (e : env) (req : request) (st : db) :
  reachable rt st ->
  exists ds xs,
    Permutation ds (map don_amount (donations st)) /\
    Permutation xs (map exp_amount (expenses st)) /\
    ((exists ac rd,
        getDashboardStats e req st =
          (st, json_response 200 (PStats (sum_or_0 ds) (sum_or_0 xs) ac rd))) \/
     getDashboardStats e req st =
       (st, json_response 500 (PError "Failed to fetch dashboard statistics" None))) /\
    (binary64_sum ds <> S754_infinity false -> binary64_sum xs <> S754_infinity false ->
     exists ac rd,
       getDashboardStats e req st =
         (st, json_response 200 (PStats (sum_or_0 ds) (sum_or_0 xs) ac rd))) /\
    ((Forall (fun x => x <> S754_infinity false) ds /\
      binary64_sum ds = S754_infinity false) \/
     (Forall (fun x => x <> S754_infinity false) xs /\
      binary64_sum xs = S754_infinity false) ->
     getDashboardStats e req st =
       (st, json_response 500 (PError "Failed to fetch dashboard statistics" None))) /\
    (donations st = [] -> sum_or_0 ds = S754_zero false) /\
    (expenses st = [] -> sum_or_0 xs = S754_zero false) /\
    (JSON_stringify_number (sum_or_0 ds) = JNull <->
     binary64_sum ds = S754_infinity false) /\
    (JSON_stringify_number (sum_or_0 xs) = JNull <->
     binary64_sum xs = S754_infinity false).
Proof.
  intros Hreach.
  destruct (getDashboardStats_outcome e req Hreach)
    as (ds & xs & Pd & Px & Hc & Ho & Nd & Nx).
  assert (Hnull : forall l, not_negative (binary64_sum l) ->
            JSON_stringify_number (sum_or_0 l) = JNull <->
            binary64_sum l = S754_infinity false).
  { intros l. unfold sum_or_0.
    destruct (binary64_sum l) as [s|s| |s m x]; try destruct s; cbn;
      intuition congruence. }
  exists ds, xs. repeat (split; [assumption|]).
  split; [|split; [|split; [assumption|split; [|split; [|split; auto]]]]].
  - destruct Hc as [Hc|[Hc _]]; [left; eauto|now right].
  - intros Hd Hx. destruct Hc as [Hc|[_ [Hc|Hc]]]; [eauto|contradiction|contradiction].
  - intros E. rewrite E in Pd. apply Permutation_sym, Permutation_nil in Pd.
    now subst ds.
  - intros E. rewrite E in Px. apply Permutation_sym, Permutation_nil in Px.
    now subst xs.
Qed.


End Dashboard.

(** ** Export *)

Lemma digit_not_T (d : Z) : Ascii.eqb (digit d) "T" = false.
Proof.
  unfold digit. destruct d as [|p|p]; try reflexivity.
  do 4 (destruct p as [p|p|]; try reflexivity).
Qed.

Lemma contains_String (c x : ascii) (s : string) :
  contains c (String x s) = Ascii.eqb x c || contains c s.
Proof. reflexivity. Qed.

Lemma pad2_no_T (n : Z) : contains "T" (pad2 n) = false.
Proof. unfold pad2. rewrite !contains_String, !digit_not_T. reflexivity. Qed.

Lemma pad3_no_T (n : Z) : contains "T" (pad3 n) = false.
Proof. unfold pad3. rewrite contains_String, digit_not_T, pad2_no_T. reflexivity. Qed.

Lemma pad4_no_T (n : Z) : contains "T" (pad4 n) = false.
Proof. unfold pad4. rewrite contains_String, digit_not_T, pad3_no_T. reflexivity. Qed.

Lemma pad6_no_T (n : Z) : contains "T" (pad6 n) = false.
Proof. unfold pad6. rewrite !contains_String, !digit_not_T, pad4_no_T. reflexivity. Qed.

Lemma iso_year_no_T (y : Z) : contains "T" (iso_year y) = false.
Proof.
  unfold iso_year. destruct ((0 <=? y) && (y <=? 9999)); [apply pad4_no_T|].
  destruct (y <? 0); rewrite contains_String, pad6_no_T; reflexivity.
Qed.

Lemma iso_date_no_T (ms : Z) : contains "T" (iso_date ms) = false.
Proof.
  unfold iso_date. destruct (civil_from_days (ms / 86400000)) as [[y m] d].
  rewrite !contains_app, iso_year_no_T, !pad2_no_T. reflexivity.
Qed.

(** The text before the "T" of the ISO rendering is the calendar date. *)
Lemma toISOString_date (ms : Z) : hd "" (split "T" (toISOString ms)) = iso_date ms.
Proof.
  unfold toISOString.
  change ("T" ++ iso_time ms ++ "Z") with (String "T" (iso_time ms ++ "Z")).
  rewrite split_app_sep by apply iso_date_no_T. reflexivity.
Qed.

Lemma fold_addRow (A : Type) (f : A -> row) (l : list A) (w : worksheet) :
  fold_left (fun w x => addRow w (f x)) l w =
  {| ws_name := ws_name w; ws_columns := ws_columns w; ws_rows := ws_rows w ++ map f l |}.
Proof.
  revert w. induction l as [|x l IH]; intros w; simpl.
  - rewrite app_nil_r. now destruct w.
  - rewrite IH. simpl. now rewrite <- app_assoc.
Qed.

(** *** The calendar

    [days_from_civil] counts the days as the calendar does: it is 0 on
    1 January 1970 and grows by one from a date to the next. *)

Lemma days_from_civil_epoch : days_from_civil 1970 1 1 = 0.
Proof. reflexivity. Qed.

Lemma is_leap_step (y : Z) :
  leap_years_before (y + 1) = leap_years_before y + (if is_leap y then 1 else 0).
Proof.
  unfold leap_years_before, is_leap. replace (y + 1 - 1) with y by lia.
  destruct (y mod 4 =? 0) eqn:E4; destruct (y mod 100 =? 0) eqn:E100;
    destruct (y mod 400 =? 0) eqn:E400; cbn [negb orb andb];
    rewrite ?Z.eqb_eq, ?Z.eqb_neq in *; Z.div_mod_to_equations; lia.
Qed.

Lemma month_cases (m : Z) :
  1 <= m <= 12 ->
  m = 1 \/ m = 2 \/ m = 3 \/ m = 4 \/ m = 5 \/ m = 6 \/
  m = 7 \/ m = 8 \/ m = 9 \/ m = 10 \/ m = 11 \/ m = 12.
Proof. lia. Qed.

(** The day after a valid date is one day further from the epoch. *)
Lemma days_from_civil_next (y m d : Z) :
  valid_date y m d ->
  (d < days_in_month y m -> days_from_civil y m (d + 1) = days_from_civil y m d + 1) /\
  (d = days_in_month y m -> m < 12 ->
     days_from_civil y (m + 1) 1 = days_from_civil y m d + 1) /\
  (d = days_in_month y m -> m = 12 ->
     days_from_civil (y + 1) 1 1 = days_from_civil y m d + 1).
Proof.
  intros [Hm Hd]. unfold days_from_civil. split; [intros; lia|]. split.
  - intros -> Hlt. generalize (days_before_year y). intros b.
    destruct (month_cases Hm) as [H|[H|[H|[H|[H|[H|[H|[H|[H|[H|[H|H]]]]]]]]]]];
      subst m; try lia; unfold days_before_month, days_in_month;
      remember (is_leap y) as L; destruct L; simpl; lia.
  - intros -> ->. unfold days_before_year. rewrite is_leap_step.
    replace (365 * (y + 1 - 1970)) with (365 * (y - 1970) + 365) by lia.
    generalize (365 * (y - 1970)), (leap_years_before y), (leap_years_before 1970).
    intros a b c. unfold days_before_month, days_in_month.
    remember (is_leap y) as L. remember (is_leap (y + 1)) as L'.
    destruct L; simpl; lia.
Qed.

Lemma year_of_era_step (doe : Z) :
  0 <= doe < 146096 -> year_of_era doe <= year_of_era (doe + 1).
Proof.
  intros H. unfold year_of_era. apply Z.div_le_mono; [lia|].
  Z.div_mod_to_equations. lia.
Qed.

Lemma year_of_era_mono (a b : Z) :
  0 <= a <= b -> b < 146097 -> year_of_era a <= year_of_era b.
Proof.
  intros [Ha Hab] Hb.
  assert (G : forall n, 0 <= n -> a + n < 146097 -> year_of_era a <= year_of_era (a + n)).
  { intros n Hn. pattern n. apply natlike_ind; [| |exact Hn].
    - intros _. rewrite Z.add_0_r. lia.
    - intros x Hx IH Hx'. etransitivity; [apply IH; lia|].
      replace (a + Z.succ x) with (a + x + 1) by lia.
      apply year_of_era_step. lia. }
  replace b with (a + (b - a)) by lia. apply G; lia.
Qed.

Lemma all_from_spec (n : nat) (f : Z -> bool) (z : Z) :
  all_from n f z = true -> forall i, z <= i < z + Z.of_nat n -> f i = true.
Proof.
  revert z. induction n as [|n IH]; intros z H i Hi; [lia|].
  simpl in H. apply andb_prop in H. destruct H as [Hz Hn].
  destruct (Z.eq_dec i z) as [->|Hne]; [assumption|].
  apply (IH (z + 1)); [assumption|lia].
Qed.

Lemma year_bounds_all : all_from 400 year_bounds 0 = true.
Proof. vm_compute. reflexivity. Qed.

Lemma year_of_era_spec (doe : Z) :
  0 <= doe < 146097 ->
  0 <= year_of_era doe < 400 /\
  year_start (year_of_era doe) <= doe < year_start (year_of_era doe + 1).
Proof.
  intros H.
  assert (B : forall y, 0 <= y < 400 ->
                year_of_era (year_start y) = y /\ year_of_era (year_start (y + 1) - 1) = y).
  { intros y Hy. pose proof (@all_from_spec 400 year_bounds 0 year_bounds_all y) as Hb.
    unfold year_bounds in Hb. rewrite andb_true_iff, !Z.eqb_eq in Hb. apply Hb. lia. }
  assert (S0 : year_start 0 = 0) by reflexivity.
  assert (S400 : year_start 400 = 146097) by reflexivity.
  assert (Smono : forall y, 0 <= y < 400 ->
            0 <= year_start y /\ year_start y < year_start (y + 1) /\
            year_start (y + 1) <= 146097).
  { intros y Hy. unfold year_start. Z.div_mod_to_equations. lia. }
  assert (R : 0 <= year_of_era doe < 400).
  { split.
    - change 0 with (year_of_era 0). apply year_of_era_mono; lia.
    - assert (year_of_era doe <= year_of_era 146096) by (apply year_of_era_mono; lia).
      assert (year_of_era 146096 = 399) by reflexivity. lia. }
  split; [exact R|]. set (y := year_of_era doe) in *. split.
  - destruct (Z_lt_le_dec doe (year_start y)) as [Hlt|]; [|assumption]. exfalso.
    destruct (Z.eq_dec y 0) as [Hy0|Hy0]; [rewrite Hy0, S0 in Hlt; lia|].
    destruct (B (y - 1)) as [_ B2]; [lia|].
    replace (y - 1 + 1) with y in B2 by lia.
    assert (Hle : year_of_era doe <= year_of_era (year_start y - 1)).
    { apply year_of_era_mono; [lia|]. pose proof (Smono (y - 1)) as Hs.
      replace (y - 1 + 1) with y in Hs by lia. lia. }
    fold y in Hle. lia.
  - destruct (Z_lt_le_dec doe (year_start (y + 1))) as [|Hge]; [assumption|]. exfalso.
    destruct (Z.eq_dec y 399) as [Hy|Hy].
    { rewrite Hy in Hge. change (399 + 1) with 400 in Hge. lia. }
    destruct (B (y + 1)) as [B1 _]; [lia|].
    assert (Hle : year_of_era (year_start (y + 1)) <= year_of_era doe).
    { apply year_of_era_mono; [|lia]. pose proof (Smono y). lia. }
    fold y in Hle. lia.
Qed.

Lemma month_day_all : all_from 366 month_day_ok 0 = true.
Proof. vm_compute. reflexivity. Qed.

Lemma days_before_month_march (y m : Z) :
  1 <= m <= 12 ->
  days_before_month y m =
    if m <=? 2 then march_offset m - 306
    else 59 + (if is_leap y then 1 else 0) + march_offset m.
Proof.
  intros Hm.
  destruct (month_cases Hm) as [H|[H|[H|[H|[H|[H|[H|[H|[H|[H|[H|H]]]]]]]]]]];
    subst m; unfold days_before_month, days_in_month;
    remember (is_leap y) as L; destruct L; simpl; lia.
Qed.

Lemma days_in_month_any (y m : Z) : m <> 2 -> days_in_month y m = days_in_month 1 m.
Proof.
  intros H. unfold days_in_month. apply Z.eqb_neq in H. now rewrite H.
Qed.

Lemma is_leap_400 (y k : Z) : is_leap (y + k * 400) = is_leap y.
Proof.
  unfold is_leap.
  replace (y + k * 400) with (y + (k * 100) * 4) at 1 by lia.
  replace (y + k * 400) with (y + (k * 4) * 100) at 1 by lia.
  now rewrite !Z.mod_add by lia.
Qed.

Lemma leap_years_before_400 (y k : Z) :
  leap_years_before (y + k * 400) = leap_years_before y + 97 * k.
Proof.
  unfold leap_years_before.
  replace (y + k * 400 - 1) with (y - 1 + (k * 100) * 4) at 1 by lia.
  replace (y + k * 400 - 1) with (y - 1 + (k * 4) * 100) at 1 by lia.
  replace (y + k * 400 - 1) with (y - 1 + k * 400) by lia.
  rewrite !Z.div_add by lia. lia.
Qed.

Lemma year_start_leap (y : Z) :
  0 <= y < 400 ->
  year_start (y + 1) - year_start y = 365 + (if is_leap (y + 1) then 1 else 0) /\
  year_start y = 365 * y + leap_years_before (y + 1).
Proof.
  intros Hy. unfold year_start, leap_years_before, is_leap.
  replace (y + 1 - 1) with y by lia.
  destruct ((y + 1) mod 4 =? 0) eqn:E4; destruct ((y + 1) mod 100 =? 0) eqn:E100;
    destruct ((y + 1) mod 400 =? 0) eqn:E400; cbn [negb orb andb];
    rewrite ?Z.eqb_eq, ?Z.eqb_neq in *; Z.div_mod_to_equations; lia.
Qed.

(** The civil date computed for a day count is a date of the calendar, and
    it is that many days away from 1 January 1970. *)
Lemma civil_from_days_spec (z : Z) :
  let '(y, m, d) := civil_from_days z in
  valid_date y m d /\ days_from_civil y m d = z.
Proof.
  unfold civil_from_days.
  set (era := (z + 719468) / 146097).
  set (doe := (z + 719468) mod 146097).
  assert (Hz : z = era * 146097 + doe - 719468).
  { unfold era, doe. Z.div_mod_to_equations. lia. }
  assert (Hdoe : 0 <= doe < 146097) by (unfold doe; apply Z.mod_pos_bound; lia).
  fold (year_of_era doe).
  destruct (year_of_era_spec Hdoe) as [Hy [Hlo Hhi]].
  set (yoe := year_of_era doe) in *.
  destruct (year_start_leap Hy) as [Hlen Hstart].
  assert (Hy400 : yoe / 400 = 0) by (apply Z.div_small; lia).
  replace (365 * yoe + yoe / 4 - yoe / 100) with (year_start yoe)
    by (unfold year_start; lia).
  set (doy := doe - year_start yoe) in *.
  assert (Hdoy : 0 <= doy < 366) by (destruct (is_leap (yoe + 1)); lia).
  pose proof (@all_from_spec 366 month_day_ok 0 month_day_all doy) as Hmd.
  unfold month_day_ok, month_day in Hmd.
  set (mp := (5 * doy + 2) / 153) in *.
  set (m := if mp <? 10 then mp + 3 else mp - 9) in *.
  set (d := doy - (153 * mp + 2) / 5 + 1) in *.
  specialize (Hmd ltac:(lia)).
  rewrite !andb_true_iff, !Z.leb_le, Z.eqb_eq in Hmd.
  destruct Hmd as [[[[Hm1 Hm12] Hd1] Hoff] Hlast].
  set (Y := yoe + era * 400).
  assert (HL : is_leap (Y + 1) = is_leap (yoe + 1)).
  { unfold Y. replace (yoe + era * 400 + 1) with (yoe + 1 + era * 400) by lia.
    apply is_leap_400. }
  assert (HB : leap_years_before (Y + 1) = leap_years_before (yoe + 1) + 97 * era).
  { unfold Y. replace (yoe + era * 400 + 1) with (yoe + 1 + era * 400) by lia.
    apply leap_years_before_400. }
  assert (HB1970 : leap_years_before 1970 = 477) by reflexivity.
  assert (Hfeb : m = 2 -> d <= 29 /\ doy = 337 + d - 1).
  { intros E. rewrite E in Hlast, Hoff. change (2 =? 2) with true in Hlast.
    cbv iota in Hlast. apply Z.leb_le in Hlast.
    change (march_offset 2) with 337 in Hoff. lia. }
  assert (Hany : m <> 2 -> d <= days_in_month 1 m).
  { intros E. apply Z.eqb_neq in E. rewrite E in Hlast. now apply Z.leb_le in Hlast. }
  clear Hlast.
  unfold valid_date, days_from_civil, days_before_year.
  rewrite days_before_month_march by lia.
  destruct (m <=? 2) eqn:Em.
  - apply Z.leb_le in Em. rewrite HB, HB1970. split; [split; [lia|]|lia].
    split; [lia|].
    destruct (Z.eq_dec m 2) as [E2|E2].
    + destruct (Hfeb E2) as [Hd29 Hdoy2].
      unfold days_in_month. rewrite E2. change (2 =? 2) with true. cbv iota.
      rewrite HL. destruct (is_leap (yoe + 1)); lia.
    + rewrite days_in_month_any by assumption. auto.
  - apply Z.leb_gt in Em.
    rewrite (is_leap_step Y) in HB. rewrite HB1970.
    split; [split; [lia|]|].
    + split; [lia|]. rewrite days_in_month_any by lia. apply Hany. lia.
    + destruct (is_leap Y); lia.
Qed.

(** *** Reading a date text back *)

Lemma digit_value_digit (k : Z) : 0 <= k <= 9 -> digit_value (digit k) = Some k.
Proof.
  intros H.
  assert (C : k = 0 \/ k = 1 \/ k = 2 \/ k = 3 \/ k = 4 \/ k = 5 \/ k = 6 \/ k = 7 \/
              k = 8 \/ k = 9) by lia.
  destruct C as [C|[C|[C|[C|[C|[C|[C|[C|[C|C]]]]]]]]]; subst k; reflexivity.
Qed.

Lemma digit_not_sign (k : Z) :
  Ascii.eqb (digit k) "+" = false /\ Ascii.eqb (digit k) "-" = false.
Proof.
  unfold digit. destruct k as [|p|p]; try (split; reflexivity).
  do 4 (destruct p as [p|p|]; try (split; reflexivity)).
Qed.

Lemma read_digits_digit (n : nat) (acc k : Z) (r : string) :
  0 <= k <= 9 ->
  read_digits (S n) acc (String (digit k) r) = read_digits n (10 * acc + k) r.
Proof. intros H. cbn [read_digits]. now rewrite digit_value_digit. Qed.

Lemma mod10 (n : Z) : 0 <= n mod 10 <= 9.
Proof. pose proof (Z.mod_pos_bound n 10). lia. Qed.

Lemma read_pad2 (acc n : Z) (r : string) :
  0 <= n < 100 -> read_digits 2 acc (pad2 n ++ r) = Some (100 * acc + n, r).
Proof.
  intros H. unfold pad2. cbn [append].
  rewrite !read_digits_digit by apply mod10. cbn [read_digits].
  f_equal. f_equal. Z.div_mod_to_equations. lia.
Qed.

Lemma read_pad4 (acc n : Z) (r : string) :
  0 <= n < 10000 -> read_digits 4 acc (pad4 n ++ r) = Some (10000 * acc + n, r).
Proof.
  intros H. unfold pad4, pad3, pad2. cbn [append].
  rewrite !read_digits_digit by apply mod10. cbn [read_digits].
  f_equal. f_equal. Z.div_mod_to_equations. lia.
Qed.

Lemma read_pad6 (acc n : Z) (r : string) :
  0 <= n < 1000000 -> read_digits 6 acc (pad6 n ++ r) = Some (1000000 * acc + n, r).
Proof.
  intros H. unfold pad6, pad4, pad3, pad2. cbn [append].
  rewrite !read_digits_digit by apply mod10. cbn [read_digits].
  f_equal. f_equal. Z.div_mod_to_equations. lia.
Qed.

Lemma read_year_iso_year (y : Z) (r : string) :
  -1000000 < y < 1000000 -> read_year (iso_year y ++ r) = Some (y, r).
Proof.
  intros H. unfold iso_year.
  destruct ((0 <=? y) && (y <=? 9999)) eqn:E.
  - apply andb_prop in E. destruct E as [E1 E2]. apply Z.leb_le in E1, E2.
    pose proof (read_pad4 0 r (n := y)) as Hr.
    unfold pad4 in *. cbn [append] in *. unfold read_year.
    destruct (digit_not_sign (y / 1000 mod 10)) as [-> ->].
    rewrite Hr by lia. repeat f_equal; lia.
  - destruct (y <? 0) eqn:Eneg.
    + apply Z.ltb_lt in Eneg. cbn [append]. unfold read_year.
      change (Ascii.eqb "-" "+") with false. change (Ascii.eqb "-" "-") with true.
      cbv iota. rewrite read_pad6 by lia. repeat f_equal; lia.
    + cbn [append]. unfold read_year. change (Ascii.eqb "+" "+") with true. cbv iota.
      apply Z.ltb_ge in Eneg. rewrite read_pad6 by lia. repeat f_equal; lia.
Qed.

Lemma civil_from_days_year (z : Z) :
  -100000000 <= z <= 100000000 ->
  -1000000 < fst (fst (civil_from_days z)) < 1000000.
Proof.
  intros H. unfold civil_from_days.
  set (doe := (z + 719468) mod 146097).
  assert (Hdoe : 0 <= doe < 146097) by (unfold doe; apply Z.mod_pos_bound; lia).
  fold (year_of_era doe). destruct (year_of_era_spec Hdoe) as [Hy _].
  match goal with |- context [if ?b then _ else _] => destruct b end;
    cbn [fst]; Z.div_mod_to_equations; lia.
Qed.

(** The date text of a JavaScript time value reads back as the civil date of
    its day. *)
Lemma read_date_iso_date (ms : Z) :
  -8640000000000000 <= ms <= 8640000000000000 ->
  read_date (iso_date ms) = Some (civil_from_days (ms / 86400000)).
Proof.
  intros H. unfold iso_date.
  assert (Hz : -100000000 <= ms / 86400000 <= 100000000)
    by (Z.div_mod_to_equations; lia).
  pose proof (civil_from_days_year Hz) as Hyr.
  pose proof (civil_from_days_spec (ms / 86400000)) as Hs.
  destruct (civil_from_days (ms / 86400000)) as [[y m] d]. cbn [fst] in Hyr.
  destruct Hs as [[Hm Hd] _].
  assert (Hd31 : days_in_month y m <= 31).
  { unfold days_in_month. repeat match goal with |- context [if ?b then _ else _] =>
      destruct b end; lia. }
  unfold read_date. rewrite read_year_iso_year by assumption.
  change ("-" ++ pad2 m ++ "-" ++ pad2 d) with (String "-" (pad2 m ++ String "-" (pad2 d))).
  cbn [expect]. change (Ascii.eqb "-" "-") with true. cbv iota.
  rewrite read_pad2 by lia. cbn [expect]. change (Ascii.eqb "-" "-") with true. cbv iota.
  replace (pad2 d) with (pad2 d ++ "") by (unfold pad2; reflexivity).
  rewrite read_pad2 by lia. cbn [String.eqb]. repeat f_equal; lia.
Qed.

Section Spreadsheet.

Variable rt : runtime.

(** C8: in every reachable state the export is a worksheet with the columns
    Date, Description, Amount, Category, Campaign and one row per persisted
    expense, in the order in which the table is read; a row carries the
    expense's description, amount and category, the name of its campaign, or
    "N/A" when it has none, and as Date a text that reads as the year, month
    and day of the calendar date lying as many days after 1 January 1970 as
    the creation time holds whole days (for a creation time in the range of
    a JavaScript Date). *)
Theorem exportExpenses_rows (e : env) (req : request) (st : db) :
  reachable rt st ->
  exists w l,
    exportExpenses e req st =
      (st, {| status := 200;
              res_headers :=
                [("Content-Type",
                  "application/vnd.openxmlformats-officedocument.spreadsheetml.sheet");
                 ("Content-Disposition", "attachment; filename=expenses.xlsx")];
              body := PWorkbook w |}) /\
    map header (ws_columns w) = ["Date"; "Description"; "Amount"; "Category"; "Campaign"] /\
    Permutation l (expenses st) /\
    Forall2 (fun x r =>
               (-8640000000000000 <= exp_createdAt x <= 8640000000000000 ->
                exists y m d,
                  read_date (row_date r) = Some (y, m, d) /\ valid_date y m d /\
                  days_from_civil y m d = exp_createdAt x / 86400000) /\
               row_description r = exp_description x /\
               row_amount r = exp_amount x /\
               row_category r = exp_category x /\
               match exp_campaignId x with
               | Some i => exists c, In c (campaigns st) /\ cam_id c = i /\
                                     row_campaign r = cam_name c
               | None => row_campaign r = "N/A"
               end)
            l (ws_rows w).
Proof.
  intros Hreach. apply reachable_consistent in Hreach.
  unfold exportExpenses. rewrite fold_addRow.
  set (l := heap_scan (scan e "expenses") (expenses st)).
  assert (Hp : Permutation l (expenses st)) by apply heap_scan_perm.
  eexists. exists l. split; [reflexivity|]. split; [reflexivity|].
  split; [exact Hp|].
  change (Forall2 ?P l (ws_rows _))
    with (Forall2 P l (map export_row (map (include_campaign st) l))).
  destruct Hreach as [_ _ H3 _ _ H6]. rewrite map_map.
  assert (H3' : Forall (fun x => ref_ok cam_id (exp_campaignId x) (campaigns st) = true) l)
    by (eapply Permutation_Forall; [symmetry; exact Hp|exact H3]).
  clear Hp H3. induction l as [|x l IH]; [constructor|].
  inversion H3' as [|? ? Hx Hl]; subst. constructor; [|now apply IH].
  unfold export_row, include_campaign.
  cbn [row_date row_description row_amount row_category row_campaign
       ewc_expense ewc_campaign].
  rewrite toISOString_date. split.
  { intros Hrange. rewrite read_date_iso_date by exact Hrange.
    pose proof (civil_from_days_spec (exp_createdAt x / 86400000)) as Hs.
    destruct (civil_from_days (exp_createdAt x / 86400000)) as [[y m] d].
    exists y, m, d. split; [reflexivity|exact Hs]. }
  repeat (split; [reflexivity|]).
  apply campaign_of_consistent in Hx. destruct (exp_campaignId x) as [i|].
  - destruct Hx as [c [Hc [Hin Hid]]]. exists c. split; [assumption|].
    split; [assumption|]. rewrite Hc. simpl.
    rewrite Forall_forall in H6. specialize (H6 c Hin).
    apply String.eqb_neq in H6. now rewrite H6.
  - now rewrite Hx.
Qed.

End Spreadsheet.

(** ** Referential actions *)

Lemma Forall2_map_same (A : Type) (P : A -> A -> Prop) (f : A -> A) (l : list A) :
  (forall x, P x (f x)) -> Forall2 P l (map f l).
Proof. intros H. induction l; simpl; constructor; auto. Qed.

Lemma in_filter_ne (A : Type) (id_of : A -> string) (i : string) (l : list A) (x : A) :
  In x (filter (fun r => negb (String.eqb (id_of r) i)) l) <-> In x l /\ id_of x <> i.
Proof.
  rewrite filter_In, negb_true_iff, String.eqb_neq. reflexivity.
Qed.

Section Referential.

Variable rt : runtime.

(** C9: deleting a campaign keeps every donation and expense, with its
    campaignId null if it named that campaign and unchanged otherwise;
    deleting a donor removes exactly the donations that name it; and in every
    reachable state, as after either deletion, each donation names a
    persisted donor. *)
Theorem referential_actions (st : db) (i : string) :
  reachable rt st ->
  Forall2 (fun d d' =>
             don_id d' = don_id d /\ don_amount d' = don_amount d /\
             don_donorId d' = don_donorId d /\
             don_createdAt d' = don_createdAt d /\ don_updatedAt d' = don_updatedAt d /\
             don_campaignId d' =
               if refers (don_campaignId d) i then None else don_campaignId d)
          (donations st) (donations (campaign_delete i st)) /\
  Forall2 (fun x x' =>
             exp_id x' = exp_id x /\ exp_description x' = exp_description x /\
             exp_amount x' = exp_amount x /\ exp_category x' = exp_category x /\
             exp_createdAt x' = exp_createdAt x /\ exp_updatedAt x' = exp_updatedAt x /\
             exp_campaignId x' =
               if refers (exp_campaignId x) i then None else exp_campaignId x)
          (expenses st) (expenses (campaign_delete i st)) /\
  (forall c, In c (campaigns (campaign_delete i st)) <-> In c (campaigns st) /\ cam_id c <> i) /\
  (forall d, In d (donations (donor_delete i st)) <->
             In d (donations st) /\ don_donorId d <> i) /\
  (forall n, In n (donors (donor_delete i st)) <-> In n (donors st) /\ dnr_id n <> i) /\
  (forall st', st' = st \/ st' = campaign_delete i st \/ st' = donor_delete i st ->
     forall d, In d (donations st') ->
       exists n, In n (donors st') /\ dnr_id n = don_donorId d).
Proof.
  intros Hreach. split; [|split; [|split; [|split; [|split]]]].
  - apply Forall2_map_same. intros d. unfold detach_donation.
    destruct (refers (don_campaignId d) i); simpl; auto 10.
  - apply Forall2_map_same. intros x. unfold detach_expense.
    destruct (refers (exp_campaignId x) i); simpl; auto 10.
  - intros c. apply (in_filter_ne cam_id).
  - intros d. apply (in_filter_ne don_donorId).
  - intros n. apply (in_filter_ne dnr_id).
  - intros st' Hst' d Hd.
    assert (Hr : reachable rt st').
    { destruct Hst' as [ -> | [ -> | -> ] ]; [assumption| |];
        (eapply reachable_step; [exact Hreach|constructor]). }
    apply reachable_consistent in Hr. destruct Hr as [H1 _ _ _ _ _].
    rewrite Forall_forall in H1. now apply has_id_true, H1.
Qed.

End Referential.

(** ** Authentication middleware and routing *)

Section Routing.

Variable rt : runtime.

Lemma protected_stack (r : route) :
  In r (router rt) \/ In r (app rt) ->
  r_path r <> "/auth/login" -> r_path r <> "/api/auth/login" ->
  run_route r = authenticateToken rt (r_handler r).
Proof.
  intros [H|H] H1 H2; simpl in H;
    repeat (destruct H as [<-|H]; [try reflexivity; simpl in *; congruence|]);
    contradiction.
Qed.

Lemma authenticateToken_absent (next : handler) (e : env) (req : request) (st : db) :
  lookup "authorization" (req_headers req) = None ->
  authenticateToken rt next e req st =
    (st, json_response 401 (PError "Access token required" None)).
Proof. intros H. unfold authenticateToken, header_token. now rewrite H. Qed.

Lemma header_token_second (req : request) (header scheme token : string)
    (rest : list string) :
  lookup "authorization" (req_headers req) = Some header ->
  split " " header = scheme :: token :: rest ->
  header_token req = Some token.
Proof.
  intros H Hs. unfold header_token. rewrite H.
  destruct (String.eqb header "") eqn:E.
  - apply String.eqb_eq in E. subst. discriminate.
  - now rewrite Hs.
Qed.

Lemma authenticateToken_invalid (next : handler) (e : env) (req : request) (st : db)
    (header scheme token : string) (rest : list string) :
  lookup "authorization" (req_headers req) = Some header ->
  split " " header = scheme :: token :: rest -> token <> "" ->
  jwt_verify rt token (JWT_SECRET rt) (now e) = None ->
  authenticateToken rt next e req st = (st, json_response 403 (PError "Invalid token" None)).
Proof.
  intros H Hs Hne Hv. unfold authenticateToken.
  rewrite (header_token_second _ H Hs).
  apply String.eqb_neq in Hne. now rewrite Hne, Hv.
Qed.

Lemma authenticateToken_valid (next : handler) (e : env) (req : request) (st : db)
    (header scheme token : string) (rest : list string) (user : claims) :
  lookup "authorization" (req_headers req) = Some header ->
  split " " header = scheme :: token :: rest -> token <> "" ->
  jwt_verify rt token (JWT_SECRET rt) (now e) = Some user ->
  authenticateToken rt next e req st = next e (set_user req user) st.
Proof.
  intros H Hs Hne Hv. unfold authenticateToken.
  rewrite (header_token_second _ H Hs).
  apply String.eqb_neq in Hne. now rewrite Hne, Hv.
Qed.

(** C10: on every route but the login route of either table, a request
    without an Authorization header is answered 401, and one whose header has
    a non-empty second space-separated segment (whatever the first segment
    is) that fails verification is answered 403; in both cases the store is
    unchanged and the answer is the same for every handler behind the
    middleware, which therefore does not run. *)
Theorem authenticateToken_rejects (r : route) (e : env) (req : request) (st : db) :
  In r (router rt) \/ In r (app rt) ->
  r_path r <> "/auth/login" -> r_path r <> "/api/auth/login" ->
  (lookup "authorization" (req_headers req) = None ->
     run_route r e req st =
       (st, json_response 401 (PError "Access token required" None)) /\
     forall next, authenticateToken rt next e req st =
       (st, json_response 401 (PError "Access token required" None))) /\
  (forall header scheme token rest,
     lookup "authorization" (req_headers req) = Some header ->
     split " " header = scheme :: token :: rest -> token <> "" ->
     jwt_verify rt token (JWT_SECRET rt) (now e) = None ->
     run_route r e req st = (st, json_response 403 (PError "Invalid token" None)) /\
     forall next, authenticateToken rt next e req st =
       (st, json_response 403 (PError "Invalid token" None))).
Proof.
  intros Hr H1 H2. rewrite (protected_stack Hr H1 H2). split.
  - intros H. split; [|intros next]; now apply authenticateToken_absent.
  - intros header scheme token rest H Hs Hne Hv.
    split; [|intros next]; eapply authenticateToken_invalid; eassumption.
Qed.

(** C1 (what the code does): neither route table has a route for PUT or
    DELETE, so a request to update or delete an expense reaches no handler:
    it is answered with the router's 404 and the store, the expense
    included, is left as it was. *)
Theorem expense_update_delete_unrouted (e : env) (req : request) (st : db) :
  req_method req = PUT \/ req_method req = DELETE ->
  dispatch rt (router rt) e req st = (st, no_route) /\
  dispatch rt (app rt) e req st = (st, no_route).
Proof.
  intros [H|H]; unfold dispatch; rewrite H; split; reflexivity.
Qed.

End Routing.

(** ** Create handlers: failures *)

Section CreateFailures.

Variable rt : runtime.

Ltac store_failure H1 H2 :=
  cbv beta delta [createExpense createDonation createCampaign createDonor
    createBeneficiary post_api_expenses post_api_donations post_api_campaigns
    post_api_donors post_api_beneficiaries bind];
  rewrite H1, H2; split; reflexivity.

(** C2 (what the code does): when the input passes the schema and the insert
    fails in the store, each create controller answers 400, with the
    "Invalid ... data" message and no details, while the create handler of
    the standalone server file answers 500; neither changes the store. *)
Theorem create_store_failure_status (e : env) (req : request) (st : db) :
  (forall data c,
     expenseSchema_parse (req_body req) = Ok data ->
     expense_create e data st = Throw (PrismaError c) ->
     createExpense e req st =
       (st, json_response 400 (PError "Invalid expense data" None)) /\
     post_api_expenses e req st =
       (st, json_response 500 (PError "Failed to create expense" None))) /\
  (forall data c,
     donationSchema_parse (req_body req) = Ok data ->
     donation_create e data st = Throw (PrismaError c) ->
     createDonation e req st =
       (st, json_response 400 (PError "Invalid donation data" None)) /\
     post_api_donations e req st =
       (st, json_response 500 (PError "Failed to create donation" None))) /\
  (forall data c,
     campaignSchema_parse (req_body req) = Ok data ->
     campaign_create e data st = Throw (PrismaError c) ->
     createCampaign e req st =
       (st, json_response 400 (PError "Invalid campaign data" None)) /\
     post_api_campaigns e req st =
       (st, json_response 500 (PError "Failed to create campaign" None))) /\
  (forall data c,
     donorSchema_parse rt (req_body req) = Ok data ->
     donor_create e data st = Throw (PrismaError c) ->
     createDonor rt e req st =
       (st, json_response 400 (PError "Invalid donor data" None)) /\
     post_api_donors rt e req st =
       (st, json_response 500 (PError "Failed to create donor" None))) /\
  (forall data c,
     beneficiarySchema_parse (req_body req) = Ok data ->
     beneficiary_create e data st = Throw (PrismaError c) ->
     createBeneficiary e req st =
       (st, json_response 400 (PError "Invalid beneficiary data" None)) /\
     post_api_beneficiaries e req st =
       (st, json_response 500 (PError "Failed to create beneficiary" None))).
Proof.
  split; [|split; [|split; [|split]]]; intros data c H1 H2; store_failure H1 H2.
Qed.

Lemma in_issues_middle (a b : list ZodIssue) (i : ZodIssue) : In i (a ++ [i] ++ b).
Proof. apply in_or_app. right. now left. Qed.

Lemma expenseSchema_parse_nonpositive (fs : list (string * json)) (q : number) :
  lookup "amount" fs = Some (JNum q) -> SFleb q zero = true ->
  exists l, expenseSchema_parse (JObj fs) = Throw (ZodError l) /\
            In (mk_issue too_small "amount") l.
Proof.
  intros H Hq. unfold expenseSchema_parse. rewrite H, (z_number_nonpositive _ q Hq).
  destruct (z_string_min1 "description" _); destruct (z_string_min1 "category" _);
    destruct (z_optional z_string "campaignId" _);
    (eexists; split; [reflexivity|apply in_issues_middle]).
Qed.

Lemma donationSchema_parse_nonpositive (fs : list (string * json)) (q : number) :
  lookup "amount" fs = Some (JNum q) -> SFleb q zero = true ->
  exists l, donationSchema_parse (JObj fs) = Throw (ZodError l) /\
            In (mk_issue too_small "amount") l.
Proof.
  intros H Hq. unfold donationSchema_parse. rewrite H, (z_number_nonpositive _ q Hq).
  destruct (z_string "donorId" _); destruct (z_optional z_string "campaignId" _);
    (eexists; split; [reflexivity|apply (in_issues_middle [])]).
Qed.

Lemma campaignSchema_parse_nonpositive (fs : list (string * json)) (q : number) :
  lookup "targetAmount" fs = Some (JNum q) -> SFleb q zero = true ->
  exists l, campaignSchema_parse (JObj fs) = Throw (ZodError l) /\
            In (mk_issue too_small "targetAmount") l.
Proof.
  intros H Hq. unfold campaignSchema_parse. rewrite H.
  replace (z_optional z_number_positive "targetAmount" (Some (JNum q)))
    with (@inr (option number) _ [mk_issue too_small "targetAmount"])
    by (unfold z_optional; now rewrite (z_number_nonpositive _ q Hq)).
  destruct (z_string_min1 "name" _); destruct (z_optional z_string "description" _);
    destruct (z_status_default "status" _);
    (eexists; split; [reflexivity|]); rewrite app_assoc; apply in_issues_middle.
Qed.

Ltac rejected Hb Hp :=
  cbv beta delta [createExpense createDonation createCampaign post_api_expenses
    post_api_donations post_api_campaigns bind];
  rewrite Hb, Hp; do 2 eexists; split; [reflexivity|assumption].

(** C4: a create request for an expense or a donation whose amount is a
    number not above zero, or for a campaign whose targetAmount is, is
    answered 400 with the schema's issues, among them "too small" at that
    field, and leaves the store unchanged. *)
Theorem create_rejects_nonpositive_amount (e : env) (req : request) (st : db)
    (fs : list (string * json)) (q : number) :
  req_body req = JObj fs -> SFleb q zero = true ->
  (lookup "amount" fs = Some (JNum q) ->
     forall h, In h [createExpense; post_api_expenses; createDonation; post_api_donations] ->
       exists error issues,
         h e req st = (st, json_response 400 (PError error (Some issues))) /\
         In (mk_issue too_small "amount") issues) /\
  (lookup "targetAmount" fs = Some (JNum q) ->
     forall h, In h [createCampaign; post_api_campaigns] ->
       exists error issues,
         h e req st = (st, json_response 400 (PError error (Some issues))) /\
         In (mk_issue too_small "targetAmount") issues).
Proof.
  intros Hb Hq. split; intros Ha h Hh.
  - destruct (expenseSchema_parse_nonpositive _ Ha Hq) as [l1 [Hp1 Hi1]].
    destruct (donationSchema_parse_nonpositive _ Ha Hq) as [l2 [Hp2 Hi2]].
    simpl in Hh. destruct Hh as [<-|[<-|[<-|[<-|[]]]]];
      first [rejected Hb Hp1 | rejected Hb Hp2].
  - destruct (campaignSchema_parse_nonpositive _ Ha Hq) as [l [Hp Hi]].
    simpl in Hh. destruct Hh as [<-|[<-|[]]]; rejected Hb Hp.
Qed.

End CreateFailures.

(** ** Login *)

Lemma authSchema_parse_valid (fs : list (string * json)) (u k : string) :
  lookup "username" fs = Some (JStr u) -> lookup "accessKey" fs = Some (JStr k) ->
  u <> "" -> k <> "" ->
  authSchema_parse (JObj fs) = Ok {| au_username := u; au_accessKey := k |}.
Proof.
  intros Hu Hk Hu' Hk'. unfold authSchema_parse, z_string_min1. rewrite Hu, Hk. simpl.
  apply String.eqb_neq in Hu', Hk'. now rewrite Hu', Hk'.
Qed.

Lemma authSchema_parse_empty (fs : list (string * json)) (u k : string) :
  lookup "username" fs = Some (JStr u) -> lookup "accessKey" fs = Some (JStr k) ->
  u = "" \/ k = "" ->
  exists l, authSchema_parse (JObj fs) = Throw (ZodError l).
Proof.
  intros Hu Hk H. unfold authSchema_parse, z_string_min1. rewrite Hu, Hk. simpl.
  destruct H as [-> | ->]; simpl.
  - destruct (String.eqb k ""); eexists; reflexivity.
  - destruct (String.eqb u ""); eexists; reflexivity.
Qed.

Lemma authSchema_parse_throw (body : json) (err : exn) :
  authSchema_parse body = Throw err -> exists l, err = ZodError l.
Proof.
  unfold authSchema_parse, not_an_object.
  destruct body as [| | | | |fs]; try (intros H; injection H as <-; eauto).
  destruct (z_string_min1 "username" _); destruct (z_string_min1 "accessKey" _);
    intros H; try discriminate; injection H as <-; eauto.
Qed.

Lemma find_credentials_in (u k : string) (l : list (string * string)) :
  In (u, k) l ->
  exists p, find (fun c => String.eqb (fst c) u && String.eqb (snd c) k) l = Some p.
Proof.
  induction l as [|[u' k'] l IH]; simpl; [contradiction|].
  intros [H|H].
  - injection H as -> ->. rewrite !String.eqb_refl. simpl. eauto.
  - destruct (String.eqb u' u && String.eqb k' k); eauto.
Qed.

Lemma find_credentials_out (u k : string) (l : list (string * string)) :
  ~ In (u, k) l ->
  find (fun c => String.eqb (fst c) u && String.eqb (snd c) k) l = None.
Proof.
  induction l as [|[u' k'] l IH]; simpl; [reflexivity|].
  intros H. destruct (String.eqb u' u && String.eqb k' k) eqn:E.
  - apply andb_true_iff in E. destruct E as [E1 E2].
    apply String.eqb_eq in E1, E2. subst. exfalso. apply H. now left.
  - apply IH. intros Hin. apply H. now right.
Qed.

Section Login.

Variable rt : runtime.

Hypothesis lawful : jwt_lawful rt.

Lemma bearer_split (c : claims) (k : string) :
  split " " ("Bearer " ++ jwt_encode rt c k) = ["Bearer"; jwt_encode rt c k].
Proof.
  destruct lawful as [_ Hc]. destruct (Hc c k) as [_ Hs].
  change ("Bearer " ++ jwt_encode rt c k)
    with ("Bearer" ++ String " " (jwt_encode rt c k)).
  rewrite split_app_sep by reflexivity. now rewrite (split_no_sep _ _ Hs).
Qed.

Lemma jwt_verify_sign (u secret : string) (issued ms : Z) :
  jwt_verify rt (jwt_sign rt u secret issued) secret ms =
    if issued / 1000 + 86400 <=? ms / 1000 then None
    else Some {| cl_username := u; cl_iat := issued / 1000;
                 cl_exp := issued / 1000 + 86400 |}.
Proof.
  destruct lawful as [Hd _]. unfold jwt_verify, jwt_sign. now rewrite Hd.
Qed.

(** C3 (amended): login answers 400 when the body fails the schema, in
    particular when the user name or the access key is the empty string;
    401 for every pair of non-empty strings outside the allow-list; and for a
    pair of the allow-list 200 with the user name and a token which, sent as
    "Bearer <token>", passes the middleware with that user name while the
    clock reads fewer than 86400 whole seconds past the second of issue, and
    is answered 403 from then on. *)
Theorem login_spec (e : env) (req : request) (st : db) :
  (forall err, authSchema_parse (req_body req) = Throw err ->
     exists issues,
       login rt e req st =
         (st, json_response 400 (PError "Invalid login data" (Some issues)))) /\
  (forall fs u k,
     req_body req = JObj fs ->
     lookup "username" fs = Some (JStr u) -> lookup "accessKey" fs = Some (JStr k) ->
     (u = "" \/ k = "" ->
        exists issues,
          login rt e req st =
            (st, json_response 400 (PError "Invalid login data" (Some issues)))) /\
     (u <> "" -> k <> "" -> ~ In (u, k) validCredentials ->
        login rt e req st = (st, json_response 401 (PError "Invalid credentials" None))) /\
     (In (u, k) validCredentials ->
        let token := jwt_sign rt u (JWT_SECRET rt) (now e) in
        login rt e req st = (st, json_response 200 (PLogin token u)) /\
        forall next e' req' st',
          lookup "authorization" (req_headers req') = Some ("Bearer " ++ token) ->
          (now e' / 1000 < now e / 1000 + 86400 ->
             authenticateToken rt next e' req' st' =
               next e' (set_user req' {| cl_username := u; cl_iat := now e / 1000;
                                         cl_exp := now e / 1000 + 86400 |}) st') /\
          (now e / 1000 + 86400 <= now e' / 1000 ->
             authenticateToken rt next e' req' st' =
               (st', json_response 403 (PError "Invalid token" None))))).
Proof.
  split.
  - intros err H. destruct (authSchema_parse_throw _ H) as [l ->].
    unfold login. rewrite H. simpl. eauto.
  - intros fs u k Hb Hu Hk. split; [|split].
    + intros He. destruct (authSchema_parse_empty _ Hu Hk He) as [l Hl].
      unfold login. rewrite Hb, Hl. simpl. eauto.
    + intros Hu' Hk' Hout. unfold login.
      rewrite Hb, (authSchema_parse_valid _ Hu Hk Hu' Hk').
      cbn [au_username au_accessKey].
      now rewrite (find_credentials_out _ _ _ Hout).
    + intros Hin token.
      assert (Hne : u <> "" /\ k <> "").
      { simpl in Hin. destruct Hin as [H|[H|[]]]; injection H as <- <-;
          split; discriminate. }
      split.
      * unfold login. rewrite Hb, (authSchema_parse_valid _ Hu Hk (proj1 Hne) (proj2 Hne)).
        cbn [au_username au_accessKey].
        destruct (find_credentials_in _ _ _ Hin) as [p Hp]. now rewrite Hp.
      * intros next e' req' st' Hh.
        assert (Htok : token <> "") by (destruct lawful as [_ Hc]; apply Hc).
        pose proof (jwt_verify_sign u (JWT_SECRET rt) (now e) (now e')) as Hv.
        fold token in Hv. split; intros Ht.
        -- destruct (now e / 1000 + 86400 <=? now e' / 1000) eqn:E;
             [apply Z.leb_le in E; lia|].
           eapply authenticateToken_valid;
             [exact Hh | apply bearer_split | exact Htok | exact Hv].
        -- apply Z.leb_le in Ht. rewrite Ht in Hv.
           eapply authenticateToken_invalid;
             [exact Hh | apply bearer_split | exact Htok | exact Hv].
Qed.

End Login.

(** ** Create then list *)




Section CreateThenList.

Variable rt : runtime.




End CreateThenList.

(** ** The reference runtime satisfies the token laws *)

Lemma dec_pos_enc (p : positive) (r : string) : dec_pos (enc_pos p ++ r) = Some (p, r).
Proof. induction p as [p IH|p IH|]; simpl; [now rewrite IH|now rewrite IH|reflexivity]. Qed.

Lemma dec_Z_enc (z : Z) (r : string) : dec_Z (enc_Z z ++ r) = Some (z, r).
Proof. destruct z as [|p|p]; simpl; [reflexivity| |]; now rewrite dec_pos_enc. Qed.

Lemma is_one_bit (b : bool) : is_one (bit b) = b.
Proof. now destruct b. Qed.

Lemma bit_not_marker (b : bool) :
  Ascii.eqb (bit b) "e" = false /\ Ascii.eqb (bit b) "c" = false /\
  Ascii.eqb (bit b) " " = false.
Proof. now destruct b. Qed.

Lemma enc_char_app (c : ascii) (s r : string) : enc_char c s ++ r = enc_char c (s ++ r).
Proof. now destruct c. Qed.

Lemma dec_str_enc (s r : string) : dec_str (enc_str s ++ r) = Some (s, r).
Proof.
  induction s as [|c s IH]; [reflexivity|].
  simpl enc_str. rewrite enc_char_app.
  destruct c as [b0 b1 b2 b3 b4 b5 b6 b7]. unfold enc_char.
  cbn [dec_str Ascii.eqb Bool.eqb andb]. rewrite IH, !is_one_bit. reflexivity.
Qed.

Lemma enc_pos_compact (p : positive) : contains " " (enc_pos p) = false.
Proof. induction p; simpl; auto. Qed.

Lemma enc_Z_compact (z : Z) : contains " " (enc_Z z) = false.
Proof. destruct z; simpl; auto using enc_pos_compact. Qed.

Lemma enc_str_compact (s : string) : contains " " (enc_str s) = false.
Proof.
  induction s as [|c s IH]; [reflexivity|].
  destruct c as [b0 b1 b2 b3 b4 b5 b6 b7]. simpl enc_str. unfold enc_char.
  rewrite !contains_String, IH.
  repeat match goal with
         | |- context [Ascii.eqb (bit ?b) " "] =>
             rewrite (proj2 (proj2 (bit_not_marker b)))
         end.
  reflexivity.
Qed.

Lemma ref_runtime_lawful : jwt_lawful ref_runtime.
Proof.
  split; intros c k; simpl; unfold ref_encode.
  - unfold ref_decode. rewrite dec_Z_enc, dec_Z_enc, dec_str_enc.
    replace (enc_str k) with (enc_str k ++ "") by (induction (enc_str k); simpl; congruence).
    rewrite dec_str_enc. simpl. rewrite String.eqb_refl. now destruct c.
  - split.
    + destruct (cl_iat c); discriminate.
    + now rewrite !contains_app, !enc_Z_compact, !enc_str_compact.
Qed.

(** ** The sample session *)

Lemma demo_db_reachable : reachable ref_runtime demo_db.
Proof.
  unfold demo_db, demo_db3, demo_db2, demo_db1.
  repeat (eapply reachable_step; [|apply step_app]). apply reachable_empty.
Qed.

Lemma demo_cents_db_reachable : reachable ref_runtime demo_cents_db.
Proof.
  unfold demo_cents_db, demo_cents_db2, demo_cents_db1.
  repeat (eapply reachable_step; [|apply step_app]). apply reachable_empty.
Qed.

Lemma demo_huge_db_reachable : reachable ref_runtime demo_huge_db.
Proof.
  unfold demo_huge_db, demo_huge_db1, demo_cents_db1.
  repeat (eapply reachable_step; [|apply step_app]). apply reachable_empty.
Qed.

Lemma getDashboardStats_totals_witness :
  (reachable ref_runtime demo_cents_db /\
   exists ac rd,
     getDashboardStats (demo_env "" 50) (demo_request GET "/api/dashboard/stats" JNull)
                       demo_cents_db
       = (demo_cents_db,
          json_response 200
            (PStats (S754_finite false 5404319552844596 (-54)) (S754_zero false) ac rd))) /\
  (reachable ref_runtime demo_huge_db /\
   getDashboardStats (demo_env "" 50) (demo_request GET "/api/dashboard/stats" JNull)
                     demo_huge_db
     = (demo_huge_db,
        json_response 500 (PError "Failed to fetch dashboard statistics" None))).
Proof.
  split; (split; [first [exact demo_cents_db_reachable|exact demo_huge_db_reachable]|]).
  - destruct (getDashboardStats_totals (demo_env "" 50)
                (demo_request GET "/api/dashboard/stats" JNull) demo_cents_db_reachable)
      as (ds & xs & Pd & Px & _ & H & _).
    assert (Ex : map exp_amount (expenses demo_cents_db) = [])
      by (vm_compute; reflexivity).
    rewrite Ex in Px. apply Permutation_sym, Permutation_nil in Px. subst xs.
    assert (Ed : map don_amount (donations demo_cents_db)
                 = [S754_finite false 7205759403792794 (-56);
                    S754_finite false 7205759403792794 (-55)])
      by (vm_compute; reflexivity).
    rewrite Ed in Pd. apply Permutation_sym, Permutation_length_2_inv in Pd.
    destruct Pd as [-> | ->]; apply H; intros C; vm_compute in C; discriminate C.
  - destruct (getDashboardStats_totals (demo_env "" 50)
                (demo_request GET "/api/dashboard/stats" JNull) demo_huge_db_reachable)
      as (ds & xs & Pd & _ & _ & _ & H & _).
    apply H. left.
    assert (Ed : map don_amount (donations demo_huge_db)
                 = [S754_finite false 5010420900022432 971;
                    S754_finite false 5010420900022432 971])
      by (vm_compute; reflexivity).
    rewrite Ed in Pd. apply Permutation_sym, Permutation_length_2_inv in Pd.
    destruct Pd as [-> | ->];
      (split; [repeat constructor; discriminate|vm_compute; reflexivity]).
Defined.

(** C5, as stated, fails: after donations of 0.1 and 0.2 the dashboard's
    totalDonations is 0.30000000000000004, which is not the sum of the two
    amounts. *)
Lemma dashboard_total_not_exact_sum :
  ~ (forall (rt : runtime) (e : env) (req : request) (st : db),
       reachable rt st ->
       exists td te ac rd,
         getDashboardStats e req st = (st, json_response 200 (PStats td te ac rd)) /\
         sums_exactly td (map don_amount (donations st)) = true /\
         sums_exactly te (map exp_amount (expenses st)) = true).
Proof.
  intros H.
  destruct (H ref_runtime (demo_env "" 50) (demo_request GET "/api/dashboard/stats" JNull)
              demo_cents_db demo_cents_db_reachable)
    as (td & te & ac & rd & Heq & Hd & _).
  assert (G : getDashboardStats (demo_env "" 50)
                (demo_request GET "/api/dashboard/stats" JNull) demo_cents_db
              = (demo_cents_db,
                 json_response 200
                   (PStats (S754_finite false 5404319552844596 (-54)) zero
                           (count_active demo_cents_db)
                           (map (include_donor_campaign demo_cents_db)
                                (firstn 5 (orderBy_desc don_createdAt
                                                        (donations demo_cents_db)))))))
    by (vm_compute; reflexivity).
  rewrite G in Heq.
  apply (f_equal (fun p => match body (snd p) with
                           | PStats x _ _ _ => x
                           | _ => zero
                           end)) in Heq.
  cbn [snd body json_response] in Heq. subst td.
  vm_compute in Hd. discriminate Hd.
Qed.



Lemma exportExpenses_rows_witness :
  reachable ref_runtime demo_db /\
  exists w r,
    body (snd (exportExpenses (demo_env "" 50)
                 (demo_request GET "/api/export/expenses" JNull) demo_db)) = PWorkbook w /\
    map header (ws_columns w) = ["Date"; "Description"; "Amount"; "Category"; "Campaign"] /\
    ws_rows w = [r] /\ row_description r = "Food" /\
    exists y m d,
      read_date (row_date r) = Some (y, m, d) /\ valid_date y m d /\
      days_from_civil y m d = 19737.
Proof.
  split; [exact demo_db_reachable|].
  destruct (exportExpenses_rows (demo_env "" 50)
              (demo_request GET "/api/export/expenses" JNull) demo_db_reachable)
    as (w & l & H & Hc & Hp & Hr).
  assert (E : expenses demo_db
              = [{| exp_id := "x1"; exp_description := "Food";
                    exp_amount := S754_finite false 8796093022208000 (-44);
                    exp_category := "Food"; exp_campaignId := None;
                    exp_createdAt := 1705276840000; exp_updatedAt := 1705276840000 |}])
    by (vm_compute; reflexivity).
  rewrite E in Hp. apply Permutation_sym, Permutation_length_1_inv in Hp. subst l.
  inversion Hr as [|x r xs rs Hx Hrest Hxs Hrs]. inversion Hrest. subst.
  exists w, r. split; [now rewrite H|]. split; [exact Hc|].
  split; [symmetry; assumption|].
  destruct Hx as (Hd & Hdesc & _). split; [exact Hdesc|].
  cbn [exp_createdAt] in Hd.
  change (1705276840000 / 86400000) with 19737 in Hd. apply Hd. lia.
Defined.

Lemma expense_update_delete_unrouted_witness :
  has_id exp_id "x1" (expenses demo_db) = true /\
  dispatch ref_runtime (app ref_runtime) (demo_env "" 50)
           (demo_request DELETE "/api/expenses/x1" JNull) demo_db = (demo_db, no_route) /\
  dispatch ref_runtime (router ref_runtime) (demo_env "" 50)
           (demo_request PUT "/expenses/x1" demo_expense) demo_db = (demo_db, no_route).
Proof.
  split; [reflexivity|]. split.
  - apply (expense_update_delete_unrouted ref_runtime (demo_env "" 50)
             (demo_request DELETE "/api/expenses/x1" JNull) demo_db).
    right. reflexivity.
  - apply (expense_update_delete_unrouted ref_runtime (demo_env "" 50)
             (demo_request PUT "/expenses/x1" demo_expense) demo_db).
    left. reflexivity.
Defined.

Lemma create_store_failure_status_witness :
  donationSchema_parse demo_orphan_donation =
    Ok {| di_amount := number_of_Z 10; di_donorId := "nobody"; di_campaignId := None |} /\
  createDonation (demo_env "g2" 50) (demo_request POST "/donations" demo_orphan_donation)
                 demo_db
    = (demo_db, json_response 400 (PError "Invalid donation data" None)) /\
  post_api_donations (demo_env "g2" 50)
                     (demo_request POST "/donations" demo_orphan_donation) demo_db
    = (demo_db, json_response 500 (PError "Failed to create donation" None)).
Proof.
  split; [reflexivity|].
  apply (proj1 (proj2 (create_store_failure_status ref_runtime (demo_env "g2" 50)
                         (demo_request POST "/donations" demo_orphan_donation) demo_db))
           {| di_amount := number_of_Z 10; di_donorId := "nobody"; di_campaignId := None |} P2003);
    reflexivity.
Defined.

Lemma create_rejects_nonpositive_amount_witness :
  exists error issues,
    createExpense (demo_env "x2" 50) (demo_request POST "/expenses" demo_free_expense)
                  demo_db
      = (demo_db, json_response 400 (PError error (Some issues))) /\
    In (mk_issue too_small "amount") issues.
Proof.
  refine (proj1 (create_rejects_nonpositive_amount (demo_env "x2" 50)
                   (demo_request POST "/expenses" demo_free_expense) demo_db
                   (number_of_Z 0) eq_refl _) eq_refl createExpense (or_introl eq_refl)).
  reflexivity.
Defined.

(** C3, as stated, fails: a login with an empty user name is outside the
    allow-list and is answered 400, not 401. *)
Lemma login_empty_username_not_401 :
  ~ (forall (rt : runtime) (e : env) (req : request) (st : db) (u k : string),
       req_body req = JObj [("username", JStr u); ("accessKey", JStr k)] ->
       ~ In (u, k) validCredentials ->
       status (snd (login rt e req st)) = 401).
Proof.
  intros H.
  specialize (H ref_runtime (demo_env "" 0)
                (anonymous_request POST "/api/auth/login" demo_empty_username)
                empty_db "" "ray-hope-2024" eq_refl).
  assert (Hout : ~ In ("", "ray-hope-2024") validCredentials)
    by (intros [E|[E|[]]]; discriminate E).
  specialize (H Hout). discriminate H.
Qed.

Lemma login_spec_witness :
  jwt_lawful ref_runtime /\
  login ref_runtime (demo_env "" 0)
        (anonymous_request POST "/api/auth/login" demo_credentials) empty_db
    = (empty_db, json_response 200 (PLogin demo_token "admin")) /\
  authenticateToken ref_runtime getExpenses (demo_env "" 86399)
                    (demo_request GET "/api/expenses" JNull) demo_db
    = getExpenses (demo_env "" 86399)
        (set_user (demo_request GET "/api/expenses" JNull)
           {| cl_username := "admin"; cl_iat := 1705276800; cl_exp := 1705363200 |})
        demo_db /\
  authenticateToken ref_runtime getExpenses (demo_env "" 86400)
                    (demo_request GET "/api/expenses" JNull) demo_db
    = (demo_db, json_response 403 (PError "Invalid token" None)).
Proof.
  split; [exact ref_runtime_lawful|].
  destruct (proj2 (login_spec ref_runtime_lawful (demo_env "" 0)
                     (anonymous_request POST "/api/auth/login" demo_credentials) empty_db)
              _ "admin" "ray-hope-2024" eq_refl eq_refl eq_refl) as [_ [_ H]].
  destruct (H (or_introl eq_refl)) as [Hlogin Hauth].
  split; [exact Hlogin|]. split.
  - apply (Hauth getExpenses (demo_env "" 86399)
             (demo_request GET "/api/expenses" JNull) demo_db eq_refl).
    reflexivity.
  - apply (Hauth getExpenses (demo_env "" 86400)
             (demo_request GET "/api/expenses" JNull) demo_db eq_refl).
    discriminate.
Defined.



Lemma referential_actions_witness :
  reachable ref_runtime demo_db /\
  map don_campaignId (donations demo_db) = [Some "c1"] /\
  Forall2 (fun d d' => don_id d' = don_id d /\ don_campaignId d' = None)
          (donations demo_db) (donations (campaign_delete "c1" demo_db)) /\
  (forall d, In d (donations (donor_delete "d1" demo_db)) -> don_donorId d <> "d1").
Proof.
  split; [exact demo_db_reachable|]. split; [reflexivity|].
  destruct (referential_actions "c1" demo_db_reachable) as (H1 & _).
  destruct (referential_actions "d1" demo_db_reachable) as (_ & _ & _ & H4 & _).
  split.
  - inversion H1 as [|d d' ds ds' Hd Hrest Hds Hds']. inversion Hrest. subst.
    constructor; [|constructor]. destruct Hd as (Hid & _ & _ & _ & _ & Hc).
    split; [exact Hid|exact Hc].
  - intros d Hd. exact (proj2 (proj1 (H4 d) Hd)).
Defined.

Lemma authenticateToken_rejects_witness :
  run_route demo_route (demo_env "x2" 50)
            (anonymous_request POST "/api/expenses" demo_expense) demo_db
    = (demo_db, json_response 401 (PError "Access token required" None)) /\
  run_route demo_route (demo_env "x2" 50) demo_forged_request demo_db
    = (demo_db, json_response 403 (PError "Invalid token" None)).
Proof.
  assert (Hin : In demo_route (router ref_runtime) \/ In demo_route (app ref_runtime))
    by (right; simpl; tauto).
  assert (H1 : r_path demo_route <> "/auth/login") by discriminate.
  assert (H2 : r_path demo_route <> "/api/auth/login") by discriminate.
  split.
  - apply (proj1 (@authenticateToken_rejects ref_runtime demo_route (demo_env "x2" 50)
                    (anonymous_request POST "/api/expenses" demo_expense) demo_db
                    Hin H1 H2)).
    reflexivity.
  - apply (proj2 (@authenticateToken_rejects ref_runtime demo_route (demo_env "x2" 50)
                    demo_forged_request demo_db Hin H1 H2)
             "Token forged" "Token" "forged" [] eq_refl eq_refl).
    + discriminate.
    + reflexivity.
Defined.

(** * Further properties of the backend *)

(** ** A request changes the store only by adding one row *)

Section Outcomes.

Variable rt : runtime.

Lemma authenticateToken_outcome (next : handler) :
  outcome rt next -> outcome rt (authenticateToken rt next).
Proof.
  intros Hn e req st. unfold authenticateToken.
  destruct (header_token req) as [token|]; [|left; split; [reflexivity|discriminate]].
  destruct (String.eqb token ""); [left; split; [reflexivity|discriminate]|].
  destruct (jwt_verify rt token (JWT_SECRET rt) (now e)) as [user|];
    [|left; split; [reflexivity|discriminate]].
  exact (Hn e (set_user req user) st).
Qed.

Lemma reading_outcome (h : handler) :
  (forall e req st, fst (h e req st) = st /\ status (snd (h e req st)) <> 201) ->
  outcome rt h.
Proof. intros H e req st. left. apply H. Qed.

Lemma login_outcome : outcome rt (login rt).
Proof.
  apply reading_outcome. intros e req st. split; [apply login_unchanged|].
  unfold login. destruct (authSchema_parse (req_body req)) as [a|err].
  - destruct (find _ validCredentials); discriminate.
  - destruct (instanceof_ZodError err); discriminate.
Qed.

Ltac store_unchanged :=
  left; unfold catch_create;
  try match goal with
      | |- context [instanceof_ZodError ?x] => destruct (instanceof_ZodError x)
      end;
  (split; [reflexivity|discriminate]).

Ltac create_outcome spec :=
  let Hp := fresh "Hp" in
  intros e req st; cbv beta delta [createExpense createDonation createCampaign
    createDonor createBeneficiary post_api_expenses post_api_donations
    post_api_campaigns post_api_donors post_api_beneficiaries];
  match goal with
  | |- context [bind ?p _] => destruct p as [data|err] eqn:Hp
  end; cbv beta iota delta [bind];
  [ let H := fresh "H" in
    match goal with
    | |- context [match ?c with Ok _ => _ | Throw _ => _ end] =>
        match c with
        | ?f ?e' ?d ?s => destruct (spec e' d s) as [H|[? H]]
        end
    end;
    [ decompose [and] H; clear H;
      match goal with
      | Hc : _ = Ok _ |- _ =>
          rewrite Hc; right; split; [reflexivity|];
          unfold inserts; eauto 10
      end
    | rewrite H; store_unchanged ]
  | store_unchanged ].

Lemma createExpense_outcome : outcome rt createExpense.
Proof. create_outcome expense_create_spec. Qed.

Lemma createDonation_outcome : outcome rt createDonation.
Proof. create_outcome donation_create_spec. Qed.

Lemma createCampaign_outcome : outcome rt createCampaign.
Proof. create_outcome campaign_create_spec. Qed.

Lemma createDonor_outcome : outcome rt (createDonor rt).
Proof. create_outcome donor_create_spec. Qed.

Lemma createBeneficiary_outcome : outcome rt createBeneficiary.
Proof. create_outcome beneficiary_create_spec. Qed.

Lemma post_api_expenses_outcome : outcome rt post_api_expenses.
Proof. create_outcome expense_create_spec. Qed.

Lemma post_api_donations_outcome : outcome rt post_api_donations.
Proof. create_outcome donation_create_spec. Qed.

Lemma post_api_campaigns_outcome : outcome rt post_api_campaigns.
Proof. create_outcome campaign_create_spec. Qed.

Lemma post_api_donors_outcome : outcome rt (post_api_donors rt).
Proof. create_outcome donor_create_spec. Qed.

Lemma post_api_beneficiaries_outcome : outcome rt post_api_beneficiaries.
Proof. create_outcome beneficiary_create_spec. Qed.

End Outcomes.

Section Changes.

Variable rt : runtime.

Lemma authenticateToken_reading (next : handler) :
  (forall e req st, fst (next e req st) = st) ->
  forall e req st, fst (authenticateToken rt next e req st) = st.
Proof.
  intros Hn e req st. unfold authenticateToken.
  destruct (header_token req) as [token|]; [|reflexivity].
  destruct (String.eqb token ""); [reflexivity|].
  destruct (jwt_verify rt token (JWT_SECRET rt) (now e)); [apply Hn|reflexivity].
Qed.

Create HintDb outcomes.

#[local] Hint Resolve authenticateToken_outcome login_outcome createExpense_outcome
  createDonation_outcome createCampaign_outcome createDonor_outcome
  createBeneficiary_outcome post_api_expenses_outcome post_api_donations_outcome
  post_api_campaigns_outcome post_api_donors_outcome
  post_api_beneficiaries_outcome : outcomes.

Lemma route_outcome (r : route) :
  In r (router rt) \/ In r (app rt) -> outcome rt (run_route r).
Proof.
  intros [H|H]; simpl in H;
    repeat (destruct H as [<-|H]; [unfold run_route; simpl|]); try contradiction;
    auto with outcomes;
    apply authenticateToken_outcome; apply reading_outcome; intros e req st;
    first [apply getDashboardStats_unchanged | split; [reflexivity|discriminate]].
Qed.

Lemma dispatch_outcome (routes : list route) :
  routes = router rt \/ routes = app rt -> outcome rt (dispatch rt routes).
Proof.
  intros Hr e req st. unfold dispatch.
  destruct (find _ routes) as [r|] eqn:E; [|left; split; [reflexivity|discriminate]].
  apply find_some in E. apply route_outcome.
  destruct Hr as [-> | ->]; [left|right]; exact (proj1 E).
Qed.

Lemma method_eqb_eq (a b : method) : method_eqb a b = true -> a = b.
Proof. destruct a, b; simpl; congruence. Qed.

Lemma dispatch_not_POST (routes : list route) (e : env) (req : request) (st : db) :
  routes = router rt \/ routes = app rt ->
  req_method req <> POST -> fst (dispatch rt routes e req st) = st.
Proof.
  intros Hr Hm. unfold dispatch.
  destruct (find _ routes) as [r|] eqn:E; [|reflexivity].
  apply find_some in E. destruct E as [Hin Hc].
  apply andb_true_iff in Hc. destruct Hc as [Hc _]. apply method_eqb_eq in Hc.
  destruct Hr as [-> | ->]; simpl in Hin;
    repeat (destruct Hin as [<-|Hin];
            [first [ exfalso; apply Hm; symmetry; exact Hc
                   | apply authenticateToken_reading; intros;
                     first [reflexivity | apply getDashboardStats_unchanged] ]|]);
    contradiction.
Qed.

(** Every way of adding a row, spelled out on the tables. *)
Lemma inserts_appends (e : env) (req : request) (st st' : db) :
  inserts rt e req st st' ->
  exists (cs : list Campaign) (ns : list Donor) (bs : list Beneficiary)
         (ds : list Donation) (xs : list Expense),
    campaigns st' = (campaigns st ++ cs)%list /\ donors st' = (donors st ++ ns)%list /\
    beneficiaries st' = (beneficiaries st ++ bs)%list /\ donations st' = (donations st ++ ds)%list /\
    expenses st' = (expenses st ++ xs)%list /\
    (List.length cs + List.length ns + List.length bs + List.length ds
     + List.length xs = 1)%nat /\
    Forall (fun c => cam_id c = newid e /\ cam_createdAt c = now e) cs /\
    Forall (fun n => dnr_id n = newid e /\ dnr_createdAt n = now e) ns /\
    Forall (fun b => ben_id b = newid e /\ ben_createdAt b = now e) bs /\
    Forall (fun d => don_id d = newid e /\ don_createdAt d = now e) ds /\
    Forall (fun x => exp_id x = newid e /\ exp_createdAt x = now e) xs.
Proof.
  intros [[data [_ H]]|[[data [_ H]]|[[data [_ H]]|[[data [_ H]]|[data [_ H]]]]]].
  - destruct (expense_create_spec e data st) as [[_ [_ Hc]]|[c Hc]];
      rewrite Hc in H; [|discriminate]. injection H as <-.
    exists [], [], [], [], [expense_row e data]. simpl. rewrite !app_nil_r.
    repeat (split; [first [reflexivity|constructor]|]). repeat constructor.
  - destruct (donation_create_spec e data st) as [[_ [_ [_ Hc]]]|[c Hc]];
      rewrite Hc in H; [|discriminate]. injection H as <-.
    exists [], [], [], [donation_row e data], []. simpl. rewrite !app_nil_r.
    repeat (split; [first [reflexivity|constructor; auto]|]). constructor.
  - destruct (campaign_create_spec e data st) as [[_ Hc]|[c Hc]];
      rewrite Hc in H; [|discriminate]. injection H as <-.
    exists [campaign_row e data], [], [], [], []. simpl. rewrite !app_nil_r.
    repeat (split; [first [reflexivity|constructor; auto]|]). constructor.
  - destruct (donor_create_spec e data st) as [[_ Hc]|[c Hc]];
      rewrite Hc in H; [|discriminate]. injection H as <-.
    exists [], [donor_row e data], [], [], []. simpl. rewrite !app_nil_r.
    repeat (split; [first [reflexivity|constructor; auto]|]). constructor.
  - destruct (beneficiary_create_spec e data st) as [[_ Hc]|[c Hc]];
      rewrite Hc in H; [|discriminate]. injection H as <-.
    exists [], [], [beneficiary_row e data], [], []. simpl. rewrite !app_nil_r.
    repeat (split; [first [reflexivity|constructor; auto]|]). constructor.
Qed.

(** X1: whatever the request, either route table leaves every stored row in
    place and appends at most one row over all tables, exactly one when and
    only when it answers 201; the appended row has the generated identifier
    and the clock as creation time; and a request whose method is not POST
    leaves the store as it was. *)
Theorem request_appends_at_most_one_row (routes : list route) (e : env)
    (req : request) (st : db) :
  routes = router rt \/ routes = app rt ->
  (exists (cs : list Campaign) (ns : list Donor) (bs : list Beneficiary)
         (ds : list Donation) (xs : list Expense),
     campaigns (fst (dispatch rt routes e req st)) = (campaigns st ++ cs)%list /\
     donors (fst (dispatch rt routes e req st)) = (donors st ++ ns)%list /\
     beneficiaries (fst (dispatch rt routes e req st)) = (beneficiaries st ++ bs)%list /\
     donations (fst (dispatch rt routes e req st)) = (donations st ++ ds)%list /\
     expenses (fst (dispatch rt routes e req st)) = (expenses st ++ xs)%list /\
     (List.length cs + List.length ns + List.length bs + List.length ds
      + List.length xs)%nat
       = (if (status (snd (dispatch rt routes e req st)) =? 201)%Z then 1 else 0)%nat /\
     Forall (fun c => cam_id c = newid e /\ cam_createdAt c = now e) cs /\
     Forall (fun n => dnr_id n = newid e /\ dnr_createdAt n = now e) ns /\
     Forall (fun b => ben_id b = newid e /\ ben_createdAt b = now e) bs /\
     Forall (fun d => don_id d = newid e /\ don_createdAt d = now e) ds /\
     Forall (fun x => exp_id x = newid e /\ exp_createdAt x = now e) xs) /\
  (req_method req <> POST -> fst (dispatch rt routes e req st) = st).
Proof.
  intros Hr. split; [|now apply dispatch_not_POST].
  destruct (dispatch_outcome Hr e req st) as [[Hst Hs]|[Hs Hi]].
  - rewrite Hst. apply Z.eqb_neq in Hs. rewrite Hs.
    exists [], [], [], [], []. rewrite !app_nil_r.
    repeat (split; [first [reflexivity|constructor]|]). constructor.
  - rewrite Hs. simpl. exact (inserts_appends Hi).
Qed.

End Changes.

(** ** Invariants of the reachable stores *)

Lemma has_id_false (A : Type) (id_of : A -> string) (i : string) (l : list A) :
  has_id id_of i l = false -> ~ In i (map id_of l).
Proof.
  intros H Hin. apply in_map_iff in Hin. destruct Hin as [r [Hr Hin]].
  assert (Ht : has_id id_of i l = true) by (apply has_id_true; eauto).
  congruence.
Qed.

Lemma NoDup_map_snoc (A : Type) (id_of : A -> string) (l : list A) (x : A) :
  NoDup (map id_of l) -> has_id id_of (id_of x) l = false ->
  NoDup (map id_of (l ++ [x])).
Proof.
  intros Hn Hf. rewrite map_app. simpl.
  eapply Permutation_NoDup; [apply Permutation_cons_append|].
  constructor; [now apply has_id_false|assumption].
Qed.

Lemma NoDup_map_filter (A : Type) (id_of : A -> string) (p : A -> bool) (l : list A) :
  NoDup (map id_of l) -> NoDup (map id_of (filter p l)).
Proof.
  induction l as [|x l IH]; simpl; intros H; [constructor|].
  inversion H as [|? ? Hx Hl]; subst. destruct (p x); simpl; [|now apply IH].
  constructor; [|now apply IH].
  intros Hin. apply Hx. apply in_map_iff in Hin. destruct Hin as [y [Hy Hin]].
  apply filter_In in Hin. apply in_map_iff. exists y. tauto.
Qed.

Lemma detach_donation_id (i : string) (l : list Donation) :
  map don_id (map (detach_donation i) l) = map don_id l.
Proof.
  rewrite map_map. apply map_ext. intros d. unfold detach_donation.
  now destruct (refers (don_campaignId d) i).
Qed.

Lemma detach_expense_id (i : string) (l : list Expense) :
  map exp_id (map (detach_expense i) l) = map exp_id l.
Proof.
  rewrite map_map. apply map_ext. intros x. unfold detach_expense.
  now destruct (refers (exp_campaignId x) i).
Qed.

Section Reachable.

Variable rt : runtime.

(** What holds of the empty store and is kept by every insert and by both
    deletions holds of every reachable store. *)
Lemma reachable_invariant (P : db -> Prop) :
  P empty_db ->
  (forall e req st st', P st -> inserts rt e req st st' -> P st') ->
  (forall i st, P st -> P (campaign_delete i st)) ->
  (forall i st, P st -> P (donor_delete i st)) ->
  forall st, reachable rt st -> P st.
Proof.
  intros H0 Hi Hc Hd st. induction 1 as [|st st' _ IH Hs]; [exact H0|].
  destruct Hs as [e req s|e req s|i s|i s]; auto.
  - destruct (@dispatch_outcome rt (router rt) (or_introl eq_refl) e req s)
      as [[-> _]|[_ Hin]]; eauto.
  - destruct (@dispatch_outcome rt (app rt) (or_intror eq_refl) e req s)
      as [[-> _]|[_ Hin]]; eauto.
Qed.

Lemma inserts_unique (e : env) (req : request) (st st' : db) :
  unique_ids st -> inserts rt e req st st' -> unique_ids st'.
Proof.
  intros [H1 H2 H3 H4 H5]
    [[data [_ H]]|[[data [_ H]]|[[data [_ H]]|[[data [_ H]]|[data [_ H]]]]]].
  - destruct (expense_create_spec e data st) as [[Hf [_ Hc]]|[c Hc]];
      rewrite Hc in H; [|discriminate]. injection H as <-.
    constructor; simpl; try assumption. now apply NoDup_map_snoc.
  - destruct (donation_create_spec e data st) as [[Hf [_ [_ Hc]]]|[c Hc]];
      rewrite Hc in H; [|discriminate]. injection H as <-.
    constructor; simpl; try assumption. now apply NoDup_map_snoc.
  - destruct (campaign_create_spec e data st) as [[Hf Hc]|[c Hc]];
      rewrite Hc in H; [|discriminate]. injection H as <-.
    constructor; simpl; try assumption. now apply NoDup_map_snoc.
  - destruct (donor_create_spec e data st) as [[Hf Hc]|[c Hc]];
      rewrite Hc in H; [|discriminate]. injection H as <-.
    constructor; simpl; try assumption. now apply NoDup_map_snoc.
  - destruct (beneficiary_create_spec e data st) as [[Hf Hc]|[c Hc]];
      rewrite Hc in H; [|discriminate]. injection H as <-.
    constructor; simpl; try assumption. now apply NoDup_map_snoc.
Qed.

Lemma reachable_unique (st : db) : reachable rt st -> unique_ids st.
Proof.
  apply reachable_invariant.
  - constructor; constructor.
  - intros e req s s'. apply inserts_unique.
  - intros i s [H1 H2 H3 H4 H5]. constructor; simpl; try assumption.
    + now apply NoDup_map_filter.
    + now rewrite detach_donation_id.
    + now rewrite detach_expense_id.
  - intros i s [H1 H2 H3 H4 H5]. constructor; simpl; try assumption;
      now apply NoDup_map_filter.
Qed.

(** X2: in every reachable store no identifier occurs twice in a table, so
    an identifier names at most one campaign, donor, beneficiary, donation
    and expense. *)
Theorem reachable_ids_unique (st : db) :
  reachable rt st ->
  NoDup (map cam_id (campaigns st)) /\ NoDup (map dnr_id (donors st)) /\
  NoDup (map ben_id (beneficiaries st)) /\ NoDup (map don_id (donations st)) /\
  NoDup (map exp_id (expenses st)).
Proof.
  intros H. destruct (reachable_unique H) as [H1 H2 H3 H4 H5]. auto.
Qed.

Lemma inserts_validated (e : env) (req : request) (st st' : db) :
  validated rt st -> inserts rt e req st st' -> validated rt st'.
Proof.
  intros [H1 H2 H3 H4 H5]
    [[data [Hp H]]|[[data [Hp H]]|[[data [Hp H]]|[[data [Hp H]]|[data [Hp H]]]]]].
  - destruct (expense_create_spec e data st) as [[_ [_ Hc]]|[c Hc]];
      rewrite Hc in H; [|discriminate]. injection H as <-.
    apply expenseSchema_parse_ok in Hp. destruct Hp as [fs Hp]. decompose [and] Hp.
    constructor; simpl; try assumption.
    apply Forall_app. split; [assumption|]. repeat constructor; assumption.
  - destruct (donation_create_spec e data st) as [[_ [_ [_ Hc]]]|[c Hc]];
      rewrite Hc in H; [|discriminate]. injection H as <-.
    apply donationSchema_parse_ok in Hp. destruct Hp as [fs Hp]. decompose [and] Hp.
    constructor; simpl; try assumption.
    apply Forall_app. split; [assumption|]. repeat constructor; assumption.
  - destruct (campaign_create_spec e data st) as [[_ Hc]|[c Hc]];
      rewrite Hc in H; [|discriminate]. injection H as <-.
    apply campaignSchema_parse_ok in Hp. destruct Hp as [fs Hp]. decompose [and] Hp.
    constructor; simpl; try assumption.
    apply Forall_app. split; [assumption|]. constructor; [|constructor]. simpl.
    split; [assumption|]. destruct (ci_targetAmount data); simpl; tauto.
  - destruct (donor_create_spec e data st) as [[_ Hc]|[c Hc]];
      rewrite Hc in H; [|discriminate]. injection H as <-.
    apply donorSchema_parse_ok in Hp. destruct Hp as [fs Hp]. decompose [and] Hp.
    constructor; simpl; try assumption.
    apply Forall_app. split; [assumption|]. constructor; [|constructor]. simpl.
    split; [assumption|]. destruct (ni_email data); tauto.
  - destruct (beneficiary_create_spec e data st) as [[_ Hc]|[c Hc]];
      rewrite Hc in H; [|discriminate]. injection H as <-.
    apply beneficiarySchema_parse_ok in Hp. destruct Hp as [fs Hp]. decompose [and] Hp.
    constructor; simpl; try assumption.
    apply Forall_app. split; [assumption|]. repeat constructor; assumption.
Qed.

Lemma reachable_validated (st : db) : reachable rt st -> validated rt st.
Proof.
  apply reachable_invariant.
  - constructor; constructor.
  - intros e req s s'. apply inserts_validated.
  - intros i s [H1 H2 H3 H4 H5]. constructor; simpl; try assumption.
    + now apply Forall_filter.
    + apply Forall_map. eapply Forall_impl; [|exact H4].
      intros d Hd. unfold detach_donation. now destruct (refers (don_campaignId d) i).
    + apply Forall_map. eapply Forall_impl; [|exact H5].
      intros x Hx. unfold detach_expense. now destruct (refers (exp_campaignId x) i).
  - intros i s [H1 H2 H3 H4 H5]. constructor; simpl; try assumption;
      now apply Forall_filter.
Qed.

(** X3: every stored row satisfies the schema it came through: amounts of
    donations and expenses and target amounts of campaigns are above zero,
    the names of campaigns, donors and beneficiaries and the description and
    category of expenses are non-empty, and a donor's e-mail, when present,
    matches the e-mail pattern. *)
Theorem reachable_rows_validated (st : db) :
  reachable rt st ->
  Forall (fun c => cam_name c <> "" /\ positive_if_present (cam_targetAmount c))
         (campaigns st) /\
  Forall (fun d => dnr_name d <> "" /\
                   match dnr_email d with
                   | Some m => is_email rt m = true
                   | None => True
                   end) (donors st) /\
  Forall (fun b => ben_name b <> "") (beneficiaries st) /\
  Forall (fun d => SFltb zero (don_amount d) = true) (donations st) /\
  Forall (fun x => exp_description x <> "" /\ exp_category x <> "" /\
                   SFltb zero (exp_amount x) = true) (expenses st).
Proof.
  intros H. destruct (reachable_validated H) as [H1 H2 H3 H4 H5]. auto.
Qed.

End Reachable.

(** ** The middleware and the handlers behind it *)

Section Middleware.

Variable rt : runtime.

Lemma handler_reads_body (r : route) (e : env) (req req' : request) (st : db) :
  In r (router rt) \/ In r (app rt) ->
  req_body req = req_body req' ->
  r_handler r e req st = r_handler r e req' st.
Proof.
  intros [H|H] Hb; simpl in H;
    repeat (destruct H as [<-|H];
            [cbv beta iota delta [r_handler login createExpense createDonation
               createCampaign createDonor createBeneficiary post_api_expenses
               post_api_donations post_api_campaigns post_api_donors
               post_api_beneficiaries];
             try rewrite Hb; reflexivity|]);
    contradiction.
Qed.

(** X4: behind the middleware nothing depends on who is authenticated: on
    every protected route, two requests with the same body whose tokens both
    verify, for whatever users and under whatever scheme word, leave the same
    store and get the same answer. *)
Theorem authenticated_user_irrelevant (r : route) (e : env) (req1 req2 : request)
    (st : db) (h1 s1 t1 h2 s2 t2 : string) (rest1 rest2 : list string)
    (u1 u2 : claims) :
  In r (router rt) \/ In r (app rt) ->
  r_path r <> "/auth/login" -> r_path r <> "/api/auth/login" ->
  req_body req1 = req_body req2 ->
  lookup "authorization" (req_headers req1) = Some h1 ->
  split " " h1 = s1 :: t1 :: rest1 -> t1 <> "" ->
  jwt_verify rt t1 (JWT_SECRET rt) (now e) = Some u1 ->
  lookup "authorization" (req_headers req2) = Some h2 ->
  split " " h2 = s2 :: t2 :: rest2 -> t2 <> "" ->
  jwt_verify rt t2 (JWT_SECRET rt) (now e) = Some u2 ->
  run_route r e req1 st = run_route r e req2 st.
Proof.
  intros Hr Hp1 Hp2 Hb Hh1 Hs1 Hn1 Hv1 Hh2 Hs2 Hn2 Hv2.
  rewrite (protected_stack Hr Hp1 Hp2).
  rewrite (@authenticateToken_valid rt (r_handler r) e req1 st h1 s1 t1 rest1 u1
             Hh1 Hs1 Hn1 Hv1).
  rewrite (@authenticateToken_valid rt (r_handler r) e req2 st h2 s2 t2 rest2 u2
             Hh2 Hs2 Hn2 Hv2).
  apply handler_reads_body; assumption.
Qed.

(** X5: a header without a space (a bare token, with no scheme word before
    it) and a header with two spaces after its first word have no usable
    second segment: the middleware answers 401, as for a missing header,
    whatever the token is, and the handler does not run. *)
Theorem authenticateToken_needs_second_segment (next : handler) (e : env)
    (req : request) (st : db) (header : string) :
  lookup "authorization" (req_headers req) = Some header ->
  contains " " header = false \/
  (exists scheme rest, contains " " scheme = false /\
                       header = scheme ++ String " " (String " " rest)) ->
  authenticateToken rt next e req st =
    (st, json_response 401 (PError "Access token required" None)).
Proof.
  intros Hh Hc. unfold authenticateToken, header_token. rewrite Hh.
  destruct (String.eqb header "") eqn:E; [now rewrite E|].
  destruct Hc as [Hc|[scheme [rest [Hc ->]]]].
  - now rewrite (split_no_sep _ _ Hc).
  - rewrite (split_app_sep _ _ _ Hc). reflexivity.
Qed.

Lemma JWT_SECRET_default :
  process_env_JWT_SECRET rt = None \/ process_env_JWT_SECRET rt = Some "" ->
  JWT_SECRET rt = "ray-of-hope-secret-key".
Proof. unfold JWT_SECRET. now intros [-> | ->]. Qed.

(** X6: when the environment gives no signing secret, or an empty one, the
    middleware verifies against the built-in secret: a token made under
    "ray-of-hope-secret-key", for whatever user name (in the allow-list or
    not) and whatever issue time, passes with its claims as the request's
    user until the clock reaches its expiry second, and is answered 403 from
    then on. *)
Theorem authenticateToken_default_secret (next : handler) (e : env) (req : request)
    (st : db) (c : claims) :
  jwt_lawful rt ->
  process_env_JWT_SECRET rt = None \/ process_env_JWT_SECRET rt = Some "" ->
  lookup "authorization" (req_headers req)
    = Some ("Bearer " ++ jwt_encode rt c "ray-of-hope-secret-key") ->
  (now e / 1000 < cl_exp c ->
     authenticateToken rt next e req st = next e (set_user req c) st) /\
  (cl_exp c <= now e / 1000 ->
     authenticateToken rt next e req st =
       (st, json_response 403 (PError "Invalid token" None))).
Proof.
  intros Hl Henv Hh.
  assert (Hv : jwt_verify rt (jwt_encode rt c "ray-of-hope-secret-key") (JWT_SECRET rt)
                 (now e)
               = if cl_exp c <=? now e / 1000 then None else Some c).
  { rewrite (JWT_SECRET_default Henv). unfold jwt_verify.
    now rewrite (proj1 Hl c "ray-of-hope-secret-key"). }
  assert (Hne : jwt_encode rt c "ray-of-hope-secret-key" <> "") by apply (proj2 Hl).
  split; intros Ht.
  - destruct (cl_exp c <=? now e / 1000) eqn:E; [apply Z.leb_le in E; lia|].
    eapply authenticateToken_valid;
      [exact Hh | apply (bearer_split Hl) | exact Hne | exact Hv].
  - apply Z.leb_le in Ht. rewrite Ht in Hv.
    eapply authenticateToken_invalid;
      [exact Hh | apply (bearer_split Hl) | exact Hne | exact Hv].
Qed.

End Middleware.

(** ** The dashboard across changes of the store *)

Lemma count_active_snoc (st : db) (c : Campaign) (cs : list Campaign) :
  List.length (filter (fun c => status_eqb (cam_status c) ACTIVE) (cs ++ [c]))
  = (List.length (filter (fun c => status_eqb (cam_status c) ACTIVE) cs)
     + if status_eqb (cam_status c) ACTIVE then 1 else 0)%nat.
Proof.
  rewrite filter_app, length_app. simpl.
  now destruct (status_eqb (cam_status c) ACTIVE).
Qed.

Ltac created spec :=
  let Hp := fresh "Hp" in
  let H := fresh "H" in
  cbv beta delta [createExpense createDonation createCampaign createDonor
    createBeneficiary post_api_expenses post_api_donations post_api_campaigns
    post_api_donors post_api_beneficiaries];
  match goal with
  | |- context [bind ?p _] => destruct p as [data|err] eqn:Hp
  end; cbv beta iota delta [bind];
  [ match goal with
    | |- context [match ?c with Ok _ => _ | Throw _ => _ end] =>
        match c with
        | ?f ?e' ?d ?s => destruct (spec e' d s) as [H|[? H]]
        end
    end;
    [ decompose [and] H; clear H;
      match goal with
      | Hc : _ = Ok (_, _) |- _ => rewrite Hc
      end;
      intros Heq; injection Heq as <- <-; eauto
    | rewrite H ]
  | ];
  unfold catch_create;
  try match goal with
      | |- context [instanceof_ZodError ?x] => destruct (instanceof_ZodError x)
      end;
  intros Heq; discriminate Heq.

Lemma expense_created (create : handler) (e : env) (req : request) (st st' : db)
    (x : Expense) :
  In create [createExpense; post_api_expenses] ->
  create e req st = (st', json_response 201 (PExpense x)) ->
  exists data, expenseSchema_parse (req_body req) = Ok data /\
               expense_create e data st = Ok (st', x) /\ x = expense_row e data.
Proof.
  intros Hin. simpl in Hin. destruct Hin as [<-|[<-|[]]]; created expense_create_spec.
Qed.

Lemma donation_created (create : handler) (e : env) (req : request) (st st' : db)
    (d : Donation) :
  In create [createDonation; post_api_donations] ->
  create e req st = (st', json_response 201 (PDonation d)) ->
  exists data, donationSchema_parse (req_body req) = Ok data /\
               donation_create e data st = Ok (st', d) /\ d = donation_row e data.
Proof.
  intros Hin. simpl in Hin. destruct Hin as [<-|[<-|[]]]; created donation_create_spec.
Qed.

Lemma campaign_created (create : handler) (e : env) (req : request) (st st' : db)
    (c : Campaign) :
  In create [createCampaign; post_api_campaigns] ->
  create e req st = (st', json_response 201 (PCampaign c)) ->
  exists data, campaignSchema_parse (req_body req) = Ok data /\
               campaign_create e data st = Ok (st', c) /\ c = campaign_row e data.
Proof.
  intros Hin. simpl in Hin. destruct Hin as [<-|[<-|[]]]; created campaign_create_spec.
Qed.

Lemma stats_inv (e : env) (req : request) (st : db) (td te : number) (ac : nat)
    (rd : list DonationWithRelations) :
  getDashboardStats e req st = (st, json_response 200 (PStats td te ac rd)) ->
  ac = count_active st.
Proof.
  pose proof (getDashboardStats_cases e req st) as Hc.
  destruct (aggregate_sum (map don_amount _)); [|rewrite Hc; discriminate].
  destruct (aggregate_sum (map exp_amount _)); rewrite Hc; [|discriminate].
  intros H. now injection H as _ _ <- _.
Qed.

(** X7: a create that answers 201 moves the dashboard's activeCampaigns by
    exactly the new record: a campaign adds one when its status is ACTIVE
    (which it is exactly when the body has no status or the status "ACTIVE")
    and nothing otherwise; a donation or an expense leaves the figure as it
    was. *)
Theorem dashboard_after_create (e e1 e2 : env) (req req1 req2 : request) (st st' : db)
    (td te td' te' : number) (ac ac' : nat) (rd rd' : list DonationWithRelations) :
  getDashboardStats e1 req1 st = (st, json_response 200 (PStats td te ac rd)) ->
  getDashboardStats e2 req2 st' = (st', json_response 200 (PStats td' te' ac' rd')) ->
  (forall create d,
     In create [createDonation; post_api_donations] ->
     create e req st = (st', json_response 201 (PDonation d)) -> ac' = ac) /\
  (forall create x,
     In create [createExpense; post_api_expenses] ->
     create e req st = (st', json_response 201 (PExpense x)) -> ac' = ac) /\
  (forall create c,
     In create [createCampaign; post_api_campaigns] ->
     create e req st = (st', json_response 201 (PCampaign c)) ->
     ac' = (ac + if status_eqb (cam_status c) ACTIVE then 1 else 0)%nat /\
     forall fs, req_body req = JObj fs ->
       (cam_status c = ACTIVE <->
        lookup "status" fs = None \/ lookup "status" fs = Some (JStr "ACTIVE"))).
Proof.
  intros H1 H2. apply stats_inv in H1, H2. subst ac ac'.
  split; [|split].
  - intros create d Hin Hc.
    destruct (donation_created _ _ _ Hin Hc) as (data & _ & Hd & ->).
    destruct (donation_create_spec e data st) as [(_ & _ & _ & Hs)|[c Hs]];
      rewrite Hs in Hd; [|discriminate]. now injection Hd as <-.
  - intros create x Hin Hc.
    destruct (expense_created _ _ _ Hin Hc) as (data & _ & Hd & ->).
    destruct (expense_create_spec e data st) as [(_ & _ & Hs)|[c Hs]];
      rewrite Hs in Hd; [|discriminate]. now injection Hd as <-.
  - intros create c Hin Hc.
    destruct (campaign_created _ _ _ Hin Hc) as (data & Hp & Hd & ->).
    destruct (campaign_create_spec e data st) as [(_ & Hs)|[c' Hs]];
      rewrite Hs in Hd; [|discriminate]. injection Hd as <-.
    split.
    + unfold count_active. simpl campaigns. apply (count_active_snoc st).
    + intros fs Hb. apply campaignSchema_parse_ok in Hp.
      destruct Hp as (fs' & Hb' & _ & _ & _ & _ & Hst).
      rewrite Hb in Hb'. injection Hb' as <-. simpl.
      apply z_status_default_inl in Hst.
      destruct Hst as [[-> ->]|[[-> ->]|[[-> ->]|[-> ->]]]];
        split; auto; intros H; try discriminate H;
        destruct H as [H|H]; discriminate H.
Qed.

(** ** Listings *)

Lemma map_include_expense (st : db) (l : list Expense) :
  map ewc_expense (map (include_campaign st) l) = l.
Proof. rewrite map_map. simpl. apply map_id. Qed.

Lemma map_include_campaign_count (st : db) (l : list Campaign) :
  map cwc_campaign (map (include_campaign_count st) l) = l.
Proof. rewrite map_map. simpl. apply map_id. Qed.

Lemma map_include_donor_count (st : db) (l : list Donor) :
  map dwc_donor (map (include_donor_count st) l) = l.
Proof. rewrite map_map. simpl. apply map_id. Qed.

Section Listings.

Variable rt : runtime.

(** X10: in every reachable store each of the five listings holds every row
    of its table exactly once, newest first; a listed expense or donation
    that names a campaign carries that campaign, one that names none carries
    none, and a listed donation carries its donor. *)
Theorem listings_sorted_and_joined (e : env) (req : request) (st : db) :
  reachable rt st ->
  (exists l,
     getExpenses e req st = (st, json_response 200 (PExpenses l)) /\
     Permutation (map ewc_expense l) (expenses st) /\
     StronglySorted (desc (fun j => exp_createdAt (ewc_expense j))) l /\
     Forall (fun j =>
               match exp_campaignId (ewc_expense j) with
               | Some i => exists c, ewc_campaign j = Some c /\ In c (campaigns st) /\
                                     cam_id c = i
               | None => ewc_campaign j = None
               end) l) /\
  (exists l,
     getDonations e req st = (st, json_response 200 (PDonations l)) /\
     Permutation (map dwr_donation l) (donations st) /\
     StronglySorted (desc (fun j => don_createdAt (dwr_donation j))) l /\
     Forall (fun j =>
               (exists d, dwr_donor j = Some d /\ In d (donors st) /\
                          dnr_id d = don_donorId (dwr_donation j)) /\
               match don_campaignId (dwr_donation j) with
               | Some i => exists c, dwr_campaign j = Some c /\ In c (campaigns st) /\
                                     cam_id c = i
               | None => dwr_campaign j = None
               end) l) /\
  (exists l,
     getCampaigns e req st = (st, json_response 200 (PCampaigns l)) /\
     Permutation (map cwc_campaign l) (campaigns st) /\
     StronglySorted (desc (fun j => cam_createdAt (cwc_campaign j))) l) /\
  (exists l,
     getDonors e req st = (st, json_response 200 (PDonors l)) /\
     Permutation (map dwc_donor l) (donors st) /\
     StronglySorted (desc (fun j => dnr_createdAt (dwc_donor j))) l) /\
  (exists l,
     getBeneficiaries e req st = (st, json_response 200 (PBeneficiaries l)) /\
     Permutation l (beneficiaries st) /\
     StronglySorted (desc ben_createdAt) l).
Proof.
  intros Hreach. apply reachable_consistent in Hreach.
  destruct Hreach as [H1 H2 H3 _ _ _].
  split; [|split; [|split; [|split]]]; eexists; (split; [reflexivity|]).
  - rewrite map_include_expense. split; [apply orderBy_desc_perm|].
    split; [apply sorted_map, orderBy_desc_sorted|].
    apply Forall_map. eapply Permutation_Forall; [symmetry; apply orderBy_desc_perm|].
    eapply Forall_impl; [|exact H3]. intros x Hx. simpl.
    now apply campaign_of_consistent.
  - unfold findMany_donations. rewrite map_include_donation.
    split; [apply orderBy_desc_perm|].
    split; [apply sorted_map, orderBy_desc_sorted|].
    apply Forall_map. eapply Permutation_Forall; [symmetry; apply orderBy_desc_perm|].
    rewrite Forall_forall in H1, H2 |- *. intros d Hd. simpl. split.
    + destruct (has_id_find _ _ _ (H1 d Hd)) as [n [Hf [Hn Hid]]]. now exists n.
    + apply campaign_of_consistent. now apply H2.
  - rewrite map_include_campaign_count. split; [apply orderBy_desc_perm|].
    apply sorted_map, orderBy_desc_sorted.
  - rewrite map_include_donor_count. split; [apply orderBy_desc_perm|].
    apply sorted_map, orderBy_desc_sorted.
  - split; [apply orderBy_desc_perm|apply orderBy_desc_sorted].
Qed.

End Listings.

(** ** Related-record counts *)

Lemma length_filter_sum (A : Type) (q : A -> bool) (l : list A) :
  List.length (filter q l) = list_sum (map (fun a => if q a then 1 else 0)%nat l).
Proof.
  induction l as [|a l IH]; simpl; [reflexivity|].
  destruct (q a); simpl; now rewrite IH.
Qed.

Lemma list_sum_map_add (A : Type) (f g : A -> nat) (l : list A) :
  list_sum (map (fun a => f a + g a)%nat l)
  = (list_sum (map f l) + list_sum (map g l))%nat.
Proof. induction l as [|a l IH]; simpl; [reflexivity|]. rewrite IH. lia. Qed.

Lemma list_sum_map_zero (A : Type) (l : list A) :
  list_sum (map (fun _ => 0%nat) l) = 0%nat.
Proof. induction l; simpl; auto. Qed.

(** Counting the pairs of a relation row by row or column by column. *)
Lemma count_pairs_swap (A B : Type) (p : A -> B -> bool) (xs : list A) (ys : list B) :
  list_sum (map (fun x => List.length (filter (p x) ys)) xs)
  = list_sum (map (fun y => List.length (filter (fun x => p x y) xs)) ys).
Proof.
  induction xs as [|x xs IH]; simpl.
  - now rewrite list_sum_map_zero.
  - rewrite IH, length_filter_sum, <- list_sum_map_add.
    f_equal. apply map_ext. intros y. now destruct (p x y).
Qed.

Lemma list_sum_permutation (l l' : list nat) :
  Permutation l l' -> list_sum l = list_sum l'.
Proof. induction 1; simpl; lia. Qed.

Lemma count_unique_id (A : Type) (id_of : A -> string) (i : string) (l : list A) :
  NoDup (map id_of l) -> has_id id_of i l = true ->
  List.length (filter (fun r => String.eqb i (id_of r)) l) = 1%nat.
Proof.
  induction l as [|x l IH]; simpl; intros Hn Hh; [discriminate|].
  inversion Hn as [|? ? Hx Hl]; subst. unfold has_id in Hh. simpl in Hh.
  rewrite String.eqb_sym. destruct (String.eqb (id_of x) i) eqn:E; simpl.
  - f_equal. apply String.eqb_eq in E. subst i.
    assert (Hnone : forall l', ~ In (id_of x) (map id_of l') ->
                               filter (fun r => String.eqb (id_of x) (id_of r)) l' = [])
      by (induction l' as [|y l' IH']; simpl; intros Hy; [reflexivity|];
          destruct (String.eqb (id_of x) (id_of y)) eqn:E';
          [apply String.eqb_eq in E'; exfalso; apply Hy; now left
          |apply IH'; intros Hin; apply Hy; now right]).
    now rewrite Hnone.
  - now apply IH.
Qed.

Lemma filter_none (A : Type) (l : list A) : filter (fun _ => false) l = [].
Proof. induction l; simpl; auto. Qed.

Lemma count_by_donor (ns : list Donor) (ds : list Donation) :
  NoDup (map dnr_id ns) ->
  Forall (fun d => has_id dnr_id (don_donorId d) ns = true) ds ->
  list_sum (map (fun d => List.length
                            (filter (fun n => String.eqb (don_donorId d) (dnr_id n)) ns))
                ds)
  = List.length ds.
Proof.
  intros Hn. induction 1 as [|d ds Hd _ IH]; simpl; [reflexivity|].
  now rewrite IH, (count_unique_id dnr_id (don_donorId d) ns Hn Hd).
Qed.

Lemma count_by_campaign (A : Type) (ref : A -> option string) (cs : list Campaign)
    (l : list A) :
  NoDup (map cam_id cs) ->
  Forall (fun a => ref_ok cam_id (ref a) cs = true) l ->
  list_sum (map (fun a => List.length (filter (fun c => refers (ref a) (cam_id c)) cs)) l)
  = List.length (filter (fun a => has_campaign (ref a)) l).
Proof.
  intros Hn. induction 1 as [|a l Ha _ IH]; simpl; [reflexivity|].
  rewrite IH. destruct (ref a) as [i|]; simpl in *.
  - now rewrite (count_unique_id cam_id i cs Hn Ha).
  - now rewrite filter_none.
Qed.

Section Counts.

Variable rt : runtime.

(** X11: in every reachable store the donation counts listed with the
    donors add up to the number of donations, and the donation and expense
    counts listed with the campaigns add up to the numbers of donations and
    of expenses that name a campaign: every row is counted once, under the
    one record it names. *)
Theorem listed_counts_add_up (e : env) (req : request) (st : db) :
  reachable rt st ->
  (exists l,
     getDonors e req st = (st, json_response 200 (PDonors l)) /\
     list_sum (map dwc_donations l) = List.length (donations st)) /\
  (exists l,
     getCampaigns e req st = (st, json_response 200 (PCampaigns l)) /\
     list_sum (map cwc_donations l)
       = List.length (filter (fun d => has_campaign (don_campaignId d)) (donations st)) /\
     list_sum (map cwc_expenses l)
       = List.length (filter (fun x => has_campaign (exp_campaignId x)) (expenses st))).
Proof.
  intros Hreach. pose proof (reachable_unique Hreach) as [U1 U2 _ _ _].
  apply reachable_consistent in Hreach. destruct Hreach as [H1 H2 H3 _ _ _].
  split; eexists; (split; [reflexivity|]).
  - rewrite map_map. simpl.
    rewrite (list_sum_permutation
               (Permutation_map _ (orderBy_desc_perm dnr_createdAt (donors st)))).
    rewrite (count_pairs_swap
               (fun n d => String.eqb (don_donorId d) (dnr_id n)) (donors st) (donations st)).
    now apply count_by_donor.
  - rewrite !map_map. simpl. split.
    + rewrite (list_sum_permutation
                 (Permutation_map _ (orderBy_desc_perm cam_createdAt (campaigns st)))).
      rewrite (count_pairs_swap
                 (fun c d => refers (don_campaignId d) (cam_id c))
                 (campaigns st) (donations st)).
      now apply (count_by_campaign don_campaignId).
    + rewrite (list_sum_permutation
                 (Permutation_map _ (orderBy_desc_perm cam_createdAt (campaigns st)))).
      rewrite (count_pairs_swap
                 (fun c x => refers (exp_campaignId x) (cam_id c))
                 (campaigns st) (expenses st)).
      now apply (count_by_campaign exp_campaignId).
Qed.

End Counts.

(** ** Deleting what is not there, and deleting twice *)

Lemma filter_all (A : Type) (p : A -> bool) (l : list A) :
  Forall (fun a => p a = true) l -> filter p l = l.
Proof. induction 1 as [|a l Ha _ IH]; simpl; [reflexivity|]. now rewrite Ha, IH. Qed.

Lemma map_unchanged (A : Type) (f : A -> A) (l : list A) :
  Forall (fun a => f a = a) l -> map f l = l.
Proof. induction 1 as [|a l Ha _ IH]; simpl; [reflexivity|]. now rewrite Ha, IH. Qed.

Lemma absent_id_filter (A : Type) (id_of : A -> string) (i : string) (l : list A) :
  has_id id_of i l = false ->
  Forall (fun r => negb (String.eqb (id_of r) i) = true) l.
Proof.
  unfold has_id. induction l as [|x l IH]; simpl; intros H; [constructor|].
  apply orb_false_iff in H. destruct H as [Hx Hl].
  constructor; [now rewrite Hx|now apply IH].
Qed.

Lemma ref_ok_absent (A : Type) (id_of : A -> string) (r : option string) (i : string)
    (l : list A) :
  has_id id_of i l = false -> ref_ok id_of r l = true -> refers r i = false.
Proof.
  destruct r as [j|]; simpl; [|reflexivity]. intros Hi Hj.
  destruct (String.eqb j i) eqn:E; [|reflexivity].
  apply String.eqb_eq in E. congruence.
Qed.

Section Deletions.

Variable rt : runtime.

(** X12: in a reachable store, deleting a campaign or a donor whose
    identifier names no row changes nothing: no donation or expense refers
    to a campaign, and no donation to a donor, that the store does not
    hold. *)
Theorem delete_absent_changes_nothing (st : db) (i : string) :
  reachable rt st ->
  (has_id cam_id i (campaigns st) = false -> campaign_delete i st = st) /\
  (has_id dnr_id i (donors st) = false -> donor_delete i st = st).
Proof.
  intros Hreach. apply reachable_consistent in Hreach.
  destruct Hreach as [H1 H2 H3 _ _ _]. split.
  - intros Hi. unfold campaign_delete.
    rewrite (filter_all _ (absent_id_filter cam_id i (campaigns st) Hi)).
    rewrite (map_unchanged (detach_donation i) (l := donations st)).
    + rewrite (map_unchanged (detach_expense i) (l := expenses st)); [now destruct st|].
      eapply Forall_impl; [|exact H3]. intros x Hx. unfold detach_expense.
      now rewrite (ref_ok_absent _ _ _ _ Hi Hx).
    + eapply Forall_impl; [|exact H2]. intros d Hd. unfold detach_donation.
      now rewrite (ref_ok_absent _ _ _ _ Hi Hd).
  - intros Hi. unfold donor_delete.
    rewrite (filter_all _ (absent_id_filter dnr_id i (donors st) Hi)).
    rewrite (filter_all (fun d => negb (String.eqb (don_donorId d) i)) (l := donations st));
      [now destruct st|].
    eapply Forall_impl; [|exact H1]. intros d Hd.
    destruct (String.eqb (don_donorId d) i) eqn:E; [|reflexivity].
    apply String.eqb_eq in E. congruence.
Qed.

End Deletions.

(** ** What a create handler reads of the body *)

Ltac same_fields H :=
  repeat match type of H with
         | Forall _ (_ :: _) =>
             let E := fresh "E" in
             let H' := fresh "H" in
             inversion H as [|? ? E H']; subst; clear H; rename H' into H;
             cbv beta in E
         end.

Section Bodies.

Variable rt : runtime.

(** X13: a create handler reads of the body only the keys of its schema: two
    bodies that agree on those keys leave the same store and get the same
    answer, so that keys such as id, createdAt or updatedAt in a body have no
    effect on the stored record. *)
Theorem create_reads_schema_keys_only (e : env) (req req' : request) (st : db)
    (fs fs' : list (string * json)) :
  req_body req = JObj fs -> req_body req' = JObj fs' ->
  (Forall (fun k => lookup k fs = lookup k fs')
          ["description"; "amount"; "category"; "campaignId"] ->
     createExpense e req st = createExpense e req' st /\
     post_api_expenses e req st = post_api_expenses e req' st) /\
  (Forall (fun k => lookup k fs = lookup k fs') ["amount"; "donorId"; "campaignId"] ->
     createDonation e req st = createDonation e req' st /\
     post_api_donations e req st = post_api_donations e req' st) /\
  (Forall (fun k => lookup k fs = lookup k fs')
          ["name"; "description"; "targetAmount"; "status"] ->
     createCampaign e req st = createCampaign e req' st /\
     post_api_campaigns e req st = post_api_campaigns e req' st) /\
  (Forall (fun k => lookup k fs = lookup k fs') ["name"; "email"; "phone"; "address"] ->
     createDonor rt e req st = createDonor rt e req' st /\
     post_api_donors rt e req st = post_api_donors rt e req' st) /\
  (Forall (fun k => lookup k fs = lookup k fs') ["name"; "description"; "contactInfo"] ->
     createBeneficiary e req st = createBeneficiary e req' st /\
     post_api_beneficiaries e req st = post_api_beneficiaries e req' st).
Proof.
  intros Hb Hb'.
  split; [|split; [|split; [|split]]]; intros H; same_fields H;
    cbv beta delta [createExpense createDonation createCampaign createDonor
      createBeneficiary post_api_expenses post_api_donations post_api_campaigns
      post_api_donors post_api_beneficiaries expenseSchema_parse donationSchema_parse
      campaignSchema_parse donorSchema_parse beneficiarySchema_parse];
    rewrite Hb, Hb';
    repeat match goal with
           | E : lookup _ fs = lookup _ fs' |- _ => rewrite E; clear E
           end;
    split; reflexivity.
Qed.

End Bodies.

(** ** What a rejected expense is told *)

Lemma z_string_min1_decides (k : string) (v : option json) :
  if is_nonempty_string v then exists s, z_string_min1 k v = inl s
  else exists c, z_string_min1 k v = inr [{| code := c; path := [k] |}].
Proof.
  unfold is_nonempty_string, z_string_min1, z_string, mk_issue.
  destruct v as [[| | |s| |]|]; simpl; eauto.
  destruct (String.eqb s ""); simpl; eauto.
Qed.

Lemma z_number_positive_decides (k : string) (v : option json) :
  if is_positive_number v then exists q, z_number_positive k v = inl q
  else exists c, z_number_positive k v = inr [{| code := c; path := [k] |}].
Proof.
  unfold is_positive_number, z_number_positive, mk_issue.
  destruct v as [[| |q| | |]|]; simpl; eauto.
  destruct q as [s|s| |s m e]; try destruct s; cbn; eauto.
Qed.

Lemma z_optional_string_decides (k : string) (v : option json) :
  if is_optional_string v then exists o, z_optional z_string k v = inl o
  else exists c, z_optional z_string k v = inr [{| code := c; path := [k] |}].
Proof.
  unfold is_optional_string, z_optional, z_string, mk_issue.
  destruct v as [[| | |s| |]|]; simpl; eauto.
Qed.

(** X14: an expense body passes the schema exactly when description and
    category are non-empty strings, amount is a number above zero and
    campaignId is absent or a string; otherwise both expense create handlers
    answer 400 "Invalid expense data" with one issue for each field that is
    not valid, and for no other, in the order description, amount, category,
    campaignId, and leave the store as it was. *)
Theorem expense_rejection_lists_invalid_fields (e : env) (req : request) (st : db)
    (fs : list (string * json)) :
  req_body req = JObj fs ->
  let d := is_nonempty_string (lookup "description" fs) in
  let a := is_positive_number (lookup "amount" fs) in
  let c := is_nonempty_string (lookup "category" fs) in
  let g := is_optional_string (lookup "campaignId" fs) in
  if d && a && c && g then exists data, expenseSchema_parse (req_body req) = Ok data
  else exists l,
    createExpense e req st
      = (st, json_response 400 (PError "Invalid expense data" (Some l))) /\
    post_api_expenses e req st
      = (st, json_response 400 (PError "Invalid expense data" (Some l))) /\
    map path l = invalid_paths [("description", d); ("amount", a);
                                ("category", c); ("campaignId", g)] /\
    l <> [].
Proof.
  intros Hb d a c g. subst d a c g.
  pose proof (z_string_min1_decides "description" (lookup "description" fs)) as Hd.
  pose proof (z_number_positive_decides "amount" (lookup "amount" fs)) as Ha.
  pose proof (z_string_min1_decides "category" (lookup "category" fs)) as Hc.
  pose proof (z_optional_string_decides "campaignId" (lookup "campaignId" fs)) as Hg.
  unfold createExpense, post_api_expenses, bind, expenseSchema_parse. rewrite Hb.
  destruct (is_nonempty_string (lookup "description" fs));
    destruct (is_positive_number (lookup "amount" fs));
    destruct (is_nonempty_string (lookup "category" fs));
    destruct (is_optional_string (lookup "campaignId" fs));
    destruct Hd as [? ->]; destruct Ha as [? ->];
    destruct Hc as [? ->]; destruct Hg as [? ->]; simpl;
    first [ eexists; reflexivity
          | eexists; repeat (split; [reflexivity|]); discriminate ].
Qed.

(** * The browser client against the standalone server *)

Lemma getItem_setItem (k v : string) (ls : storage) : getItem k (setItem k v ls) = Some v.
Proof. unfold getItem, setItem. simpl. now rewrite String.eqb_refl. Qed.

Lemma getItem_removeItem (k : string) (ls : storage) : getItem k (removeItem k ls) = None.
Proof.
  unfold getItem, removeItem. induction ls as [|[k' v] ls IH]; simpl; [reflexivity|].
  destruct (String.eqb k' k) eqn:E; simpl; [assumption|].
  rewrite String.eqb_sym, E. assumption.
Qed.

Lemma getItem_removeItem_other (k k' : string) (ls : storage) :
  k <> k' -> getItem k (removeItem k' ls) = getItem k ls.
Proof.
  intros Hne. unfold getItem, removeItem.
  induction ls as [|[j v] ls IH]; simpl; [reflexivity|].
  destruct (String.eqb j k') eqn:E; simpl.
  - apply String.eqb_eq in E. subst j. apply String.eqb_neq in Hne. now rewrite Hne.
  - now rewrite IH.
Qed.

Lemma getItem_setItem_other (k k' v : string) (ls : storage) :
  k <> k' -> getItem k (setItem k' v ls) = getItem k ls.
Proof.
  intros Hne. unfold setItem, getItem. simpl.
  apply String.eqb_neq in Hne. rewrite Hne. apply String.eqb_neq in Hne.
  now apply getItem_removeItem_other.
Qed.

Lemma find_agree (A : Type) (f g : A -> bool) (l : list A) :
  (forall x, In x l -> f x = g x) -> find f l = find g l.
Proof.
  induction l as [|x l IH]; simpl; intros H; [reflexivity|].
  rewrite (H x (or_introl eq_refl)). destruct (g x); [reflexivity|].
  apply IH. intros y Hy. apply H. now right.
Qed.

Section Client.

Variable rt : runtime.

Lemma dispatch_literal (e : env) (req : request) (st : db) :
  routes_literally rt (req_path req) ->
  dispatch rt (app rt) e req st =
    match find (fun r => method_eqb (r_method r) (req_method req)
                         && String.eqb (r_path r) (req_path req)) (app rt) with
    | Some r => run_route r e req st
    | None => (st, no_route)
    end.
Proof.
  intros H. unfold dispatch.
  rewrite (find_agree _ (fun r => method_eqb (r_method r) (req_method req)
                                  && String.eqb (r_path r) (req_path req)) (app rt));
    [reflexivity|].
  intros r Hr. now rewrite (H r Hr).
Qed.

Lemma login_allowed (e : env) (req : request) (st : db) (u k : string) :
  req_body req = JObj [("username", JStr u); ("accessKey", JStr k)] ->
  In (u, k) validCredentials ->
  login rt e req st
    = (st, json_response 200 (PLogin (jwt_sign rt u (JWT_SECRET rt) (now e)) u)).
Proof.
  intros Hb Hin.
  assert (Hne : u <> "" /\ k <> "").
  { simpl in Hin. destruct Hin as [H|[H|[]]]; injection H as <- <-; split; discriminate. }
  unfold login. rewrite Hb.
  rewrite (@authSchema_parse_valid [("username", JStr u); ("accessKey", JStr k)] u k
             eq_refl eq_refl (proj1 Hne) (proj2 Hne)).
  cbn [au_username au_accessKey].
  destruct (find_credentials_in _ _ _ Hin) as [p Hp]. now rewrite Hp.
Qed.

Lemma login_refused (e : env) (req : request) (st : db) (u k : string) :
  req_body req = JObj [("username", JStr u); ("accessKey", JStr k)] ->
  u <> "" -> k <> "" -> ~ In (u, k) validCredentials ->
  login rt e req st = (st, json_response 401 (PError "Invalid credentials" None)).
Proof.
  intros Hb Hu Hk Hout. unfold login. rewrite Hb.
  rewrite (@authSchema_parse_valid [("username", JStr u); ("accessKey", JStr k)] u k
             eq_refl eq_refl Hu Hk).
  cbn [au_username au_accessKey]. now rewrite (find_credentials_out _ _ _ Hout).
Qed.

Lemma login_malformed (e : env) (req : request) (st : db) (u k : string) :
  req_body req = JObj [("username", JStr u); ("accessKey", JStr k)] ->
  u = "" \/ k = "" ->
  exists issues,
    login rt e req st = (st, json_response 400 (PError "Invalid login data" (Some issues))).
Proof.
  intros Hb He. unfold login. rewrite Hb.
  destruct (@authSchema_parse_empty [("username", JStr u); ("accessKey", JStr k)] u k
              eq_refl eq_refl He) as [l ->]. simpl. eauto.
Qed.

Lemma login_request_routed (c : ApiClient) (u k : string) (e : env) (st : db) :
  routes_literally rt "/api/auth/login" ->
  dispatch rt (app rt) e
    {| req_method := POST; req_path := "/api" ++ "/auth/login";
       req_headers := request_headers c;
       req_body := JObj [("username", JStr u); ("accessKey", JStr k)];
       req_user := None |} st
  = login rt e
      {| req_method := POST; req_path := "/api" ++ "/auth/login";
         req_headers := request_headers c;
         req_body := JObj [("username", JStr u); ("accessKey", JStr k)];
         req_user := None |} st.
Proof. intros H. now rewrite dispatch_literal. Qed.

Lemma expenses_request_routed (c : ApiClient) (e : env) (st : db) :
  routes_literally rt "/api/expenses" ->
  dispatch rt (app rt) e
    {| req_method := GET; req_path := "/api" ++ "/expenses";
       req_headers := request_headers c; req_body := JObj []; req_user := None |} st
  = authenticateToken rt getExpenses e
      {| req_method := GET; req_path := "/api" ++ "/expenses";
         req_headers := request_headers c; req_body := JObj []; req_user := None |} st.
Proof. intros H. now rewrite dispatch_literal. Qed.

End Client.

Section ClientSession.

Variable rt : runtime.

Lemma bearer_header (c : ApiClient) (t : string) :
  this_token c = Some t -> t <> "" ->
  lookup "authorization" (request_headers c) = Some ("Bearer " ++ t).
Proof.
  intros Ht Hne. unfold request_headers. rewrite Ht. simpl.
  apply String.eqb_neq in Hne. now rewrite Hne.
Qed.

Lemma login_call_allowed (c : ApiClient) (u k : string) (e : env) (st : db) :
  routes_literally rt "/api/auth/login" -> In (u, k) validCredentials ->
  dispatch rt (app rt) e
    {| req_method := POST; req_path := "/api" ++ "/auth/login";
       req_headers := request_headers c;
       req_body := JObj [("username", JStr u); ("accessKey", JStr k)];
       req_user := None |} st
  = (st, json_response 200 (PLogin (jwt_sign rt u (JWT_SECRET rt) (now e)) u)).
Proof.
  intros Hr Hin. rewrite login_request_routed by assumption.
  now apply (@login_allowed rt e _ st u k).
Qed.

Lemma login_call_refused (c : ApiClient) (u k : string) (e : env) (st : db) :
  routes_literally rt "/api/auth/login" ->
  u <> "" -> k <> "" -> ~ In (u, k) validCredentials ->
  dispatch rt (app rt) e
    {| req_method := POST; req_path := "/api" ++ "/auth/login";
       req_headers := request_headers c;
       req_body := JObj [("username", JStr u); ("accessKey", JStr k)];
       req_user := None |} st
  = (st, json_response 401 (PError "Invalid credentials" None)).
Proof.
  intros Hr Hu Hk Hout. rewrite login_request_routed by assumption.
  now apply (@login_refused rt e _ st u k).
Qed.

Lemma login_call_malformed (c : ApiClient) (u k : string) (e : env) (st : db) :
  routes_literally rt "/api/auth/login" -> u = "" \/ k = "" ->
  exists issues,
    dispatch rt (app rt) e
      {| req_method := POST; req_path := "/api" ++ "/auth/login";
       req_headers := request_headers c;
       req_body := JObj [("username", JStr u); ("accessKey", JStr k)];
       req_user := None |} st
    = (st, json_response 400 (PError "Invalid login data" (Some issues))).
Proof.
  intros Hr He. rewrite login_request_routed by assumption.
  now apply (@login_malformed rt e _ st u k).
Qed.

Lemma no_header (c : ApiClient) :
  this_token c = None -> lookup "authorization" (request_headers c) = None.
Proof. intros Ht. unfold request_headers. now rewrite Ht. Qed.

(** X15: a login through the login form with a pair of the allow-list leaves
    the store as it was, marks the App authenticated under the user name,
    and keeps the token in the client and, with the user name, in the local
    storage, so that a reload finds the same client and the same App state.
    With that token the client's expense listing returns the server's
    listing while the server's clock reads fewer than 86400 whole seconds
    past the second of the login, and throws "Invalid token" from then on. *)
Theorem client_session (u k : string) (e0 : env) (a : App) (b : browser) (st : db) :
  jwt_lawful rt ->
  routes_literally rt "/api/auth/login" -> routes_literally rt "/api/expenses" ->
  In (u, k) validCredentials ->
  exists b1,
    AuthGate_handleSubmit (dispatch rt (app rt)) u k e0 a b st
      = (st, {| isAuthenticated := true; app_username := Some u |}, b1, "") /\
    this_token (api b1) = Some (jwt_sign rt u (JWT_SECRET rt) (now e0)) /\
    new_ApiClient (localStorage b1) = api b1 /\
    App_mount (localStorage b1) = {| isAuthenticated := true; app_username := Some u |} /\
    forall e st',
      (now e / 1000 < now e0 / 1000 + 86400 ->
         ApiClient_getExpenses (dispatch rt (app rt)) (api b1) e st'
           = (st', Returned (PExpenses (map (include_campaign st')
                                            (orderBy_desc exp_createdAt (expenses st')))))) /\
      (now e0 / 1000 + 86400 <= now e / 1000 ->
         ApiClient_getExpenses (dispatch rt (app rt)) (api b1) e st'
           = (st', Raised "Invalid token")).
Proof.
  intros Hl Hr1 Hr2 Hin.
  set (token := jwt_sign rt u (JWT_SECRET rt) (now e0)).
  assert (Htok : token <> "") by (destruct Hl as [_ Hc]; apply Hc).
  assert (Hu : u <> "").
  { simpl in Hin. destruct Hin as [H|[H|[]]]; injection H as <- _; discriminate. }
  exists {| api := {| this_token := Some token |};
            localStorage := setItem "username" u
                              (setItem "auth_token" token (localStorage b)) |}.
  split; [|split; [reflexivity|split; [|split]]].
  - unfold AuthGate_handleSubmit, ApiClient_login, ApiClient_request.
    rewrite (login_call_allowed (api b) e0 st Hr1 Hin). reflexivity.
  - unfold new_ApiClient. simpl localStorage.
    rewrite getItem_setItem_other by discriminate. now rewrite getItem_setItem.
  - unfold App_mount. simpl localStorage.
    rewrite getItem_setItem_other by discriminate. rewrite !getItem_setItem. simpl.
    apply String.eqb_neq in Htok, Hu. now rewrite Htok, Hu.
  - intros e st'. simpl api.
    pose proof (@bearer_header {| this_token := Some token |} token eq_refl Htok) as Hh.
    pose proof (jwt_verify_sign Hl u (JWT_SECRET rt) (now e0) (now e)) as Hv.
    fold token in Hv.
    unfold ApiClient_getExpenses, ApiClient_request.
    rewrite (expenses_request_routed {| this_token := Some token |} e st' Hr2).
    split; intros Ht.
    + destruct (now e0 / 1000 + 86400 <=? now e / 1000) eqn:E;
        [apply Z.leb_le in E; lia|].
      erewrite authenticateToken_valid;
        [reflexivity | exact Hh | apply (bearer_split Hl) | exact Htok | exact Hv].
    + apply Z.leb_le in Ht. rewrite Ht in Hv.
      erewrite authenticateToken_invalid;
        [reflexivity | exact Hh | apply (bearer_split Hl) | exact Htok | exact Hv].
Qed.

(** X16: a login through the login form that the server refuses changes
    nothing, neither the store nor the App state, the client or the local
    storage, and shows the server's message: "Invalid login data" when the
    user name or the access key is empty, "Invalid credentials" for a pair of
    non-empty strings outside the allow-list. *)
Theorem client_login_refused (u k : string) (e : env) (a : App) (b : browser) (st : db) :
  routes_literally rt "/api/auth/login" ->
  (u = "" \/ k = "" ->
     AuthGate_handleSubmit (dispatch rt (app rt)) u k e a b st
       = (st, a, b, "Invalid login data")) /\
  (u <> "" -> k <> "" -> ~ In (u, k) validCredentials ->
     AuthGate_handleSubmit (dispatch rt (app rt)) u k e a b st
       = (st, a, b, "Invalid credentials")).
Proof.
  intros Hr. split.
  - intros He. unfold AuthGate_handleSubmit, ApiClient_login, ApiClient_request.
    destruct (login_call_malformed (api b) e st Hr He) as [l ->].
    reflexivity.
  - intros Hu Hk Hout. unfold AuthGate_handleSubmit, ApiClient_login, ApiClient_request.
    rewrite (login_call_refused (api b) e st Hr Hu Hk Hout). reflexivity.
Qed.

(** X17: the client's updateExpense and deleteExpense fail whatever the
    client's token, the expense and the store: the server has no route for
    them, its answer is not JSON, and the call throws "Network error"
    leaving the store as it was; so does getMonthlyAnalytics, whose path no
    route of the server names. *)
Theorem client_calls_without_route (c : ApiClient) (id : string) (data : json)
    (e : env) (st : db) :
  ApiClient_updateExpense (dispatch rt (app rt)) c id data e st
    = (st, Raised "Network error") /\
  ApiClient_deleteExpense (dispatch rt (app rt)) c id e st
    = (st, Raised "Network error") /\
  (routes_literally rt "/api/analytics/monthly" ->
   ApiClient_getMonthlyAnalytics (dispatch rt (app rt)) c e st
     = (st, Raised "Network error")).
Proof.
  split; [reflexivity|]. split; [reflexivity|].
  intros Hr. unfold ApiClient_getMonthlyAnalytics, ApiClient_request.
  now rewrite dispatch_literal.
Qed.

(** X18: a logout leaves no trace of the session: the App is no longer
    authenticated, the client has no token, a reload finds neither token nor
    user name and starts unauthenticated, every other key of the local
    storage keeps its value, and the client's expense listing throws "Access
    token required". *)
Theorem client_logout (b : browser) :
  fst (handleLogout b) = {| isAuthenticated := false; app_username := Some "" |} /\
  api (snd (handleLogout b)) = {| this_token := None |} /\
  new_ApiClient (localStorage (snd (handleLogout b))) = {| this_token := None |} /\
  App_mount (localStorage (snd (handleLogout b)))
    = {| isAuthenticated := false; app_username := Some "" |} /\
  (forall k, k <> "auth_token" -> k <> "username" ->
     getItem k (localStorage (snd (handleLogout b))) = getItem k (localStorage b)) /\
  (routes_literally rt "/api/expenses" ->
   forall e st,
     ApiClient_getExpenses (dispatch rt (app rt)) (api (snd (handleLogout b))) e st
       = (st, Raised "Access token required")).
Proof.
  split; [reflexivity|]. split; [reflexivity|]. split; [|split; [|split]].
  - unfold new_ApiClient. simpl. now rewrite getItem_removeItem.
  - unfold App_mount. simpl. now rewrite getItem_removeItem.
  - intros k H1 H2. simpl. now rewrite !getItem_removeItem_other.
  - intros Hr e st. simpl api.
    unfold ApiClient_getExpenses, ApiClient_request.
    rewrite (expenses_request_routed {| this_token := None |} e st Hr).
    now rewrite authenticateToken_absent.
Qed.

End ClientSession.

(** ** Form bodies against the schemas *)

Lemma lookup_optional_field (k value : string) (rest : list (string * json)) :
  lookup k (optional_field k value ++ rest)
  = match filled value with
    | Some v => Some (JStr v)
    | None => lookup k rest
    end.
Proof.
  unfold optional_field, filled. destruct (String.eqb value ""); simpl; [reflexivity|].
  now rewrite String.eqb_refl.
Qed.

Lemma lookup_skip_optional_field (k k' value : string) (rest : list (string * json)) :
  k <> k' -> lookup k (optional_field k' value ++ rest) = lookup k rest.
Proof.
  intros Hne. unfold optional_field. destruct (String.eqb value ""); simpl; [reflexivity|].
  apply String.eqb_neq in Hne. now rewrite Hne.
Qed.

Lemma z_optional_string_filled (k value : string) :
  z_optional z_string k (option_map JStr (filled value)) = inl (filled value).
Proof. unfold filled. now destruct (String.eqb value ""). Qed.

Section Forms.

Variable rt : runtime.

Lemma z_optional_email_filled (k value : string) :
  z_optional (z_string_email rt) k (option_map JStr (filled value))
  = if String.eqb value "" then inl None
    else if is_email rt value then inl (Some value)
         else inr [mk_issue invalid_string k].
Proof.
  unfold filled. destruct (String.eqb value ""); [reflexivity|].
  unfold z_optional, z_string_email. simpl. now destruct (is_email rt value).
Qed.

(** X19: the beneficiary form and the donor form send a body the schema
    accepts exactly when the name is filled in and, for a donor, the e-mail
    is left empty or matches the e-mail pattern; the validated record then
    has the name, and for every optional field the text that was filled in,
    or no value at all when the field was left empty (never the empty
    string). *)
Theorem form_bodies_validate (name description contactInfo email phone address : string) :
  (name <> "" ->
     beneficiarySchema_parse (beneficiary_form_data name description contactInfo)
       = Ok {| bi_name := name; bi_description := filled description;
               bi_contactInfo := filled contactInfo |}) /\
  (name = "" ->
     exists l, beneficiarySchema_parse (beneficiary_form_data name description contactInfo)
               = Throw (ZodError l)) /\
  (name <> "" -> email = "" \/ is_email rt email = true ->
     donorSchema_parse rt (donor_form_data name email phone address)
       = Ok {| ni_name := name; ni_email := filled email; ni_phone := filled phone;
               ni_address := filled address |}) /\
  (name = "" \/ (email <> "" /\ is_email rt email = false) ->
     exists l, donorSchema_parse rt (donor_form_data name email phone address)
               = Throw (ZodError l)).
Proof.
  assert (Hd : lookup "description"
                 (optional_field "description" description
                  ++ optional_field "contactInfo" contactInfo)
               = option_map JStr (filled description)).
  { rewrite lookup_optional_field. destruct (filled description); [reflexivity|].
    unfold optional_field. now destruct (String.eqb contactInfo ""). }
  assert (Hc : lookup "contactInfo"
                 (optional_field "description" description
                  ++ optional_field "contactInfo" contactInfo)
               = option_map JStr (filled contactInfo)).
  { rewrite lookup_skip_optional_field by discriminate.
    rewrite <- (app_nil_r (optional_field "contactInfo" contactInfo)).
    rewrite lookup_optional_field. now destruct (filled contactInfo). }
  assert (Hm : lookup "email"
                 (optional_field "email" email ++ optional_field "phone" phone
                  ++ optional_field "address" address)
               = option_map JStr (filled email)).
  { rewrite lookup_optional_field. destruct (filled email); [reflexivity|].
    unfold optional_field.
    now destruct (String.eqb phone ""), (String.eqb address ""). }
  assert (Hp : lookup "phone"
                 (optional_field "email" email ++ optional_field "phone" phone
                  ++ optional_field "address" address)
               = option_map JStr (filled phone)).
  { rewrite lookup_skip_optional_field by discriminate.
    rewrite lookup_optional_field. destruct (filled phone); [reflexivity|].
    unfold optional_field. now destruct (String.eqb address ""). }
  assert (Ha : lookup "address"
                 (optional_field "email" email ++ optional_field "phone" phone
                  ++ optional_field "address" address)
               = option_map JStr (filled address)).
  { rewrite !lookup_skip_optional_field by discriminate.
    rewrite <- (app_nil_r (optional_field "address" address)).
    rewrite lookup_optional_field. now destruct (filled address). }
  unfold beneficiary_form_data, donor_form_data, beneficiarySchema_parse,
    donorSchema_parse.
  cbn [Datatypes.app lookup String.eqb Ascii.eqb Bool.eqb andb].
  rewrite Hd, Hc, Hm, Hp, Ha, !z_optional_string_filled, z_optional_email_filled.
  unfold z_string_min1. cbn [z_string].
  split; [|split; [|split]].
  - intros Hn. apply String.eqb_neq in Hn. now rewrite Hn.
  - intros ->. simpl. eauto.
  - intros Hn He. apply String.eqb_neq in Hn. rewrite Hn.
    assert (Hf : filled email = if String.eqb email "" then None else Some email)
      by reflexivity.
    rewrite Hf. destruct (String.eqb email "") eqn:E; [reflexivity|].
    destruct He as [->|He]; [discriminate|]. now rewrite He.
  - intros [->|[Hne He]].
    + simpl. destruct (String.eqb email ""); [eauto|].
      destruct (is_email rt email); simpl; eauto.
    + apply String.eqb_neq in Hne. rewrite Hne, He.
      destruct (String.eqb name ""); simpl; eauto.
Qed.

End Forms.

(** ** The further properties on the sample session *)

Lemma ref_runtime_routes_literally (q : string) : routes_literally ref_runtime q.
Proof. intros r _. reflexivity. Qed.

Lemma request_appends_at_most_one_row_witness :
  fst (dispatch ref_runtime (app ref_runtime) (demo_env "x2" 50)
         (demo_request GET "/api/expenses" JNull) demo_db) = demo_db.
Proof.
  apply (proj2 (@request_appends_at_most_one_row ref_runtime (app ref_runtime)
                  (demo_env "x2" 50) (demo_request GET "/api/expenses" JNull) demo_db
                  (or_intror eq_refl))).
  discriminate.
Defined.

Lemma reachable_ids_unique_witness :
  reachable ref_runtime demo_db /\
  NoDup (map cam_id (campaigns demo_db)) /\ NoDup (map dnr_id (donors demo_db)) /\
  NoDup (map ben_id (beneficiaries demo_db)) /\ NoDup (map don_id (donations demo_db)) /\
  NoDup (map exp_id (expenses demo_db)).
Proof.
  split; [exact demo_db_reachable|]. exact (reachable_ids_unique demo_db_reachable).
Defined.

Lemma reachable_rows_validated_witness :
  reachable ref_runtime demo_db /\
  Forall (fun d => SFltb zero (don_amount d) = true) (donations demo_db).
Proof.
  split; [exact demo_db_reachable|].
  exact (proj1 (proj2 (proj2 (proj2 (reachable_rows_validated demo_db_reachable))))).
Defined.

Lemma authenticated_user_irrelevant_witness :
  run_route demo_route (demo_env "x2" 50)
            (demo_request POST "/api/expenses" demo_expense) demo_db
  = run_route demo_route (demo_env "x2" 50)
              (demo_staff_request POST "/api/expenses" demo_expense) demo_db.
Proof.
  eapply (@authenticated_user_irrelevant ref_runtime demo_route (demo_env "x2" 50)
            (demo_request POST "/api/expenses" demo_expense)
            (demo_staff_request POST "/api/expenses" demo_expense) demo_db
            _ "Bearer" demo_token _ "Token"
            (jwt_sign ref_runtime "staff" (JWT_SECRET ref_runtime) demo_t0) [] []
            {| cl_username := "admin"; cl_iat := 1705276800; cl_exp := 1705363200 |}
            {| cl_username := "staff"; cl_iat := 1705276800; cl_exp := 1705363200 |}).
  - right. simpl. tauto.
  - discriminate.
  - discriminate.
  - reflexivity.
  - reflexivity.
  - vm_compute. reflexivity.
  - vm_compute. discriminate.
  - vm_compute. reflexivity.
  - reflexivity.
  - vm_compute. reflexivity.
  - vm_compute. discriminate.
  - vm_compute. reflexivity.
Defined.

Lemma authenticateToken_needs_second_segment_witness :
  authenticateToken ref_runtime getExpenses (demo_env "" 50) demo_bare_token_request demo_db
  = (demo_db, json_response 401 (PError "Access token required" None)).
Proof.
  apply (@authenticateToken_needs_second_segment ref_runtime getExpenses (demo_env "" 50)
           demo_bare_token_request demo_db demo_token eq_refl).
  left. vm_compute. reflexivity.
Defined.

Lemma authenticateToken_default_secret_witness :
  ~ In "mallory" (map fst validCredentials) /\
  authenticateToken ref_runtime getExpenses (demo_env "" 50) demo_outsider_request demo_db
  = getExpenses (demo_env "" 50) (set_user demo_outsider_request demo_outsider) demo_db.
Proof.
  split; [intros [H|[H|[]]]; discriminate H|].
  apply (proj1 (@authenticateToken_default_secret ref_runtime getExpenses
                  (demo_env "" 50) demo_outsider_request demo_db demo_outsider
                  ref_runtime_lawful (or_introl eq_refl) eq_refl)).
  reflexivity.
Defined.

Lemma dashboard_after_create_witness :
  exists c,
    post_api_campaigns (demo_env "c1" 10) (demo_request POST "/api/campaigns" demo_campaign)
                       empty_db
      = (demo_db1, json_response 201 (PCampaign c)) /\
    cam_status c = ACTIVE.
Proof.
  assert (H1 : getDashboardStats (demo_env "" 50)
                 (demo_request GET "/api/dashboard/stats" JNull) empty_db
               = (empty_db, json_response 200 (PStats zero zero 0%nat [])))
    by (vm_compute; reflexivity).
  assert (H2 : getDashboardStats (demo_env "" 50)
                 (demo_request GET "/api/dashboard/stats" JNull) demo_db1
               = (demo_db1, json_response 200 (PStats zero zero 1%nat [])))
    by (vm_compute; reflexivity).
  assert (Hc : post_api_campaigns (demo_env "c1" 10)
                 (demo_request POST "/api/campaigns" demo_campaign) empty_db
               = (demo_db1,
                  json_response 201
                    (PCampaign (campaign_row (demo_env "c1" 10)
                                  {| ci_name := "Winter relief"; ci_description := None;
                                     ci_targetAmount := None; ci_status := ACTIVE |}))))
    by (vm_compute; reflexivity).
  eexists. split; [exact Hc|].
  destruct (@dashboard_after_create (demo_env "c1" 10) (demo_env "" 50) (demo_env "" 50)
              (demo_request POST "/api/campaigns" demo_campaign)
              (demo_request GET "/api/dashboard/stats" JNull)
              (demo_request GET "/api/dashboard/stats" JNull)
              empty_db demo_db1 zero zero zero zero 0%nat 1%nat [] [] H1 H2)
    as (_ & _ & H).
  destruct (H post_api_campaigns _ (or_intror (or_introl eq_refl)) Hc) as [_ Hs].
  apply (Hs [("name", JStr "Winter relief")] eq_refl). now left.
Defined.

Lemma listings_sorted_and_joined_witness :
  reachable ref_runtime demo_db /\
  exists l,
    getDonations (demo_env "" 50) (demo_request GET "/api/donations" JNull) demo_db
      = (demo_db, json_response 200 (PDonations l)) /\
    Permutation (map dwr_donation l) (donations demo_db).
Proof.
  split; [exact demo_db_reachable|].
  destruct (proj1 (proj2 (listings_sorted_and_joined (demo_env "" 50)
                            (demo_request GET "/api/donations" JNull)
                            demo_db_reachable)))
    as (l & H & Hp & _).
  exists l. split; [exact H|exact Hp].
Defined.

Lemma listed_counts_add_up_witness :
  reachable ref_runtime demo_db /\
  exists l,
    getDonors (demo_env "" 50) (demo_request GET "/api/donors" JNull) demo_db
      = (demo_db, json_response 200 (PDonors l)) /\
    list_sum (map dwc_donations l) = 1%nat.
Proof.
  split; [exact demo_db_reachable|].
  destruct (proj1 (listed_counts_add_up (demo_env "" 50)
                     (demo_request GET "/api/donors" JNull) demo_db_reachable))
    as (l & H & Hs).
  exists l. split; [exact H|exact Hs].
Defined.

Lemma delete_absent_changes_nothing_witness :
  reachable ref_runtime demo_db /\
  has_id cam_id "c9" (campaigns demo_db) = false /\
  campaign_delete "c9" demo_db = demo_db.
Proof.
  split; [exact demo_db_reachable|]. split; [reflexivity|].
  apply (proj1 (delete_absent_changes_nothing "c9" demo_db_reachable)). reflexivity.
Defined.

Lemma create_reads_schema_keys_only_witness :
  createExpense (demo_env "x2" 50) (demo_request POST "/expenses" demo_expense_with_id)
                demo_db
  = createExpense (demo_env "x2" 50) (demo_request POST "/expenses" demo_expense) demo_db.
Proof.
  apply (proj1 (@create_reads_schema_keys_only ref_runtime (demo_env "x2" 50)
                  (demo_request POST "/expenses" demo_expense_with_id)
                  (demo_request POST "/expenses" demo_expense) demo_db
                  _ _ eq_refl eq_refl)).
  repeat constructor.
Defined.

Lemma expense_rejection_lists_invalid_fields_witness :
  exists l,
    createExpense (demo_env "x2" 50) (demo_request POST "/expenses" demo_free_expense)
                  demo_db
      = (demo_db, json_response 400 (PError "Invalid expense data" (Some l))) /\
    map path l = [["amount"]].
Proof.
  destruct (@expense_rejection_lists_invalid_fields (demo_env "x2" 50)
              (demo_request POST "/expenses" demo_free_expense) demo_db _ eq_refl)
    as (l & H & _ & Hp & _).
  exists l. split; [exact H|exact Hp].
Defined.

Lemma client_session_witness :
  jwt_lawful ref_runtime /\
  exists b1,
    AuthGate_handleSubmit (dispatch ref_runtime (app ref_runtime)) "admin" "ray-hope-2024"
                          (demo_env "" 0) demo_app demo_browser empty_db
      = (empty_db, {| isAuthenticated := true; app_username := Some "admin" |}, b1, "") /\
    ApiClient_getExpenses (dispatch ref_runtime (app ref_runtime)) (api b1)
                          (demo_env "" 50) demo_db
      = (demo_db, Returned (PExpenses (map (include_campaign demo_db)
                                           (orderBy_desc exp_createdAt (expenses demo_db))))).
Proof.
  split; [exact ref_runtime_lawful|].
  destruct (@client_session ref_runtime "admin" "ray-hope-2024" (demo_env "" 0)
              demo_app demo_browser empty_db ref_runtime_lawful
              (ref_runtime_routes_literally _) (ref_runtime_routes_literally _)
              (or_introl eq_refl))
    as (b1 & H & _ & _ & _ & Hlist).
  exists b1. split; [exact H|].
  apply (proj1 (Hlist (demo_env "" 50) demo_db)). reflexivity.
Defined.

Lemma client_login_refused_witness :
  AuthGate_handleSubmit (dispatch ref_runtime (app ref_runtime)) "admin" "guess"
                        (demo_env "" 0) demo_app demo_browser demo_db
  = (demo_db, demo_app, demo_browser, "Invalid credentials").
Proof.
  apply (proj2 (@client_login_refused ref_runtime "admin" "guess" (demo_env "" 0)
                  demo_app demo_browser demo_db (ref_runtime_routes_literally _))).
  - discriminate.
  - discriminate.
  - intros [H|[H|[]]]; discriminate H.
Defined.

Lemma client_calls_without_route_witness :
  ApiClient_deleteExpense (dispatch ref_runtime (app ref_runtime))
                          {| this_token := Some demo_token |} "x1" (demo_env "" 50) demo_db
    = (demo_db, Raised "Network error") /\
  ApiClient_getMonthlyAnalytics (dispatch ref_runtime (app ref_runtime))
                                {| this_token := Some demo_token |} (demo_env "" 50) demo_db
    = (demo_db, Raised "Network error").
Proof.
  destruct (@client_calls_without_route ref_runtime {| this_token := Some demo_token |}
              "x1" JNull (demo_env "" 50) demo_db) as (_ & Hd & Ha).
  split; [exact Hd|]. apply Ha. apply ref_runtime_routes_literally.
Defined.

Lemma client_logout_witness :
  getItem "theme" (localStorage (snd (handleLogout demo_browser))) = Some "dark" /\
  ApiClient_getExpenses (dispatch ref_runtime (app ref_runtime))
                        (api (snd (handleLogout demo_browser))) (demo_env "" 50) demo_db
    = (demo_db, Raised "Access token required").
Proof.
  destruct (@client_logout ref_runtime demo_browser) as (_ & _ & _ & _ & Hk & Hg).
  split.
  - rewrite Hk by discriminate. reflexivity.
  - apply Hg. apply ref_runtime_routes_literally.
Defined.

Lemma form_bodies_validate_witness :
  beneficiarySchema_parse (beneficiary_form_data "Ravi" "" "school")
  = Ok {| bi_name := "Ravi"; bi_description := None; bi_contactInfo := Some "school" |}.
Proof.
  apply (proj1 (@form_bodies_validate ref_runtime "Ravi" "" "school" "" "" "")).
  discriminate.
Defined.
